(** * script_with_mail: an IMAP attachment scanner

    A shallow embedding of [connect_to_imap_server.py], [search_emails.py]
    and [main.py], and the properties of their functions.

    Conventions of the embedding.
    - A Python [bytes] value is a Rocq string, a sequence of 8-bit characters;
      a Python [str] is represented by its UTF-8 encoding, so that a character
      outside ASCII takes two to four of them.  The two names [pystr] and
      [pybytes] keep them apart.
    - A function that may raise returns a [result]; a function that also logs
      or talks to the IMAP server runs in the monad [M] over a [World] that
      records the log lines and the commands sent on the session so far.
    - The standard library is modelled where the program's behaviour depends
      on it, as CPython 3.11 on Linux has it: [datetime] (proleptic Gregorian
      ordinals, as in [_pydatetime.py]), [_strptime] and [strftime] for the
      one format the program uses, [str.endswith], [str.split] and
      [bytes.split].  The codecs, the header decoder and the MIME parser stay
      abstract, in the records [PyLib] and [Lister]. *)

From Stdlib Require Import ZArith List String Ascii Bool Lia.
From Stdlib Require Import DecimalString.
Import ListNotations.

Local Open Scope string_scope.
Local Open Scope Z_scope.

Definition pystr := string.
Definition pybytes := string.

(** ** Exceptions *)

Inductive ExnClass : Type :=
| ValueError
| OverflowError
| TypeError
| AttributeError
| IndexError
| LookupError
| UnicodeDecodeError
| OSError
| IMAP4_error
| IMAP4_abort
| IMAP4_readonly.

Record Exn : Type := mkExn { exn_class : ExnClass; exn_msg : pystr }.

(** [imaplib.IMAP4.abort] and [imaplib.IMAP4.readonly] derive from
    [imaplib.IMAP4.error]; this is what [except imaplib.IMAP4.error] catches. *)
Definition is_IMAP4_error (c : ExnClass) : bool :=
  match c with
  | IMAP4_error | IMAP4_abort | IMAP4_readonly => true
  | _ => false
  end.

Inductive result (A : Type) : Type :=
| Ok (a : A)
| Raise (e : Exn).

Arguments Ok {A} a.
Arguments Raise {A} e.

(** ** Decimal text *)

Definition digit_char (d : Z) : ascii := ascii_of_nat (48 + Z.to_nat d).

Definition digit_val (c : ascii) : Z := Z.of_nat (nat_of_ascii c) - 48.

(** ["%02d" % n] and ["%04d" % n], for [n] in range. *)
Definition pad2 (n : Z) : pystr :=
  String (digit_char (n / 10)) (String (digit_char (n mod 10)) "").

Definition pad4 (n : Z) : pystr :=
  String (digit_char (n / 1000))
    (String (digit_char (n / 100 mod 10))
       (String (digit_char (n / 10 mod 10))
          (String (digit_char (n mod 10)) ""))).

(** [str(n)] for a natural number and for an integer. *)
Definition str_of_nat (n : nat) : pystr := NilEmpty.string_of_uint (Nat.to_uint n).
Definition str_of_Z (z : Z) : pystr := NilZero.string_of_int (Z.to_int z).

(** [repr(s)] of a string; the escaping of quotes inside [s] is not modelled. *)
Definition repr (s : pystr) : pystr := "'" ++ s ++ "'".

(** ** The [datetime] module *)

Module Datetime.

(** [strptime] with a date-only format yields midnight, and adding
    [timedelta(days=1)] keeps the time of day, so only the date fields of the
    program's [datetime] values vary. *)
Record datetime : Type := mkdate { year : Z; month : Z; day : Z }.

Definition MINYEAR : Z := 1.
Definition MAXYEAR : Z := 9999.
Definition MAXORDINAL : Z := 3652059.

Definition DAYS_IN_MONTH : list Z :=
  [-1; 31; 28; 31; 30; 31; 30; 31; 31; 30; 31; 30; 31].

Definition DAYS_BEFORE_MONTH : list Z :=
  [-1; 0; 31; 59; 90; 120; 151; 181; 212; 243; 273; 304; 334].

Definition index (t : list Z) (i : Z) : Z := nth (Z.to_nat i) t (-1).

Definition is_leap (y : Z) : bool :=
  (y mod 4 =? 0) && (negb (y mod 100 =? 0) || (y mod 400 =? 0)).

Definition days_before_year (yr : Z) : Z :=
  let y := yr - 1 in y * 365 + y / 4 - y / 100 + y / 400.

Definition days_in_month (y m : Z) : Z :=
  if (m =? 2) && is_leap y then 29 else index DAYS_IN_MONTH m.

Definition days_before_month (y m : Z) : Z :=
  index DAYS_BEFORE_MONTH m + (if (2 <? m) && is_leap y then 1 else 0).

Definition ymd2ord (y m d : Z) : Z :=
  days_before_year y + days_before_month y m + d.

Definition DI400Y : Z := Eval cbv in days_before_year 401.
Definition DI100Y : Z := Eval cbv in days_before_year 101.
Definition DI4Y : Z := Eval cbv in days_before_year 5.

Definition ord2ymd (n0 : Z) : datetime :=
  let n := n0 - 1 in
  let n400 := n / DI400Y in
  let n := n mod DI400Y in
  let yr := n400 * 400 + 1 in
  let n100 := n / DI100Y in
  let n := n mod DI100Y in
  let n4 := n / DI4Y in
  let n := n mod DI4Y in
  let n1 := n / 365 in
  let n := n mod 365 in
  let yr := yr + (n100 * 100 + n4 * 4 + n1) in
  if (n1 =? 4) || (n100 =? 4) then mkdate (yr - 1) 12 31
  else
    let leapyear := (n1 =? 3) && (negb (n4 =? 24) || (n100 =? 3)) in
    let mo := Z.shiftr (n + 50) 5 in
    let preceding :=
      index DAYS_BEFORE_MONTH mo + (if (2 <? mo) && leapyear then 1 else 0) in
    if n <? preceding then
      let mo := mo - 1 in
      let preceding :=
        preceding
        - (index DAYS_IN_MONTH mo + (if (mo =? 2) && leapyear then 1 else 0)) in
      mkdate yr mo (n - preceding + 1)
    else mkdate yr mo (n - preceding + 1).

Definition toordinal (d : datetime) : Z := ymd2ord (year d) (month d) (day d).

(** The checks of the [date] constructor. *)
Definition valid (d : datetime) : bool :=
  (MINYEAR <=? year d) && (year d <=? MAXYEAR)
  && (1 <=? month d) && (month d <=? 12)
  && (1 <=? day d) && (day d <=? days_in_month (year d) (month d)).

Definition make_date (y m d : Z) : result datetime :=
  if negb ((MINYEAR <=? y) && (y <=? MAXYEAR)) then
    Raise (mkExn ValueError ("year " ++ str_of_Z y ++ " is out of range"))
  else if negb ((1 <=? m) && (m <=? 12)) then
    Raise (mkExn ValueError "month must be in 1..12")
  else if negb ((1 <=? d) && (d <=? days_in_month y m)) then
    Raise (mkExn ValueError "day is out of range for month")
  else Ok (mkdate y m d).

(** [self + timedelta(days=n)] *)
Definition add_days (d : datetime) (n : Z) : result datetime :=
  let days := toordinal d + n in
  if (0 <? days) && (days <=? MAXORDINAL) then Ok (ord2ymd days)
  else Raise (mkExn OverflowError "date value out of range").

(** Comparison of two values is the comparison of their field tuples. *)
Definition cmp (a b : datetime) : comparison :=
  match year a ?= year b with
  | Eq => match month a ?= month b with
          | Eq => day a ?= day b
          | c => c
          end
  | c => c
  end.

Definition lt (a b : datetime) : bool :=
  match cmp a b with Lt => true | _ => false end.

Definition ge (a b : datetime) : bool :=
  match cmp a b with Lt => false | _ => true end.

(** The calendar successor of a date, written independently of ordinals. *)
Definition next_day (d : datetime) : datetime :=
  if day d <? days_in_month (year d) (month d) then
    mkdate (year d) (month d) (day d + 1)
  else if month d <? 12 then mkdate (year d) (month d + 1) 1
  else mkdate (year d + 1) 1 1.

Definition max_date : datetime := mkdate 9999 12 31.

End Datetime.

(** ** Characters

    [next_char] reads the first character of a text from its UTF-8 encoding:
    the code point, the bytes that encode it and the text after it; it gives
    nothing on an empty text and on bytes that are not well-formed UTF-8,
    which represent no [str]. *)

Definition is_cont (c : ascii) : bool :=
  let n := N_of_ascii c in ((128 <=? n) && (n <? 192))%N.

Definition cont (c : ascii) : N := (N_of_ascii c - 128)%N.

Definition next_char (s : pystr) : option (N * pystr * pystr) :=
  match s with
  | EmptyString => None
  | String a r =>
      let n := N_of_ascii a in
      if (n <? 128)%N then Some (n, String a "", r)
      else if (n <? 194)%N then None
      else if (n <? 224)%N then
        match r with
        | String b r1 =>
            if is_cont b
            then Some (((n - 192) * 64 + cont b)%N, String a (String b ""), r1)
            else None
        | EmptyString => None
        end
      else if (n <? 240)%N then
        match r with
        | String b (String c r2) =>
            let cp := (((n - 224) * 64 + cont b) * 64 + cont c)%N in
            if is_cont b && is_cont c && (2048 <=? cp)%N
               && negb ((55296 <=? cp) && (cp <? 57344))%N
            then Some (cp, String a (String b (String c "")), r2)
            else None
        | _ => None
        end
      else if (n <? 245)%N then
        match r with
        | String b (String c (String d r3)) =>
            let cp :=
              ((((n - 240) * 64 + cont b) * 64 + cont c) * 64 + cont d)%N in
            if is_cont b && is_cont c && is_cont d && (65536 <=? cp)%N
               && (cp <? 1114112)%N
            then Some (cp, String a (String b (String c (String d ""))), r3)
            else None
        | _ => None
        end
      else None
  end.

(** The characters of a text, as code points. *)
Fixpoint chars_upto (fuel : nat) (s : pystr) : list N :=
  match fuel with
  | O => []
  | S fuel' =>
      match next_char s with
      | Some (cp, _, r) => cp :: chars_upto fuel' r
      | None => []
      end
  end.

Definition chars (s : pystr) : list N := chars_upto (String.length s) s.

(** The decimal digits of Unicode 14.0 (general category [Nd], 660
    characters): they come in runs of ten, in the order of their values;
    [decimal_zeros] lists the digit zero of each run, from ASCII, Arabic-Indic
    and Devanagari to the mathematical and the segmented digits. *)
Definition decimal_zeros : list N :=
  [48; 1632; 1776; 1984; 2406; 2534; 2662; 2790; 2918; 3046; 3174; 3302;
   3430; 3558; 3664; 3792; 3872; 4160; 4240; 6112; 6160; 6470; 6608; 6784;
   6800; 6992; 7088; 7232; 7248; 42528; 43216; 43264; 43472; 43504; 43600;
   44016; 65296; 66720; 68912; 69734; 69872; 69942; 70096; 70384; 70736;
   70864; 71248; 71360; 71472; 71904; 72016; 72784; 73040; 73120; 92768;
   92864; 93008; 120782; 120792; 120802; 120812; 120822; 123200; 123632;
   125264; 130032]%N.

(** [unicodedata.decimal]: the value of a decimal digit. *)
Definition decimal_value (cp : N) : option Z :=
  match find (fun z => (z <=? cp) && (cp <? z + 10))%N decimal_zeros with
  | Some z => Some (Z.of_N (cp - z))
  | None => None
  end.

(** ** [datetime.strptime] and [strftime] for the program's format

    The program passes one format everywhere, [DATE_FORMAT]; the model of
    [_strptime] is specialised to it.  [_strptime] compiles the format to the
    regular expression
    [(?P<d>3[0-1]|[1-2]\d|0[1-9]|[1-9]| [1-9])-(?P<b>jan|...|dec)-(?P<Y>\d\d\d\d)],
    matches it case-insensitively at the start of the text, refuses trailing
    text, and builds the date from the three groups (C locale).  The pattern
    is a [str] pattern, so [\d] is any Unicode decimal digit, while a class
    such as [[1-9]] holds ASCII digits only; [int] reads the digits of a group
    by their decimal values. *)

Module Strptime.
Import Datetime.

Definition DATE_FORMAT : pystr := "%d-%b-%Y".

Definition a_month : list pystr :=
  [""; "jan"; "feb"; "mar"; "apr"; "may"; "jun";
   "jul"; "aug"; "sep"; "oct"; "nov"; "dec"].

Definition month_abbr : list pystr :=
  [""; "Jan"; "Feb"; "Mar"; "Apr"; "May"; "Jun";
   "Jul"; "Aug"; "Sep"; "Oct"; "Nov"; "Dec"].

(** [str.lower] on the text of a month: the ASCII capitals change, and no
    other character that the pattern lets through does. *)
Definition lower_char (c : ascii) : ascii :=
  let n := nat_of_ascii c in
  if (65 <=? n)%nat && (n <=? 90)%nat then ascii_of_nat (n + 32) else c.

Fixpoint lower (s : pystr) : pystr :=
  match s with
  | EmptyString => EmptyString
  | String c r => String (lower_char c) (lower r)
  end.

(** The character class [[1-9]]. *)
Definition is_digit19 (c : ascii) : bool :=
  let n := nat_of_ascii c in (49 <=? n)%nat && (n <=? 57)%nat.

(** The class [\d]: one decimal digit, with the text that it leaves. *)
Definition re_digit (s : pystr) : option (pystr * pystr) :=
  match next_char s with
  | Some (cp, t, r) =>
      match decimal_value cp with
      | Some _ => Some (t, r)
      | None => None
      end
  | None => None
  end.

(** The alternatives of group [d], in the order the matcher tries them, each
    with the text it consumes and the text it leaves. *)
Definition re_d (s : pystr) : list (pystr * pystr) :=
  match s with
  | String a s1 =>
      (if (a =? "3")%char then
         match s1 with
         | String b r =>
             if (b =? "0")%char || (b =? "1")%char
             then [(String a (String b ""), r)] else []
         | EmptyString => []
         end
       else [])
      ++ (if (a =? "1")%char || (a =? "2")%char then
            match re_digit s1 with
            | Some (t, r) => [(String a t, r)]
            | None => []
            end
          else [])
      ++ (if (a =? "0")%char then
            match s1 with
            | String b r =>
                if is_digit19 b then [(String a (String b ""), r)] else []
            | EmptyString => []
            end
          else [])
      ++ (if is_digit19 a then [(String a "", s1)] else [])
      ++ (if (a =? " ")%char then
            match s1 with
            | String b r =>
                if is_digit19 b then [(String a (String b ""), r)] else []
            | EmptyString => []
            end
          else [])
  | EmptyString => []
  end.

Definition re_lit (c : ascii) (s : pystr) : option pystr :=
  match s with
  | String a r => if (a =? c)%char then Some r else None
  | EmptyString => None
  end.

(** U+017F, the long s: with [re.IGNORECASE] the letter [s] of a pattern
    matches it too, and it is the only character outside ASCII that a letter
    of the month names matches. *)
Definition long_s : pystr :=
  String (ascii_of_nat 197) (String (ascii_of_nat 191) "").

(** Group [b]: a month name in any letter case, or [sep] written with a
    long s. *)
Definition re_b (s : pystr) : option (pystr * pystr) :=
  match s with
  | String a (String b (String c r)) =>
      let t := String a (String b (String c "")) in
      if existsb (String.eqb (lower t)) (tl a_month) then Some (t, r)
      else
        match r with
        | String d r' =>
            if (String a (String b "") =? long_s)%string
               && (lower (String c (String d "")) =? "ep")%string
            then Some (String a (String b (String c (String d ""))), r')
            else None
        | EmptyString => None
        end
  | _ => None
  end.

Definition re_Y (s : pystr) : option (pystr * pystr) :=
  match re_digit s with
  | Some (t1, s1) =>
      match re_digit s1 with
      | Some (t2, s2) =>
          match re_digit s2 with
          | Some (t3, s3) =>
              match re_digit s3 with
              | Some (t4, s4) => Some (t1 ++ t2 ++ t3 ++ t4, s4)
              | None => None
              end
          | None => None
          end
      | None => None
      end
  | None => None
  end.

(** What follows group [d]: [-], group [b], [-], group [Y]. *)
Definition re_tail (s : pystr) : option (pystr * pystr * pystr) :=
  match re_lit "-" s with
  | Some s1 =>
      match re_b s1 with
      | Some (b, s2) =>
          match re_lit "-" s2 with
          | Some s3 =>
              match re_Y s3 with
              | Some (y, s4) => Some (b, y, s4)
              | None => None
              end
          | None => None
          end
      | None => None
      end
  | None => None
  end.

(** Backtracking over the alternatives of [d]: the first one after which the
    rest of the pattern matches. *)
Fixpoint first_match (alts : list (pystr * pystr))
  : option (pystr * pystr * pystr * pystr) :=
  match alts with
  | [] => None
  | (d, r) :: alts' =>
      match re_tail r with
      | Some (b, y, rest) => Some (d, b, y, rest)
      | None => first_match alts'
      end
  end.

(** [int(s)] on the text of a group: an optional leading blank, then decimal
    digits. *)
Definition int_step (acc : Z) (cp : N) : Z :=
  if (cp =? 32)%N then acc
  else match decimal_value cp with
       | Some v => acc * 10 + v
       | None => acc
       end.

Definition py_int (s : pystr) : Z := fold_left int_step (chars s) 0.

(** [list.index] on the month table; [-1] stands for the [ValueError]. *)
Fixpoint list_index (x : pystr) (l : list pystr) : Z :=
  match l with
  | [] => -1
  | y :: l' => if String.eqb x y then 0 else
                 let i := list_index x l' in if i <? 0 then -1 else i + 1
  end.

Definition strptime (data_string : pystr) : result datetime :=
  match first_match (re_d data_string) with
  | None =>
      Raise (mkExn ValueError
               ("time data " ++ repr data_string ++ " does not match format "
                ++ repr DATE_FORMAT))
  | Some (d, b, y, rest) =>
      if negb (rest =? "")%string then
        Raise (mkExn ValueError ("unconverted data remains: " ++ rest))
      else
        let month := list_index (lower b) a_month in
        if month <? 0 then
          Raise (mkExn ValueError (repr (lower b) ++ " is not in list"))
        else make_date (py_int y) month (py_int d)
  end.

(** [strftime("%d-%b-%Y")].  CPython 3.11 hands the format to the C library,
    and glibc writes [%Y] as the decimal number of the year, without leading
    zeros: the year 999 gives [01-Jan-999]. *)
Definition strftime (d : datetime) : pystr :=
  pad2 (day d) ++ "-" ++ nth (Z.to_nat (month d)) month_abbr "" ++ "-"
  ++ str_of_Z (year d).

End Strptime.
Import Datetime Strptime.

(** ** Strings and bytes *)

Definition dquote : pystr := String (ascii_of_nat 34) "".

(** Truth value of a [str]. *)
Definition truthy (s : pystr) : bool := negb (s =? "")%string.

(** [s.endswith(suffix)]: the last [len(suffix)] characters of [s] are
    [suffix], compared character by character. *)
Definition endswith (s suffix : pystr) : bool :=
  let n := String.length s in
  let k := String.length suffix in
  (k <=? n)%nat && (substring (n - k) k s =? suffix)%string.

(** ASCII whitespace, as [bytes.split()] without argument sees it. *)
Definition is_space (c : ascii) : bool :=
  let n := nat_of_ascii c in
  (n =? 32)%nat || ((9 <=? n)%nat && (n <=? 13)%nat).

Fixpoint split_from (tok : pybytes) (s : pybytes) : list pybytes :=
  match s with
  | EmptyString => if (tok =? "")%string then [] else [tok]
  | String c r =>
      if is_space c then
        if (tok =? "")%string then split_from "" r else tok :: split_from "" r
      else split_from (tok ++ String c "") r
  end.

(** [b.split()] *)
Definition split (b : pybytes) : list pybytes := split_from "" b.

(** ** Parsed messages

    What the program observes of an [email.message.Message]: the main content
    type, the [Content-Disposition] header, [get_filename()], the [subject]
    and [from] headers, and the sub-parts that [walk] descends into (none for
    a payload that is not a list). *)

#[local] Set Warnings "-register-all".

Inductive Message : Type :=
  mkMessage (maintype : pystr) (disposition : option pystr)
            (filename : option pystr) (subject from_ : option pystr)
            (payload : list Message).

Definition get_content_maintype (m : Message) : pystr :=
  match m with mkMessage t _ _ _ _ _ => t end.

Definition get_content_disposition (m : Message) : option pystr :=
  match m with mkMessage _ d _ _ _ _ => d end.

Definition get_filename (m : Message) : option pystr :=
  match m with mkMessage _ _ f _ _ _ => f end.

Definition get_subject (m : Message) : option pystr :=
  match m with mkMessage _ _ _ s _ _ => s end.

Definition get_from (m : Message) : option pystr :=
  match m with mkMessage _ _ _ _ f _ => f end.

Definition get_payload (m : Message) : list Message :=
  match m with mkMessage _ _ _ _ _ p => p end.

(** [Message.walk()]: the message, then each sub-part's walk, depth first. *)
Fixpoint walk (m : Message) : list Message :=
  match m with
  | mkMessage _ _ _ _ _ payload => m :: flat_map walk payload
  end.

(** A value handed to [decode_text]: [None], [bytes] or [str]. *)
Inductive pyval : Type :=
| PyNone
| PyBytes (b : pybytes)
| PyStr (s : pystr).

Definition of_header (h : option pystr) : pyval :=
  match h with
  | None => PyNone
  | Some s => PyStr s
  end.

(** ** The library functions left abstract *)

Record PyLib : Type := mkPyLib {
  (** [str(make_header(decode_header(b)))] *)
  header_to_str : pybytes -> result pystr;
  (** [b.decode('utf-8', errors='replace')], which cannot fail *)
  utf8_replace : pybytes -> pystr;
  (** the other codecs with [errors='replace']: [None] for a name that no
      codec has; a codec that is found may still raise, as [punycode] and
      [idna] do on some bytes and [undefined] on all *)
  other_codecs : pystr -> option (pybytes -> result pystr);
  (** [b.decode('utf-8')] *)
  utf8_strict : pybytes -> result pystr;
  (** [email.message_from_bytes(b)] *)
  message_from_bytes : pybytes -> Message
}.

(** [b.decode(charset, errors='replace')] *)
Definition decode_replace (L : PyLib) (charset : pystr) (b : pybytes)
  : result pystr :=
  if (charset =? "utf-8")%string then Ok (utf8_replace L b)
  else match other_codecs L charset with
       | Some dec => dec b
       | None => Raise (mkExn LookupError ("unknown encoding: " ++ charset))
       end.

(** ** The IMAP session

    A session answers a command with a pair (status, data) or raises.  The
    server and [imaplib] together are a function from the commands sent so
    far, the current one last, to the outcome of the current one. *)

Inductive Item : Type :=
| INone
| IBytes (b : pybytes)
| ITuple (a b : pybytes).

Definition Reply : Type := (pystr * list Item)%type.

Inductive Call : Type :=
| Login (user password : pystr)
| Select (mailbox : pystr)
| Search (charset : option pystr) (criterion : pystr)
| Fetch (message_set message_parts : pystr)
| Logout.

Definition Session : Type := list Call -> result Reply.

Inductive Level : Type := INFO | WARNING | ERROR.

Record World : Type := mkWorld {
  calls : list Call;
  logs : list (Level * pystr)
}.

(** ** The monad of the program: state and exceptions *)

Definition M (A : Type) : Type := World -> result A * World.

Definition ret {A} (a : A) : M A := fun w => (Ok a, w).

Definition bind {A B} (m : M A) (k : A -> M B) : M B :=
  fun w => match m w with
           | (Ok a, w') => k a w'
           | (Raise e, w') => (Raise e, w')
           end.

Definition lift {A} (r : result A) : M A := fun w => (r, w).

Notation "x <- m ;; k" := (bind m (fun x => k))
  (at level 61, m at next level, right associativity).
Notation "' p <- m ;; k" := (bind m (fun x => let 'p := x in k))
  (at level 61, p pattern, m at next level, right associativity).
Notation "m ;;; k" := (bind m (fun _ => k))
  (at level 61, right associativity).

(** [try: body except <classes>: handler] *)
Definition try_except {A} (catches : ExnClass -> bool) (body : M A)
    (handler : Exn -> M A) : M A :=
  fun w => match body w with
           | (Raise e, w') =>
               if catches (exn_class e) then handler e w' else (Raise e, w')
           | ok => ok
           end.

(** [except Exception]: every class of the model derives from [Exception]. *)
Definition any_Exception (c : ExnClass) : bool := true.

Definition logging (lvl : Level) (msg : pystr) : M unit :=
  fun w => (Ok tt, mkWorld (calls w) (logs w ++ [(lvl, msg)])%list).

(** A command on the session: it is recorded, then answered. *)
Definition imap (s : Session) (c : Call) : M Reply :=
  fun w => let h := (calls w ++ [c])%list in (s h, mkWorld h (logs w)).

(** ** connect_to_imap_server.py *)

(** [IMAP4_SSL] is the constructor of the library: it opens the socket and
    reads the greeting, and yields a session or raises. *)
Definition connect_to_imap_server (IMAP4_SSL : pystr -> result Session)
    (server username password : pystr) : M (option Session) :=
  try_except is_IMAP4_error
    (imap_session <- lift (IMAP4_SSL server) ;;
     '(typ, account_details) <- imap imap_session (Login username password) ;;
     if negb (typ =? "OK")%string then
       logging ERROR "Not able to sign in!" ;;;
       ret None
     else
       logging INFO "IMAP connection successful" ;;;
       ret (Some imap_session))
    (fun e =>
       logging ERROR ("IMAP login error: " ++ exn_msg e) ;;;
       ret None).

(** An [IMAP4_SSL] object is always true, so [if imap_session] tests for
    [None]. *)
Definition close_imap_session (imap_session : option Session) : M unit :=
  match imap_session with
  | Some s => _ <- imap s Logout ;; ret tt
  | None => ret tt
  end.

(** ** search_emails.py *)

(** The parameter [date_format] is [DATE_FORMAT] at the only call. *)
Definition validate_date_range (start_date end_date : pystr) : result unit :=
  match strptime start_date with
  | Raise e => Raise e
  | Ok start =>
      match strptime end_date with
      | Raise e => Raise e
      | Ok end_ =>
          if ge start end_ then
            Raise (mkExn ValueError "start_date must be before end_date")
          else Ok tt
      end
  end.

(** [data[0]] *)
Definition getitem0 (data : list Item) : result Item :=
  match data with
  | x :: _ => Ok x
  | [] => Raise (mkExn IndexError "list index out of range")
  end.

(** [x.split()] for an element of the data of a reply. *)
Definition item_split (x : Item) : result (list pybytes) :=
  match x with
  | IBytes b => Ok (split b)
  | INone =>
      Raise (mkExn AttributeError "'NoneType' object has no attribute 'split'")
  | ITuple _ _ =>
      Raise (mkExn AttributeError "'tuple' object has no attribute 'split'")
  end.

(** The list comprehension [[f(x) for x in l]] for an [f] that may raise. *)
Fixpoint comprehension {A B} (f : A -> result B) (l : list A)
  : result (list B) :=
  match l with
  | [] => Ok []
  | x :: r =>
      match f x with
      | Raise e => Raise e
      | Ok y => match comprehension f r with
                | Raise e => Raise e
                | Ok ys => Ok (y :: ys)
                end
      end
  end.

Definition search_criterion (since_date before_date : pystr) : pystr :=
  "(SINCE " ++ dquote ++ since_date ++ dquote
  ++ " BEFORE " ++ dquote ++ before_date ++ dquote ++ ")".

Definition search_error_message : pystr :=
  "Error searching Inbox. IMAP search did not return " ++ dquote ++ "OK"
  ++ dquote ++ ".".

Section Program.

Context (L : PyLib).

Definition search_emails (imap_session : Session)
    (mailbox start_date end_date : pystr) : M (list pystr) :=
  _ <- lift (validate_date_range start_date end_date) ;;
  _ <- imap imap_session (Select mailbox) ;;
  start <- lift (strptime start_date) ;;
  let since_date := strftime start in
  end_ <- lift (strptime end_date) ;;
  next <- lift (add_days end_ 1) ;;
  let before_date := strftime next in
  '(typ, data) <- imap imap_session
                    (Search None (search_criterion since_date before_date)) ;;
  if negb (typ =? "OK")%string then
    logging ERROR search_error_message ;;;
    ret []
  else
    first <- lift (getitem0 data) ;;
    tokens <- lift (item_split first) ;;
    email_ids_str <- lift (comprehension (utf8_strict L) tokens) ;;
    ret email_ids_str.

Definition decode_text (text : pyval) (default_charset : pystr) : M pystr :=
  match text with
  | PyNone =>
      logging WARNING "decode_text received None instead of string/bytes." ;;;
      ret ""
  | _ =>
      try_except any_Exception
        (match text with
         | PyBytes b => lift (header_to_str L b)
         | PyStr s => ret s
         | PyNone => ret ""
         end)
        (fun e =>
           logging ERROR ("Error decoding text: " ++ exn_msg e
                          ++ ", using default charset " ++ default_charset
                          ++ ".") ;;;
           match text with
           | PyBytes b => lift (decode_replace L default_charset b)
           | PyStr s => ret s
           | PyNone => ret ""
           end)
  end.

Definition default_charset : pystr := "utf-8".

(** The two log lines of [decode_text]. *)
Definition decode_warning : pystr :=
  "decode_text received None instead of string/bytes.".

Definition decode_error (e : Exn) (charset : pystr) : pystr :=
  "Error decoding text: " ++ exn_msg e ++ ", using default charset "
  ++ charset ++ ".".

Definition Triple : Type := (pystr * pystr * pystr)%type.

(** [data[0][1]] handed to [email.message_from_bytes]. *)
Definition fetched_message (data : list Item) : result Message :=
  match getitem0 data with
  | Raise e => Raise e
  | Ok (ITuple _ body) => Ok (message_from_bytes L body)
  | Ok INone =>
      Raise (mkExn TypeError "'NoneType' object is not subscriptable")
  | Ok (IBytes b) =>
      if (String.length b <? 2)%nat then
        Raise (mkExn IndexError "index out of range")
      else Raise (mkExn AttributeError "'int' object has no attribute 'decode'")
  end.

(** The inner loop, over the parts that [walk] yields. *)
Fixpoint scan_parts (parts : list Message) (subject from_ : pystr)
    (file_extension : pystr) (attachments_info : list Triple)
  : M (list Triple) :=
  match parts with
  | [] => ret attachments_info
  | part :: rest =>
      if (get_content_maintype part =? "multipart")%string
         || match get_content_disposition part with
            | None => true
            | Some _ => false
            end
      then scan_parts rest subject from_ file_extension attachments_info
      else
        file_name <- decode_text (of_header (get_filename part))
                       default_charset ;;
        if truthy file_name && endswith file_name file_extension then
          logging INFO ("Found attachment: " ++ file_name) ;;;
          scan_parts rest subject from_ file_extension
            (attachments_info ++ [(subject, from_, file_name)])%list
        else scan_parts rest subject from_ file_extension attachments_info
  end.

(** The outer loop, over the identifiers. *)
Fixpoint fetch_loop (imap_session : Session) (email_ids : list pystr)
    (file_extension : pystr) (attachments_info : list Triple)
  : M (list Triple) :=
  match email_ids with
  | [] => ret attachments_info
  | email_id :: rest =>
      logging INFO ("Processing email ID: " ++ email_id) ;;;
      '(typ, data) <- imap imap_session (Fetch email_id "(RFC822)") ;;
      if negb (typ =? "OK")%string then
        logging ERROR ("Failed to fetch email ID " ++ email_id ++ ".") ;;;
        fetch_loop imap_session rest file_extension attachments_info
      else
        email_message <- lift (fetched_message data) ;;
        subject <- decode_text (of_header (get_subject email_message))
                     default_charset ;;
        from_ <- decode_text (of_header (get_from email_message))
                   default_charset ;;
        attachments_info' <- scan_parts (walk email_message) subject from_
                               file_extension attachments_info ;;
        fetch_loop imap_session rest file_extension attachments_info'
  end.

Definition get_attachments_info (imap_session : Session)
    (email_ids : list pystr) (file_extension : pystr) : M (list Triple) :=
  attachments_info <- fetch_loop imap_session email_ids file_extension [] ;;
  logging INFO ("Completed processing emails. Found "
                ++ str_of_nat (List.length attachments_info)
                ++ " attachments.") ;;;
  ret attachments_info.

End Program.

(** ** Checking one 400-year cycle by evaluation

    The Gregorian calendar repeats every [DI400Y] days.  [cycle_check n]
    decides, for an ordinal of the first cycle, that [ord2ymd n] is a date of
    the years 1..400 whose ordinal is [n] again; [check_range k lo] runs it
    over the [2 ^ k] ordinals from [lo] on. *)

Definition cycle_check (n : Z) : bool :=
  if (n <? 1) || (DI400Y <? n) then true else
  let d := ord2ymd n in
  (1 <=? year d) && (year d <=? 400)
  && (1 <=? month d) && (month d <=? 12)
  && (1 <=? day d) && (day d <=? days_in_month (year d) (month d))
  && (toordinal d =? n)
  && ((145731 <? n) || (year d <=? 399)).

Fixpoint check_range (k : nat) (lo : Z) : bool :=
  match k with
  | O => cycle_check lo
  | S k' => check_range k' lo && check_range k' (lo + 2 ^ Z.of_nat k')
  end.

(** ** The format, read as a description of texts

    What the directives of [DATE_FORMAT] accept when a text is parsed,
    written without reference to the matcher: [%d] is the day of the month in
    two digits, or a day below ten in one digit or after a blank; [%b] is the
    abbreviated month name in any letter case; [%Y] is the year in four
    digits.  The four digits of the year, and the second digit of a day from
    10 to 29, may be decimal digits of any script; the other digits, the
    letters and the hyphens are ASCII.  The three parts are joined by hyphens
    and denote a date that exists. *)

(** [t] is one character, a decimal digit of value [v]. *)
Definition decimal_char (t : pystr) (v : Z) : Prop :=
  exists cp, next_char t = Some (cp, t, "") /\ decimal_value cp = Some v.

Definition day_text (t : pystr) (n : Z) : Prop :=
  t = pad2 n
  \/ (n <= 9 /\ (t = String (digit_char n) ""
                 \/ t = String " " (String (digit_char n) "")))
  \/ (exists a u v,
        (a = 1 \/ a = 2) /\ decimal_char u v
        /\ t = String (digit_char a) u /\ n = 10 * a + v).

Definition month_text (t : pystr) (m : Z) : Prop :=
  lower t = nth (Z.to_nat m) a_month "".

Definition year_text (t : pystr) (y : Z) : Prop :=
  exists u1 u2 u3 u4 v1 v2 v3 v4,
    decimal_char u1 v1 /\ decimal_char u2 v2
    /\ decimal_char u3 v3 /\ decimal_char u4 v4
    /\ t = u1 ++ u2 ++ u3 ++ u4
    /\ y = 1000 * v1 + 100 * v2 + 10 * v3 + v4.

Definition matches_DATE_FORMAT (s : pystr) (d : datetime) : Prop :=
  valid d = true
  /\ exists dt mt yt,
       day_text dt (day d) /\ month_text mt (month d)
       /\ year_text yt (year d)
       /\ s = dt ++ "-" ++ mt ++ "-" ++ yt.

Definition range_error : Exn :=
  mkExn ValueError "start_date must be before end_date".

(** ** The meaning of a date-range criterion

    RFC 3501: [SINCE d] selects the messages whose internal date, disregarding
    time and timezone, is within or later than [d]; [BEFORE d] those whose
    date is earlier than [d]. *)

Definition in_queried_range (since before message_date : datetime) : Prop :=
  toordinal since <= toordinal message_date < toordinal before.

(** ** Example data *)

Definition w0 : World := mkWorld [] [].

(** U+0663, the Arabic-Indic digit three, in UTF-8. *)
Definition arabic_indic_three : pystr :=
  String (ascii_of_nat 217) (String (ascii_of_nat 163) "").

(** A library for ASCII data.  [decode_header] applied to [bytes] raises
    [TypeError] in CPython, its pattern being a [str] pattern. *)
Definition ascii_lib (parse : pybytes -> Message) : PyLib :=
  {| header_to_str := fun _ =>
       Raise (mkExn TypeError
                "cannot use a string pattern on a bytes-like object");
     utf8_replace := fun b => b;
     other_codecs := fun _ => None;
     utf8_strict := fun b => Ok b;
     message_from_bytes := parse |}.

Definition body_part : Message :=
  mkMessage "text" None None None None [].

Definition invoice_part : Message :=
  mkMessage "application" (Some "attachment; filename=invoice.pdf")
            (Some "invoice.pdf") None None [].

Definition invoice_message : Message :=
  mkMessage "multipart" None None (Some "Invoice for March")
            (Some "billing@example.com") [body_part; invoice_part].

Definition plain_message : Message :=
  mkMessage "text" None None (Some "Hello") (Some "friend@example.com") [].

Definition example_parse (b : pybytes) : Message :=
  if (b =? "invoice")%string then invoice_message else plain_message.

Definition example_lib : PyLib := ascii_lib example_parse.

(** A mailbox of three messages, of which the second cannot be fetched. *)
Definition example_session : Session :=
  fun h =>
    match last h Logout with
    | Login _ _ => Ok ("OK", [IBytes "LOGIN completed"])
    | Select _ => Ok ("OK", [IBytes "3"])
    | Search _ _ => Ok ("OK", [IBytes "1 2 3"])
    | Fetch id _ =>
        if (id =? "2")%string then Ok ("NO", [IBytes "no such message"])
        else Ok ("OK", [ITuple (id ++ " (RFC822 {7}") "invoice"; IBytes ")"])
    | Logout => Ok ("BYE", [IBytes "logging out"])
    end.

(** A server that refuses every search. *)
Definition refusing_session : Session :=
  fun h =>
    match last h Logout with
    | Search _ _ => Ok ("NO", [IBytes "search failed"])
    | _ => Ok ("OK", [IBytes ""])
    end.

(** A mailbox without messages. *)
Definition empty_session : Session :=
  fun h => Ok ("OK", [IBytes ""]).

(** A connection that has dropped: every command ends in [IMAP4.abort]
    ([logout] passes it on, since Python 3.8). *)
Definition dropped_session : Session :=
  fun h => Raise (mkExn IMAP4_abort "socket error: EOF").

(** A host name that does not resolve: the constructor raises
    [socket.gaierror], an [OSError]. *)
Definition unresolved_host (server : pystr) : result Session :=
  Raise (mkExn OSError "[Errno -2] Name or service not known").

(** A host that answers, with the example mailbox. *)
Definition example_host (server : pystr) : result Session :=
  Ok example_session.

(** ** The attachment filter, as the specification words it

    A part is recorded when it is not a multipart container, carries a
    content disposition, and has a file name that is present and ends with
    the extension; its record is the triple of the message's subject and
    sender and that file name. *)

Definition header_text (h : option pystr) : pystr :=
  match h with
  | Some s => s
  | None => ""
  end.

Definition is_matching_attachment (file_extension : pystr) (part : Message)
  : bool :=
  negb (get_content_maintype part =? "multipart")%string
  && match get_content_disposition part with
     | Some _ => true
     | None => false
     end
  && match get_filename part with
     | Some f => negb (f =? "")%string && endswith f file_extension
     | None => false
     end.

Definition part_record (subject from_ : pystr) (part : Message) : Triple :=
  (subject, from_, header_text (get_filename part)).

Definition message_records (file_extension : pystr) (m : Message)
  : list Triple :=
  map (part_record (header_text (get_subject m)) (header_text (get_from m)))
      (filter (is_matching_attachment file_extension) (walk m)).

Definition processing_line (email_id : pystr) : Level * pystr :=
  (INFO, "Processing email ID: " ++ email_id).

Definition fetch_failed_line (email_id : pystr) : Level * pystr :=
  (ERROR, "Failed to fetch email ID " ++ email_id ++ ".").

Definition completed_line (n : nat) : Level * pystr :=
  (INFO, "Completed processing emails. Found " ++ str_of_nat n
         ++ " attachments.").

Definition filename_of (t : Triple) : pystr := snd t.

(** A record whose file name is not empty and ends with the extension. *)
Definition good_filename (ext : pystr) (t : Triple) : Prop :=
  filename_of t <> ""
  /\ endswith (filename_of t) ext = true
  /\ exists p, filename_of t = p ++ ext.

(** The lines that scanning a message writes to the log. *)

Definition header_lines (h : option pystr) : list (Level * pystr) :=
  match h with
  | Some _ => []
  | None => [(WARNING, decode_warning)]
  end.

Definition part_lines (file_extension : pystr) (part : Message)
  : list (Level * pystr) :=
  if (get_content_maintype part =? "multipart")%string then []
  else match get_content_disposition part with
       | None => []
       | Some _ =>
           header_lines (get_filename part)
           ++ (if is_matching_attachment file_extension part
               then [(INFO, "Found attachment: "
                            ++ header_text (get_filename part))]
               else [])
       end.

Definition message_lines (file_extension : pystr) (m : Message)
  : list (Level * pystr) :=
  header_lines (get_subject m) ++ header_lines (get_from m)
  ++ flat_map (part_lines file_extension) (walk m).

(** ** The answers of the server along a batch

    [batch_answers L sess ext h ids recs]: after the commands [h], the
    fetches of [ids], sent one after the other, are each answered, either
    with a status other than [OK] or with [OK] and a message; [recs] lists,
    per identifier, the records of the message, and none for a refusal. *)

Definition fetch_call (email_id : pystr) : Call := Fetch email_id "(RFC822)".

Inductive batch_answers (L : PyLib) (sess : Session) (ext : pystr)
  : list Call -> list pystr -> list (list Triple) -> Prop :=
| answers_nil (h : list Call) : batch_answers L sess ext h [] []
| answers_refused (h : list Call) (email_id : pystr) (ids : list pystr)
    (typ : pystr) (data : list Item) (recs : list (list Triple)) :
    sess (h ++ [fetch_call email_id])%list = Ok (typ, data) ->
    typ <> "OK" ->
    batch_answers L sess ext (h ++ [fetch_call email_id])%list ids recs ->
    batch_answers L sess ext h (email_id :: ids) ([] :: recs)
| answers_fetched (h : list Call) (email_id : pystr) (ids : list pystr)
    (data : list Item) (m : Message) (recs : list (list Triple)) :
    sess (h ++ [fetch_call email_id])%list = Ok ("OK", data) ->
    fetched_message L data = Ok m ->
    batch_answers L sess ext (h ++ [fetch_call email_id])%list ids recs ->
    batch_answers L sess ext h (email_id :: ids)
      (message_records ext m :: recs).

(** * Further definitions

    ** Tokens and nesting *)

(** A text without ASCII whitespace. *)
Fixpoint no_space (t : pystr) : bool :=
  match t with
  | EmptyString => true
  | String c r => negb (is_space c) && no_space r
  end.

(** [part_of p m]: [p] is [m] or lies in its payload, at any depth. *)
Inductive part_of : Message -> Message -> Prop :=
| part_self (m : Message) : part_of m m
| part_nested (p c m : Message) :
    In c (get_payload m) -> part_of p c -> part_of p m.

(** The records of a list kept by a longer extension. *)
Definition ends_with (ext : pystr) (t : Triple) : bool :=
  endswith (filename_of t) ext.

(** ** Further example data *)

(** A mailbox whose second message has been expunged: its fetch is answered
    [OK] without the message, as [imaplib] reports it. *)
Definition vanished_session : Session :=
  fun h =>
    match last h Logout with
    | Fetch id _ =>
        if (id =? "2")%string then Ok ("OK", [INone])
        else Ok ("OK", [ITuple (id ++ " (RFC822 {7}") "invoice"; IBytes ")"])
    | _ => Ok ("OK", [IBytes "1 2 3"])
    end.

(** A forwarded message: the invoice sits two containers deep. *)
Definition forwarded_message : Message :=
  mkMessage "multipart" None None (Some "Fwd: your invoice")
            (Some "alice@example.com")
            [body_part;
             mkMessage "multipart" None None (Some "Invoice for March")
                       (Some "billing@example.com")
                       [body_part; invoice_part]].

Definition forwarded_lib : PyLib := ascii_lib (fun _ => forwarded_message).

(** ** list_mailboxes (search_emails.py) *)

(** [s.split(sep)] for a separator that is not empty: the pieces between the
    occurrences of [sep], found from the left and not overlapping.  [skip]
    counts the characters of an occurrence still to pass over, [cur] is the
    piece being read. *)
Fixpoint split_sep (sep : pystr) (skip : nat) (cur : pystr) (s : pystr)
  : list pystr :=
  match s with
  | EmptyString => [cur]
  | String c r =>
      match skip with
      | S k => split_sep sep k cur r
      | O =>
          if prefix sep s
          then cur :: split_sep sep (String.length sep - 1) "" r
          else split_sep sep 0 (cur ++ String c "") r
      end
  end.

Definition str_split (s sep : pystr) : list pystr := split_sep sep 0 "" s.

(** [l[1]] *)
Definition getitem1 {A : Type} (l : list A) : result A :=
  match l with
  | _ :: x :: _ => Ok x
  | _ => Raise (mkExn IndexError "list index out of range")
  end.

(** [x.decode()] for an element of the data of a reply. *)
Definition item_decode (L : PyLib) (x : Item) : result pystr :=
  match x with
  | IBytes b => utf8_strict L b
  | INone =>
      Raise (mkExn AttributeError "'NoneType' object has no attribute 'decode'")
  | ITuple _ _ =>
      Raise (mkExn AttributeError "'tuple' object has no attribute 'decode'")
  end.

(** The separator [' "/" '] that the function splits a line of the listing
    at. *)
Definition list_separator : pystr :=
  " " ++ dquote ++ "/" ++ dquote ++ " ".

(** What [list_mailboxes] uses besides the commands above: the [list()]
    method of the session, which sends [LIST] and whose answer may depend on
    the commands sent so far, and [str(make_header(decode_header(s)))] on a
    [str].  The [calls] of a [World] record the commands [Call] names, and
    [LIST] is not one of them: that the [calls] are the same after a run
    says that none of those was sent, not that no [LIST] was. *)
Record Lister : Type := mkLister {
  list_answer : list Call -> result Reply;
  header_of_str : pystr -> result pystr
}.

Definition imap_list (E : Lister) : M Reply :=
  fun w => (list_answer E (calls w), w).

(** The loop over the lines of the listing. *)
Fixpoint log_mailboxes (L : PyLib) (E : Lister) (mailboxes : list Item)
  : M unit :=
  match mailboxes with
  | [] => ret tt
  | mailbox :: rest =>
      text <- lift (item_decode L mailbox) ;;
      field <- lift (getitem1 (str_split text list_separator)) ;;
      mailbox_name <- lift (header_of_str E field) ;;
      logging INFO ("- " ++ mailbox_name) ;;;
      log_mailboxes L E rest
  end.

Definition list_mailboxes (L : PyLib) (E : Lister) : M unit :=
  '(typ, mailboxes) <- imap_list E ;;
  if (typ =? "OK")%string then
    logging INFO "Mailboxes available:" ;;;
    log_mailboxes L E mailboxes
  else logging ERROR "Failed to list mailboxes.".

(** [contains sep s]: [sep] occurs in [s]. *)
Fixpoint contains (sep s : pystr) : bool :=
  prefix sep s
  || match s with
     | EmptyString => false
     | String _ r => contains sep r
     end.

(** A text without a double quote. *)
Fixpoint no_dquote (t : pystr) : bool :=
  match t with
  | EmptyString => true
  | String c r => negb (c =? ascii_of_nat 34)%char && no_dquote r
  end.

(** [listed L E items names]: every item of the listing is a line of bytes
    that decodes to attributes without a double quote, the separator, and a
    name in which the separator does not occur; [names] are the names as
    the header decoder shows them. *)
Inductive listed (L : PyLib) (E : Lister) : list Item -> list pystr -> Prop :=
| listed_nil : listed L E [] []
| listed_cons (b : pybytes) (attributes name shown : pystr)
    (items : list Item) (names : list pystr) :
    utf8_strict L b = Ok (attributes ++ list_separator ++ name) ->
    no_dquote attributes = true ->
    contains list_separator name = false ->
    header_of_str E name = Ok shown ->
    listed L E items names ->
    listed L E (IBytes b :: items) (shown :: names).

Definition mailbox_line (shown : pystr) : Level * pystr :=
  (INFO, "- " ++ shown).

(** Two listings, as servers send them: one with the hierarchy delimiter
    [/], one with the delimiter [.]. *)
Definition quoted (s : pystr) : pystr := dquote ++ s ++ dquote.

Definition slash_lister : Lister :=
  {| list_answer := fun _ =>
       Ok ("OK",
           [IBytes ("(\HasNoChildren)" ++ list_separator ++ quoted "INBOX");
            IBytes ("(\HasNoChildren \Sent)" ++ list_separator
                    ++ quoted "[Gmail]/Sent Mail")]);
     header_of_str := fun s => Ok s |}.

Definition dot_lister : Lister :=
  {| list_answer := fun _ =>
       Ok ("OK",
           [IBytes ("(\HasNoChildren) " ++ quoted "." ++ " "
                    ++ quoted "INBOX")]);
     header_of_str := fun s => Ok s |}.

(** ** main.py *)

(** [try: body except C1: h1 except C2: h2 ...]: the first clause whose
    classes contain the exception handles it. *)
Definition try_excepts {A} (body : M A)
    (clauses : list ((ExnClass -> bool) * (Exn -> M A))) : M A :=
  fun w =>
    match body w with
    | (Raise e, w') =>
        match find (fun cl => fst cl (exn_class e)) clauses with
        | Some cl => snd cl e w'
        | None => (Raise e, w')
        end
    | ok => ok
    end.

(** [try: body finally: final]: [final] runs however [body] ends; what it
    raises replaces the outcome of [body]. *)
Definition try_finally {A} (body : M A) (final : M unit) : M A :=
  fun w =>
    match body w with
    | (r, w') =>
        match final w' with
        | (Ok _, w'') => (r, w'')
        | (Raise e, w'') => (Raise e, w'')
        end
    end.

Definition MAILBOX : pystr := "INBOX".
Definition START_DATE : pystr := "01-Mar-2024".
Definition END_DATE : pystr := "04-Mar-2024".
Definition FILE_EXTENSION : pystr := ".pdf".

Definition attachment_message (t : Triple) : pystr :=
  let '(subject, from_, file_name) := t in
  "Found attachment: " ++ file_name ++ ", From: " ++ from_
  ++ ", Subject: " ++ dquote ++ subject ++ dquote.

(** The closing loop of [main]. *)
Fixpoint log_attachments (attachments_info : list Triple) : M unit :=
  match attachments_info with
  | [] => ret tt
  | t :: rest =>
      logging INFO (attachment_message t) ;;;
      log_attachments rest
  end.

Definition attachment_line (t : Triple) : Level * pystr :=
  (INFO, attachment_message t).

(** The statements of the [try] block that follow the call of
    [connect_to_imap_server], [imap_session] being what it returned. *)
Definition main_after_connect (L : PyLib) (E : Lister)
    (imap_session : option Session) : M unit :=
  match imap_session with
  | None => logging ERROR "Failed to connect to IMAP server."
  | Some sess =>
      logging INFO "Listing all available mailboxes:" ;;;
      list_mailboxes L E ;;;
      email_ids <- search_emails L sess MAILBOX START_DATE END_DATE ;;
      match email_ids with
      | [] => logging INFO "No emails found in the specified date range."
      | _ =>
          attachments_info <-
            get_attachments_info L sess email_ids FILE_EXTENSION ;;
          match attachments_info with
          | [] =>
              logging INFO
                "No attachments found matching the specified file extension."
          | _ => log_attachments attachments_info
          end
      end
  end.

(** [USERNAME], [PASSWORD] and [IMAP_SERVER] come from the environment when
    the module is loaded.  The variable [imap_session] is [None] until
    [connect_to_imap_server] has returned, and then what it returned. *)
Definition main (IMAP4_SSL : pystr -> result Session)
    (IMAP_SERVER USERNAME PASSWORD : pystr) (L : PyLib) (E : Lister)
  : M unit :=
  fun w =>
    let '(connected, w1) :=
      connect_to_imap_server IMAP4_SSL IMAP_SERVER USERNAME PASSWORD w in
    let imap_session :=
      match connected with
      | Ok s => s
      | Raise _ => None
      end in
    try_finally
      (try_excepts
         (match connected with
          | Raise e => lift (Raise e)
          | Ok s => main_after_connect L E s
          end)
         [(is_IMAP4_error,
           fun e => logging ERROR ("IMAP error occurred: " ++ exn_msg e));
          (any_Exception,
           fun e => logging ERROR ("An unexpected error occurred: "
                                   ++ exn_msg e))])
      (match imap_session with
       | Some _ => close_imap_session imap_session
       | None => ret tt
       end)
      w1.

Definition is_logout (c : Call) : bool :=
  match c with
  | Logout => true
  | _ => false
  end.

(** Commands among which there is no [LOGOUT]. *)
Definition no_logout (cs : list Call) : Prop :=
  forallb (fun c => negb (is_logout c)) cs = true.

(** The world after [LOGOUT] was sent, and what [main] then returns. *)
Definition logged_out (w : World) : World :=
  mkWorld (calls w ++ [Logout]) (logs w).

Definition logout_outcome (sess : Session) (w : World) : result unit :=
  match sess (calls w ++ [Logout])%list with
  | Ok _ => Ok tt
  | Raise ex => Raise ex
  end.

(** The line that [main] logs for an exception it catches. *)
Definition caught_line (e : Exn) : Level * pystr :=
  (ERROR, (if is_IMAP4_error (exn_class e) then "IMAP error occurred: "
           else "An unexpected error occurred: ") ++ exn_msg e).

Definition main_query : pystr := search_criterion "01-Mar-2024" "05-Mar-2024".

(** * Properties *)

(** ** The calendar *)

Ltac month_cases m :=
  let H := fresh "Hm" in
  assert (H : m = 1 \/ m = 2 \/ m = 3 \/ m = 4 \/ m = 5 \/ m = 6 \/ m = 7
              \/ m = 8 \/ m = 9 \/ m = 10 \/ m = 11 \/ m = 12) by lia;
  repeat (destruct H as [H | H]; [subst m | ]); [ .. | subst m].

Ltac eval_tables :=
  repeat match goal with
    | |- context [index ?t ?k] =>
        let v := eval vm_compute in (index t k) in
        change (index t k) with v
    end.

Ltac unbool :=
  repeat match goal with
    | H : (_ && _)%bool = true |- _ => apply andb_prop in H; destruct H
    | H : (_ <=? _) = true |- _ => apply Z.leb_le in H
    | H : (_ <? _) = true |- _ => apply Z.ltb_lt in H
    | H : (_ <? _) = false |- _ => apply Z.ltb_ge in H
    | H : (_ <=? _) = false |- _ => apply Z.leb_gt in H
    | H : (_ =? _) = true |- _ => apply Z.eqb_eq in H
    | H : (_ =? _) = false |- _ => apply Z.eqb_neq in H
    end.

Lemma valid_inv d :
  valid d = true ->
  1 <= year d <= 9999 /\ 1 <= month d <= 12
  /\ 1 <= day d <= days_in_month (year d) (month d).
Proof.
  unfold valid, MINYEAR, MAXYEAR. intros H. unbool. lia.
Qed.

Lemma valid_intro y m d :
  1 <= y <= 9999 -> 1 <= m <= 12 -> 1 <= d <= days_in_month y m ->
  valid (mkdate y m d) = true.
Proof.
  intros Hy Hm Hd. unfold valid, MINYEAR, MAXYEAR. cbn [year month day].
  repeat (apply andb_true_intro; split); try apply Z.leb_le; lia.
Qed.

Lemma days_before_year_succ y :
  days_before_year (y + 1)
  = days_before_year y + 365 + (if is_leap y then 1 else 0).
Proof.
  unfold days_before_year, is_leap.
  replace (y + 1 - 1) with y by lia.
  destruct (y mod 4 =? 0) eqn:E4; destruct (y mod 100 =? 0) eqn:E100;
    destruct (y mod 400 =? 0) eqn:E400; cbn [andb orb negb]; unbool;
    Z.div_mod_to_equations; lia.
Qed.

Lemma days_before_year_mono y y' :
  y <= y' -> days_before_year y <= days_before_year y'.
Proof.
  unfold days_before_year. intros H. Z.div_mod_to_equations. lia.
Qed.

Lemma days_before_month_succ y m :
  1 <= m < 12 ->
  days_before_month y (m + 1) = days_before_month y m + days_in_month y m.
Proof.
  intros H. unfold days_before_month, days_in_month.
  month_cases m; try lia; destruct (is_leap y); eval_tables; reflexivity.
Qed.

Lemma days_in_month_pos y m : 1 <= m <= 12 -> 28 <= days_in_month y m <= 31.
Proof.
  intros H. unfold days_in_month.
  month_cases m; destruct (is_leap y); eval_tables; cbn; lia.
Qed.

Lemma days_before_month_mono y m m' :
  1 <= m -> m < m' -> m' <= 12 ->
  days_before_month y m + days_in_month y m <= days_before_month y m'.
Proof.
  intros H1 H2 H3. unfold days_before_month, days_in_month.
  month_cases m; month_cases m'; try lia; destruct (is_leap y); eval_tables; cbn; lia.
Qed.

Lemma days_in_year y m :
  1 <= m <= 12 ->
  days_before_month y m + days_in_month y m
  <= 365 + (if is_leap y then 1 else 0).
Proof.
  intros H. unfold days_before_month, days_in_month.
  month_cases m; destruct (is_leap y); eval_tables; cbn; lia.
Qed.

Lemma days_before_month_nonneg y m : 1 <= m <= 12 -> 0 <= days_before_month y m.
Proof.
  intros H. unfold days_before_month.
  month_cases m; destruct (is_leap y); eval_tables; cbn; lia.
Qed.

Lemma toordinal_bounds d :
  valid d = true -> 1 <= toordinal d <= MAXORDINAL.
Proof.
  intros H. apply valid_inv in H. destruct H as (Hy & Hm & Hd).
  unfold toordinal, ymd2ord, MAXORDINAL.
  pose proof (days_before_month_nonneg (year d) (month d) Hm).
  pose proof (days_in_year (year d) (month d) Hm).
  pose proof (days_before_year_mono 1 (year d) ltac:(lia)).
  pose proof (days_before_year_mono (year d + 1) 10000 ltac:(lia)).
  rewrite days_before_year_succ in *.
  change (days_before_year 1) with 0 in *.
  change (days_before_year 10000) with 3652059 in *.
  lia.
Qed.

(** Tuple order on valid dates is the order of their ordinals. *)
Lemma cmp_toordinal a b :
  valid a = true -> valid b = true ->
  cmp a b = (toordinal a ?= toordinal b).
Proof.
  intros Ha Hb.
  apply valid_inv in Ha. destruct Ha as (Hya & Hma & Hda).
  apply valid_inv in Hb. destruct Hb as (Hyb & Hmb & Hdb).
  unfold cmp, toordinal, ymd2ord.
  pose proof (days_before_month_nonneg (year a) (month a) Hma).
  pose proof (days_before_month_nonneg (year b) (month b) Hmb).
  pose proof (days_in_year (year a) (month a) Hma).
  pose proof (days_in_year (year b) (month b) Hmb).
  destruct (Z.compare_spec (year a) (year b)) as [Ey | Ly | Ly].
  - rewrite Ey in *.
    destruct (Z.compare_spec (month a) (month b)) as [Em | Lm | Lm].
    + rewrite Em. destruct (Z.compare_spec (day a) (day b));
        symmetry; [apply Z.compare_eq_iff | apply Z.compare_lt_iff
                  | apply Z.compare_gt_iff]; lia.
    + pose proof (days_before_month_mono (year b) (month a) (month b)
                    ltac:(lia) Lm ltac:(lia)).
      symmetry; apply Z.compare_lt_iff; lia.
    + pose proof (days_before_month_mono (year b) (month b) (month a)
                    ltac:(lia) Lm ltac:(lia)).
      symmetry; apply Z.compare_gt_iff; lia.
  - pose proof (days_before_year_mono (year a + 1) (year b) ltac:(lia)).
    rewrite days_before_year_succ in *.
    symmetry; apply Z.compare_lt_iff; lia.
  - pose proof (days_before_year_mono (year b + 1) (year a) ltac:(lia)).
    rewrite days_before_year_succ in *.
    symmetry; apply Z.compare_gt_iff; lia.
Qed.

Lemma lt_toordinal a b :
  valid a = true -> valid b = true ->
  (lt a b = true <-> toordinal a < toordinal b).
Proof.
  intros Ha Hb. unfold lt. rewrite (cmp_toordinal a b Ha Hb).
  destruct (Z.compare_spec (toordinal a) (toordinal b));
    split; intros; try lia; try discriminate; reflexivity.
Qed.

Lemma ge_toordinal a b :
  valid a = true -> valid b = true ->
  (ge a b = true <-> toordinal b <= toordinal a).
Proof.
  intros Ha Hb. unfold ge. rewrite (cmp_toordinal a b Ha Hb).
  destruct (Z.compare_spec (toordinal a) (toordinal b));
    split; intros; try lia; try discriminate; reflexivity.
Qed.

Lemma ge_negb_lt a b : ge a b = negb (lt a b).
Proof. unfold ge, lt. destruct (cmp a b); reflexivity. Qed.

Lemma toordinal_inj a b :
  valid a = true -> valid b = true -> toordinal a = toordinal b -> a = b.
Proof.
  intros Ha Hb E.
  pose proof (cmp_toordinal a b Ha Hb) as C.
  rewrite E, Z.compare_refl in C. unfold cmp in C.
  destruct a as [ya ma da], b as [yb mb db]. cbn [year month day] in C.
  destruct (Z.compare_spec ya yb); try discriminate.
  destruct (Z.compare_spec ma mb); try discriminate.
  apply Z.compare_eq in C. congruence.
Qed.

(** *** Ordinals back to dates *)

Lemma check_range_spec k : forall lo i,
  check_range k lo = true -> lo <= i < lo + 2 ^ Z.of_nat k ->
  cycle_check i = true.
Proof.
  induction k as [| k IH]; intros lo i H Hi.
  - cbn in Hi. assert (i = lo) by lia. subst i. exact H.
  - cbn [check_range] in H. apply andb_prop in H. destruct H as [H0 H1].
    rewrite Nat2Z.inj_succ, Z.pow_succ_r in Hi by lia.
    destruct (Z_lt_le_dec i (lo + 2 ^ Z.of_nat k)).
    + apply (IH lo); [assumption | lia].
    + apply (IH (lo + 2 ^ Z.of_nat k)); [assumption | lia].
Qed.

Lemma first_cycle_checked : check_range 18 1 = true.
Proof. vm_cast_no_check (eq_refl true). Qed.

Lemma cycle_check_ok n :
  1 <= n <= DI400Y ->
  let d := ord2ymd n in
  (1 <= year d <= 400) /\ (1 <= month d <= 12)
  /\ (1 <= day d <= days_in_month (year d) (month d))
  /\ toordinal d = n
  /\ (n <= 145731 -> year d <= 399).
Proof.
  intros H d.
  assert (C : cycle_check n = true).
  { apply (check_range_spec 18 1 n first_cycle_checked).
    change (2 ^ Z.of_nat 18) with 262144. unfold DI400Y in H. lia. }
  unfold cycle_check in C. fold d in C.
  destruct (n <? 1) eqn:E1; [unbool; lia |].
  destruct (DI400Y <? n) eqn:E2; [unbool; lia |].
  cbn [orb] in C. cbv zeta in C.
  repeat match type of C with
    | (_ && _)%bool = true => apply andb_prop in C; destruct C as [C ?]
    end.
  match goal with
  | H : (_ || _)%bool = true |- _ => apply orb_prop in H; rename H into Hlast
  end.
  unbool. repeat split; lia.
Qed.

Lemma is_leap_period y k : is_leap (y + 400 * k) = is_leap y.
Proof.
  unfold is_leap.
  assert (E4 : (y + 400 * k) mod 4 = y mod 4)
    by (Z.div_mod_to_equations; lia).
  assert (E100 : (y + 400 * k) mod 100 = y mod 100)
    by (Z.div_mod_to_equations; lia).
  assert (E400 : (y + 400 * k) mod 400 = y mod 400)
    by (Z.div_mod_to_equations; lia).
  rewrite E4, E100, E400. reflexivity.
Qed.

Lemma days_before_year_period y k :
  days_before_year (y + 400 * k) = days_before_year y + DI400Y * k.
Proof.
  unfold days_before_year, DI400Y. Z.div_mod_to_equations. lia.
Qed.

Lemma days_in_month_period y k m :
  days_in_month (y + 400 * k) m = days_in_month y m.
Proof. unfold days_in_month. rewrite is_leap_period. reflexivity. Qed.

Lemma ymd2ord_period y k m d :
  ymd2ord (y + 400 * k) m d = ymd2ord y m d + DI400Y * k.
Proof.
  unfold ymd2ord, days_before_month.
  rewrite days_before_year_period, is_leap_period. lia.
Qed.

Lemma ord2ymd_period n k :
  ord2ymd (n + DI400Y * k)
  = mkdate (year (ord2ymd n) + 400 * k) (month (ord2ymd n)) (day (ord2ymd n)).
Proof.
  unfold ord2ymd.
  replace (n + DI400Y * k - 1) with (n - 1 + k * DI400Y) by lia.
  rewrite Z.div_add, Z.mod_add by (unfold DI400Y; lia).
  set (r := (n - 1) mod DI400Y). set (q := (n - 1) / DI400Y).
  cbv zeta.
  destruct ((r mod DI100Y mod DI4Y / 365 =? 4) || (r / DI100Y =? 4));
    [cbn [year month day]; f_equal; lia |].
  match goal with
  | |- context [if ?c then mkdate _ _ _ else mkdate _ _ _] => destruct c
  end; cbn [year month day]; f_equal; lia.
Qed.

Lemma ord2ymd_shifted n k :
  1 <= n <= DI400Y -> 0 <= k -> n + DI400Y * k <= MAXORDINAL ->
  valid (ord2ymd (n + DI400Y * k)) = true
  /\ toordinal (ord2ymd (n + DI400Y * k)) = n + DI400Y * k.
Proof.
  intros Hn Hk Hmax.
  destruct (cycle_check_ok n Hn) as (Cy & Cm & Cd & Co & Cl).
  rewrite ord2ymd_period.
  generalize dependent (ord2ymd n). intros [y m d].
  unfold toordinal. cbn [year month day]. intros Cy Cm Cd Co Cl.
  split.
  - apply valid_intro.
    + assert (y + 400 * k <= 9999).
      { unfold MAXORDINAL, DI400Y in *.
        destruct (Z_le_gt_dec n 145731) as [Hl | Hl];
          [specialize (Cl Hl) |]; lia. }
      lia.
    + lia.
    + rewrite days_in_month_period. lia.
  - rewrite ymd2ord_period. lia.
Qed.

(** [date.fromordinal] inverts [toordinal] on the whole range of ordinals. *)
Lemma ord2ymd_valid_toordinal n :
  1 <= n <= MAXORDINAL ->
  valid (ord2ymd n) = true /\ toordinal (ord2ymd n) = n.
Proof.
  unfold MAXORDINAL. intros Hn.
  assert (En : n = ((n - 1) mod 146097 + 1) + DI400Y * ((n - 1) / 146097))
    by (unfold DI400Y; Z.div_mod_to_equations; lia).
  rewrite En. apply ord2ymd_shifted; rewrite <- ?En;
    unfold DI400Y, MAXORDINAL; Z.div_mod_to_equations; lia.
Qed.

Lemma ord2ymd_toordinal d : valid d = true -> ord2ymd (toordinal d) = d.
Proof.
  intros H. pose proof (toordinal_bounds d H) as B.
  destruct (ord2ymd_valid_toordinal _ B) as [V E].
  apply toordinal_inj; assumption.
Qed.

(** *** One day later *)

Lemma next_day_valid d :
  valid d = true -> d <> max_date -> valid (next_day d) = true.
Proof.
  intros H Hmax. apply valid_inv in H. destruct H as (Hy & Hm & Hd).
  unfold next_day.
  destruct (day d <? days_in_month (year d) (month d)) eqn:E1; unbool.
  - apply valid_intro; lia.
  - destruct (month d <? 12) eqn:E2; unbool.
    + apply valid_intro; try lia.
      pose proof (days_in_month_pos (year d) (month d + 1)). lia.
    + assert (Em : month d = 12) by lia.
      assert (Ed : day d = 31).
      { rewrite Em in *. change (days_in_month (year d) 12) with 31 in *.
        lia. }
      assert (year d <> 9999).
      { intros Ey. apply Hmax. destruct d; cbn in *. unfold max_date.
        congruence. }
      apply valid_intro; try lia.
      pose proof (days_in_month_pos (year d + 1) 1). lia.
Qed.

Lemma next_day_toordinal d :
  valid d = true -> toordinal (next_day d) = toordinal d + 1.
Proof.
  intros H. apply valid_inv in H. destruct H as (Hy & Hm & Hd).
  unfold next_day, toordinal.
  destruct (day d <? days_in_month (year d) (month d)) eqn:E1; unbool;
    cbn [year month day]; unfold ymd2ord.
  - lia.
  - destruct (month d <? 12) eqn:E2; unbool; cbn [year month day].
    + rewrite days_before_month_succ by lia. lia.
    + assert (Em : month d = 12) by lia. rewrite Em in *.
      rewrite days_before_year_succ.
      change (days_in_month (year d) 12) with 31 in *.
      change (days_before_month (year d + 1) 1) with (0 + 0).
      unfold days_before_month.
      change (index DAYS_BEFORE_MONTH 12) with 334.
      destruct (is_leap (year d)); cbn [andb Z.ltb Z.compare Pos.compare
                                          Pos.compare_cont]; lia.
Qed.

(** Adding [timedelta(days=1)] is the calendar successor, except on the last
    representable day, where it overflows. *)
Lemma add_days_1 d :
  valid d = true -> d <> max_date -> add_days d 1 = Ok (next_day d).
Proof.
  intros H Hmax. unfold add_days.
  pose proof (next_day_valid d H Hmax) as V.
  pose proof (toordinal_bounds _ V) as B.
  rewrite <- (next_day_toordinal d H).
  replace ((0 <? toordinal (next_day d))
           && (toordinal (next_day d) <=? MAXORDINAL)) with true.
  - rewrite ord2ymd_toordinal by assumption. reflexivity.
  - symmetry. apply andb_true_intro. split;
      [apply Z.ltb_lt | apply Z.leb_le]; lia.
Qed.

Lemma add_days_1_max :
  add_days max_date 1
  = Raise (mkExn OverflowError "date value out of range").
Proof. reflexivity. Qed.

(** ** Text of dates *)

Lemma append_empty_r (s : string) : s ++ "" = s.
Proof. induction s as [| c s IH]; cbn; [reflexivity | now rewrite IH]. Qed.

Lemma append_assoc_str (a b c : string) : (a ++ b) ++ c = a ++ b ++ c.
Proof. induction a as [| x a IH]; cbn; [reflexivity | now rewrite IH]. Qed.

Lemma length_append (p s : string) :
  String.length (p ++ s) = (String.length p + String.length s)%nat.
Proof. induction p as [| c p IH]; cbn; [reflexivity | now rewrite IH]. Qed.

Ltac digit_cases q :=
  let H := fresh "Hq" in
  assert (H : q = 0 \/ q = 1 \/ q = 2 \/ q = 3 \/ q = 4 \/ q = 5 \/ q = 6
              \/ q = 7 \/ q = 8 \/ q = 9) by lia;
  repeat (destruct H as [H | H]; [subst q | ]); [ .. | subst q].

(** *** Characters *)

(** The character that [next_char] reads is a prefix of the text, and a text
    by itself. *)
Lemma next_char_inv s cp t r :
  next_char s = Some (cp, t, r) ->
  s = t ++ r /\ next_char t = Some (cp, t, "").
Proof.
  intros H. unfold next_char in H. destruct s as [| a s]; [discriminate |].
  cbv zeta in H.
  destruct (N_of_ascii a <? 128)%N eqn:E1.
  { injection H as <- <- <-. split; [reflexivity |].
    unfold next_char. rewrite E1. reflexivity. }
  destruct (N_of_ascii a <? 194)%N eqn:E2; [discriminate |].
  destruct (N_of_ascii a <? 224)%N eqn:E3.
  { destruct s as [| b r1]; [discriminate |].
    destruct (is_cont b) eqn:Cb; [| discriminate].
    injection H as <- <- <-. split; [reflexivity |].
    unfold next_char. rewrite E1, E2, E3, Cb. reflexivity. }
  destruct (N_of_ascii a <? 240)%N eqn:E4.
  { destruct s as [| b [| c r2]]; try discriminate.
    match type of H with
    | (if ?c then _ else _) = _ => destruct c eqn:C; [| discriminate]
    end.
    injection H as <- <- <-. split; [reflexivity |].
    unfold next_char. cbv zeta. rewrite E1, E2, E3, E4, C. reflexivity. }
  destruct (N_of_ascii a <? 245)%N eqn:E5; [| discriminate].
  destruct s as [| b [| c [| d r3]]]; try discriminate.
  match type of H with
  | (if ?c then _ else _) = _ => destruct c eqn:C; [| discriminate]
  end.
  injection H as <- <- <-. split; [reflexivity |].
  unfold next_char. cbv zeta. rewrite E1, E2, E3, E4, E5, C. reflexivity.
Qed.

Lemma next_char_app t cp r :
  next_char t = Some (cp, t, "") -> next_char (t ++ r) = Some (cp, t, r).
Proof.
  intros H. unfold next_char in H. destruct t as [| a t]; [discriminate |].
  cbv zeta in H.
  destruct (N_of_ascii a <? 128)%N eqn:E1.
  { injection H as <- <-. cbn [append]. unfold next_char. rewrite E1.
    reflexivity. }
  destruct (N_of_ascii a <? 194)%N eqn:E2; [discriminate |].
  destruct (N_of_ascii a <? 224)%N eqn:E3.
  { destruct t as [| b r1]; [discriminate |].
    destruct (is_cont b) eqn:Cb; [| discriminate].
    injection H as <- <-. cbn [append]. unfold next_char.
    rewrite E1, E2, E3, Cb. reflexivity. }
  destruct (N_of_ascii a <? 240)%N eqn:E4.
  { destruct t as [| b [| c r2]]; try discriminate.
    match type of H with
    | (if ?c then _ else _) = _ => destruct c eqn:C; [| discriminate]
    end.
    injection H as <- <-. cbn [append]. unfold next_char. cbv zeta.
    rewrite E1, E2, E3, E4, C. reflexivity. }
  destruct (N_of_ascii a <? 245)%N eqn:E5; [| discriminate].
  destruct t as [| b [| c [| d r3]]]; try discriminate.
  match type of H with
  | (if ?c then _ else _) = _ => destruct c eqn:C; [| discriminate]
  end.
  injection H as <- <-. cbn [append]. unfold next_char. cbv zeta.
  rewrite E1, E2, E3, E4, E5, C. reflexivity.
Qed.

Lemma next_char_shorter s cp t r :
  next_char s = Some (cp, t, r) -> (String.length r < String.length s)%nat.
Proof.
  intros H. destruct (next_char_inv _ _ _ _ H) as [-> H'].
  rewrite length_append. destruct t as [| a t]; [discriminate H' |].
  cbn [String.length]. lia.
Qed.

Lemma chars_upto_fuel f1 : forall f2 s,
  (String.length s <= f1)%nat -> (String.length s <= f2)%nat ->
  chars_upto f1 s = chars_upto f2 s.
Proof.
  induction f1 as [| f1 IH]; intros f2 s H1 H2.
  - destruct s; [| cbn in H1; lia]. destruct f2; reflexivity.
  - destruct f2 as [| f2].
    + destruct s; [reflexivity | cbn in H2; lia].
    + cbn [chars_upto].
      destruct (next_char s) as [[[cp t] r] |] eqn:E; [| reflexivity].
      apply next_char_shorter in E. f_equal. apply IH; lia.
Qed.

Lemma chars_app t cp r :
  next_char t = Some (cp, t, "") -> chars (t ++ r) = cp :: chars r.
Proof.
  intros H. pose proof (next_char_app _ _ r H) as E.
  pose proof (next_char_shorter _ _ _ _ E) as Hlen.
  unfold chars at 1. destruct (String.length (t ++ r)) as [| n] eqn:Len;
    [lia |].
  cbn [chars_upto]. rewrite E. f_equal.
  apply chars_upto_fuel; lia.
Qed.

(** *** Decimal digits *)

Lemma decimal_value_bounds cp v : decimal_value cp = Some v -> 0 <= v <= 9.
Proof.
  unfold decimal_value.
  destruct (find _ decimal_zeros) as [z |] eqn:F; [| discriminate].
  intros [= <-]. apply find_some in F. destruct F as [_ F].
  apply andb_prop in F. destruct F as [F1 F2].
  apply N.leb_le in F1. apply N.ltb_lt in F2. lia.
Qed.

Lemma decimal_char_bounds u v : decimal_char u v -> 0 <= v <= 9.
Proof. intros (cp & _ & H). exact (decimal_value_bounds _ _ H). Qed.

Lemma decimal_char_digit q :
  0 <= q <= 9 -> decimal_char (String (digit_char q) "") q.
Proof.
  intros H. exists (Z.to_N (48 + q)).
  digit_cases q; split; vm_compute; reflexivity.
Qed.

Lemma int_step_digit acc cp v :
  decimal_value cp = Some v -> int_step acc cp = acc * 10 + v.
Proof.
  intros H. unfold int_step. destruct (cp =? 32)%N eqn:E.
  - apply N.eqb_eq in E. subst cp. vm_compute in H. discriminate H.
  - rewrite H. reflexivity.
Qed.

(** [int] reads a text digit by digit. *)
Lemma int_digits_app u v r acc :
  decimal_char u v ->
  fold_left int_step (chars (u ++ r)) acc
  = fold_left int_step (chars r) (acc * 10 + v).
Proof.
  intros (cp & Hc & Hv). rewrite (chars_app _ _ r Hc). cbn [fold_left].
  rewrite (int_step_digit _ _ _ Hv). reflexivity.
Qed.

Lemma py_int_one u v : decimal_char u v -> py_int u = v.
Proof.
  intros H. unfold py_int. rewrite <- (append_empty_r u).
  rewrite (int_digits_app _ _ _ _ H). reflexivity.
Qed.

Lemma py_int_two a u v :
  0 <= a <= 9 -> decimal_char u v ->
  py_int (String (digit_char a) u) = 10 * a + v.
Proof.
  intros Ha H. unfold py_int.
  change (String (digit_char a) u) with (String (digit_char a) "" ++ u).
  rewrite (int_digits_app _ _ _ _ (decimal_char_digit a Ha)).
  rewrite <- (append_empty_r u).
  rewrite (int_digits_app _ _ _ _ H). cbn [chars chars_upto fold_left].
  change (chars "") with (@nil N). cbn [fold_left]. lia.
Qed.

Lemma py_int_digit q : 0 <= q <= 9 -> py_int (String (digit_char q) "") = q.
Proof. intros H. apply py_int_one. apply decimal_char_digit. exact H. Qed.

Lemma py_int_blank_digit q :
  0 <= q <= 9 -> py_int (String " " (String (digit_char q) "")) = q.
Proof. intros H. digit_cases q; vm_compute; reflexivity. Qed.

Lemma py_int_two_digits q1 q2 :
  0 <= q1 <= 9 -> 0 <= q2 <= 9 ->
  py_int (String (digit_char q1) (String (digit_char q2) "")) = 10 * q1 + q2.
Proof.
  intros H1 H2. apply py_int_two; [exact H1 |].
  apply decimal_char_digit. exact H2.
Qed.

Lemma py_int_year t y : year_text t y -> py_int t = y.
Proof.
  intros (u1 & u2 & u3 & u4 & v1 & v2 & v3 & v4 & H1 & H2 & H3 & H4 & -> & ->).
  unfold py_int. rewrite <- (append_empty_r u4).
  rewrite (int_digits_app _ _ _ _ H1), (int_digits_app _ _ _ _ H2),
    (int_digits_app _ _ _ _ H3), (int_digits_app _ _ _ _ H4).
  change (chars "") with (@nil N). cbn [fold_left]. lia.
Qed.

Ltac day_cases d :=
  let H := fresh "Hd" in
  assert (H : d = 1 \/ d = 2 \/ d = 3 \/ d = 4 \/ d = 5 \/ d = 6 \/ d = 7
              \/ d = 8 \/ d = 9 \/ d = 10 \/ d = 11 \/ d = 12 \/ d = 13
              \/ d = 14 \/ d = 15 \/ d = 16 \/ d = 17 \/ d = 18 \/ d = 19
              \/ d = 20 \/ d = 21 \/ d = 22 \/ d = 23 \/ d = 24 \/ d = 25
              \/ d = 26 \/ d = 27 \/ d = 28 \/ d = 29 \/ d = 30 \/ d = 31)
    by lia;
  repeat (destruct H as [H | H]; [subst d | ]); [ .. | subst d].

Lemma py_int_pad2 d : 1 <= d <= 31 -> py_int (pad2 d) = d.
Proof. intros H. day_cases d; vm_compute; reflexivity. Qed.

Lemma pad2_digits q1 q2 :
  0 <= q1 <= 9 -> 0 <= q2 <= 9 ->
  pad2 (10 * q1 + q2) = String (digit_char q1) (String (digit_char q2) "").
Proof.
  intros H1 H2. unfold pad2.
  assert (E1 : (10 * q1 + q2) / 10 = q1) by (Z.div_mod_to_equations; lia).
  assert (E2 : (10 * q1 + q2) mod 10 = q2) by (Z.div_mod_to_equations; lia).
  rewrite E1, E2. reflexivity.
Qed.

(** A year written with four ASCII digits is a text of the year. *)
Lemma year_text_pad4 y : 0 <= y <= 9999 -> year_text (pad4 y) y.
Proof.
  intros H.
  exists (String (digit_char (y / 1000)) ""),
    (String (digit_char (y / 100 mod 10)) ""),
    (String (digit_char (y / 10 mod 10)) ""),
    (String (digit_char (y mod 10)) ""),
    (y / 1000), (y / 100 mod 10), (y / 10 mod 10), (y mod 10).
  repeat (split; [apply decimal_char_digit; Z.div_mod_to_equations; lia |]).
  split; [reflexivity |]. Z.div_mod_to_equations. lia.
Qed.

(** From 1000 on, [str] writes a year with four digits. *)
Lemma str_of_Z_pad4 y : 1000 <= y <= 9999 -> str_of_Z y = pad4 y.
Proof.
  intros H.
  assert (A : forallb (fun n => (str_of_Z (Z.of_nat n) =? pad4 (Z.of_nat n))%string)
                (seq (Z.to_nat 1000) (Z.to_nat 9000)) = true)
    by (vm_compute; reflexivity).
  rewrite forallb_forall in A.
  specialize (A (Z.to_nat y)). rewrite Z2Nat.id in A by lia.
  apply String.eqb_eq. apply A. apply in_seq. lia.
Qed.

(** *** The pieces of the pattern *)

Lemma re_digit_inv s t r :
  re_digit s = Some (t, r) -> s = t ++ r /\ exists v, decimal_char t v.
Proof.
  unfold re_digit.
  destruct (next_char s) as [[[cp t'] r'] |] eqn:E; [| discriminate].
  destruct (decimal_value cp) as [v |] eqn:V; [| discriminate].
  intros [= <- <-]. apply next_char_inv in E. destruct E as [E1 E2].
  split; [exact E1 |]. exists v, cp. split; assumption.
Qed.

Lemma re_digit_app u v r : decimal_char u v -> re_digit (u ++ r) = Some (u, r).
Proof.
  intros (cp & Hc & Hv). unfold re_digit.
  rewrite (next_char_app _ _ r Hc), Hv. reflexivity.
Qed.

Lemma re_Y_year_text yt y r : year_text yt y -> re_Y (yt ++ r) = Some (yt, r).
Proof.
  intros (u1 & u2 & u3 & u4 & v1 & v2 & v3 & v4 & H1 & H2 & H3 & H4 & -> & _).
  rewrite !append_assoc_str. unfold re_Y.
  rewrite (re_digit_app _ _ _ H1), (re_digit_app _ _ _ H2),
    (re_digit_app _ _ _ H3), (re_digit_app _ _ _ H4).
  reflexivity.
Qed.

Ltac run_re_d :=
  cbn -[re_tail re_digit is_digit19];
  repeat match goal with
    | |- context [is_digit19 ?c] =>
        let v := eval vm_compute in (is_digit19 c) in
        change (is_digit19 c) with v
    | |- context [re_digit (String ?c ?r)] =>
        let v := eval vm_compute in (re_digit (String c r)) in
        change (re_digit (String c r)) with v
    end;
  cbn -[re_tail].

(** On the text that [strftime] writes for a day, the first alternative of
    group [d] that applies consumes both digits. *)
Lemma first_match_pad2 d r b y rest :
  1 <= d <= 31 -> re_tail r = Some (b, y, rest) ->
  first_match (re_d (pad2 d ++ r)) = Some (pad2 d, b, y, rest).
Proof.
  intros H T.
  day_cases d;
    match goal with
    | |- context [pad2 ?k] =>
        let v := eval vm_compute in (pad2 k) in change (pad2 k) with v
    end;
    run_re_d; rewrite T; reflexivity.
Qed.

Lemma re_b_month_abbr m r :
  1 <= m <= 12 ->
  re_b (nth (Z.to_nat m) month_abbr "" ++ r)
  = Some (nth (Z.to_nat m) month_abbr "", r)
  /\ list_index (lower (nth (Z.to_nat m) month_abbr "")) a_month = m.
Proof. intros H. month_cases m; split; reflexivity. Qed.

Lemma make_date_valid d :
  valid d = true -> make_date (year d) (month d) (day d) = Ok d.
Proof.
  intros H. unfold make_date. unfold valid in H.
  repeat (apply andb_prop in H; destruct H as [H ?]).
  repeat match goal with E : _ = true |- _ => rewrite E; clear E end.
  destruct d; reflexivity.
Qed.

Lemma make_date_Ok y m d x :
  make_date y m d = Ok x -> x = mkdate y m d /\ valid x = true.
Proof.
  unfold make_date, valid.
  destruct ((MINYEAR <=? y) && (y <=? MAXYEAR)) eqn:E1; [| discriminate].
  destruct ((1 <=? m) && (m <=? 12)) eqn:E2; [| discriminate].
  destruct ((1 <=? d) && (d <=? days_in_month y m)) eqn:E3; [| discriminate].
  cbn [negb]. intros [= <-]. cbn [year month day].
  apply andb_prop in E1, E2, E3. destruct E1 as [-> ->], E2 as [-> ->],
    E3 as [-> ->]. split; reflexivity.
Qed.

Lemma re_tail_intro s b s2 y rest :
  re_b s = Some (b, String "-" s2) -> re_Y s2 = Some (y, rest) ->
  re_tail (String "-" s) = Some (b, y, rest).
Proof.
  intros Hb HY. unfold re_tail.
  change (re_lit "-" (String "-" s)) with (Some s). cbv beta iota.
  rewrite Hb.
  change (re_lit "-" (String "-" s2)) with (Some s2). cbv beta iota.
  rewrite HY.
  reflexivity.
Qed.

(** The date that [strptime] returns exists. *)
Lemma strptime_valid s d : strptime s = Ok d -> valid d = true.
Proof.
  unfold strptime. destruct (first_match (re_d s)) as [[[[dd b] y] rest] |];
    [| discriminate].
  destruct (negb (rest =? "")%string); [discriminate |]. cbv zeta.
  destruct (list_index (lower b) a_month <? 0); [discriminate |].
  intros H. apply make_date_Ok in H. tauto.
Qed.

(** ** The matcher against the description of the format *)

Lemma is_digit19_inv c :
  is_digit19 c = true -> c = digit_char (digit_val c) /\ 1 <= digit_val c <= 9.
Proof.
  destruct c as [[] [] [] [] [] [] [] []]; intros H; try discriminate H;
    match goal with
    | |- context [digit_val ?a] =>
        let v := eval vm_compute in (digit_val a) in
        change (digit_val a) with v
    end; (split; [reflexivity | lia]).
Qed.

Lemma ascii_eqb_true a b : (a =? b)%char = true -> a = b.
Proof. apply Ascii.eqb_eq. Qed.

Lemma re_Y_sound s y rest :
  re_Y s = Some (y, rest) ->
  s = y ++ rest /\ exists n, 0 <= n <= 9999 /\ year_text y n.
Proof.
  unfold re_Y.
  destruct (re_digit s) as [[t1 s1] |] eqn:E1; [| discriminate].
  destruct (re_digit s1) as [[t2 s2] |] eqn:E2; [| discriminate].
  destruct (re_digit s2) as [[t3 s3] |] eqn:E3; [| discriminate].
  destruct (re_digit s3) as [[t4 s4] |] eqn:E4; [| discriminate].
  intros [= <- <-].
  apply re_digit_inv in E1, E2, E3, E4.
  destruct E1 as [-> (v1 & H1)], E2 as [-> (v2 & H2)],
    E3 as [-> (v3 & H3)], E4 as [-> (v4 & H4)].
  split; [rewrite !append_assoc_str; reflexivity |].
  pose proof (decimal_char_bounds _ _ H1).
  pose proof (decimal_char_bounds _ _ H2).
  pose proof (decimal_char_bounds _ _ H3).
  pose proof (decimal_char_bounds _ _ H4).
  exists (1000 * v1 + 100 * v2 + 10 * v3 + v4). split; [lia |].
  exists t1, t2, t3, t4, v1, v2, v3, v4. repeat (split; [assumption |]).
  split; reflexivity.
Qed.

(** Group [b] consumes the name of a month, or a text with a long s, which
    is in no list of names. *)
Lemma re_b_sound s b rest :
  re_b s = Some (b, rest) ->
  s = b ++ rest
  /\ ((exists m, 1 <= m <= 12 /\ month_text b m
                 /\ list_index (lower b) a_month = m)
      \/ list_index (lower b) a_month = -1).
Proof.
  destruct s as [| c1 [| c2 [| c3 r]]]; try discriminate. cbn [re_b].
  set (t := String c1 (String c2 (String c3 ""))).
  destruct (existsb (String.eqb (lower t)) (tl a_month)) eqn:E.
  - intros [= <- <-]. split; [reflexivity |]. left.
    cbn [existsb tl a_month] in E. unfold month_text.
    repeat (apply orb_prop in E; destruct E as [E | E]);
      try discriminate E; apply String.eqb_eq in E; rewrite E;
      [exists 1 | exists 2 | exists 3 | exists 4 | exists 5 | exists 6
       | exists 7 | exists 8 | exists 9 | exists 10 | exists 11 | exists 12];
      (split; [lia | split; reflexivity]).
  - destruct r as [| c4 r']; [discriminate |].
    destruct ((String c1 (String c2 "") =? long_s)%string
              && (lower (String c3 (String c4 "")) =? "ep")%string) eqn:E';
      [| discriminate].
    intros [= <- <-]. split; [reflexivity |]. right.
    apply andb_prop in E'. destruct E' as [E1 E2].
    apply String.eqb_eq in E1, E2. injection E1 as -> ->.
    cbn [lower] in E2 |- *. injection E2 as -> ->. reflexivity.
Qed.

Lemma re_lit_sound c s r : re_lit c s = Some r -> s = String c r.
Proof.
  destruct s as [| a s']; [discriminate |]. cbn [re_lit].
  destruct (a =? c)%char eqn:E; [| discriminate].
  apply ascii_eqb_true in E. intros [= <-]. congruence.
Qed.

Lemma re_tail_sound r b y rest :
  re_tail r = Some (b, y, rest) ->
  r = "-" ++ b ++ "-" ++ y ++ rest
  /\ ((exists m, 1 <= m <= 12 /\ month_text b m
                 /\ list_index (lower b) a_month = m)
      \/ list_index (lower b) a_month = -1)
  /\ (exists n, 0 <= n <= 9999 /\ year_text y n).
Proof.
  unfold re_tail.
  destruct (re_lit "-" r) as [s1 |] eqn:E1; [| discriminate].
  destruct (re_b s1) as [[b' s2] |] eqn:E2; [| discriminate].
  destruct (re_lit "-" s2) as [s3 |] eqn:E3; [| discriminate].
  destruct (re_Y s3) as [[y' s4] |] eqn:E4; [| discriminate].
  intros [= <- <- <-].
  apply re_lit_sound in E1, E3. apply re_b_sound in E2.
  apply re_Y_sound in E4. destruct E2 as [E2 Hm], E4 as [E4 Hy].
  subst r s1 s2 s3. split; [reflexivity |]. split; assumption.
Qed.

Lemma first_match_sound alts dd b y rest :
  first_match alts = Some (dd, b, y, rest) ->
  exists r, In (dd, r) alts /\ re_tail r = Some (b, y, rest).
Proof.
  induction alts as [| [d0 r0] alts IH]; [discriminate |].
  cbn [first_match].
  destruct (re_tail r0) as [[[b0 y0] rest0] |] eqn:E.
  - intros [= <- <- <- <-]. exists r0. split; [left; reflexivity | exact E].
  - intros H. destruct (IH H) as (r & Hin & Hr).
    exists r. split; [right; exact Hin | exact Hr].
Qed.

(** Every alternative of group [d] consumes a day text, and its value is
    between 1 and 31. *)
Lemma re_d_sound s dt r :
  In (dt, r) (re_d s) ->
  s = dt ++ r /\ 1 <= py_int dt <= 31 /\ day_text dt (py_int dt).
Proof.
  unfold re_d. destruct s as [| a s1]; [intros [] |].
  intros H. repeat (apply in_app_or in H; destruct H as [H | H]).
  - destruct (a =? "3")%char eqn:E1; [| destruct H].
    apply ascii_eqb_true in E1. subst a.
    destruct s1 as [| b r']; [destruct H |].
    destruct ((b =? "0")%char || (b =? "1")%char) eqn:E2; [| destruct H].
    destruct H as [[= <- <-] | []].
    apply orb_prop in E2.
    destruct E2 as [E2 | E2]; apply ascii_eqb_true in E2; subst b;
      (split; [reflexivity |]); (split; [vm_compute; split; discriminate |]);
      left; vm_compute; reflexivity.
  - destruct ((a =? "1")%char || (a =? "2")%char) eqn:E1; [| destruct H].
    destruct (re_digit s1) as [[t r'] |] eqn:D; [| destruct H].
    destruct H as [[= <- <-] | []].
    apply re_digit_inv in D. destruct D as [-> (v & Dv)].
    pose proof (decimal_char_bounds _ _ Dv) as Hv.
    apply orb_prop in E1.
    destruct E1 as [E1 | E1]; apply ascii_eqb_true in E1; subst a.
    + change "1"%char with (digit_char 1).
      rewrite (py_int_two 1 t v) by (lia || assumption).
      split; [reflexivity |]. split; [lia |]. right. right.
      exists 1, t, v. split; [left; reflexivity |].
      split; [exact Dv |]. split; reflexivity.
    + change "2"%char with (digit_char 2).
      rewrite (py_int_two 2 t v) by (lia || assumption).
      split; [reflexivity |]. split; [lia |]. right. right.
      exists 2, t, v. split; [right; reflexivity |].
      split; [exact Dv |]. split; reflexivity.
  - destruct (a =? "0")%char eqn:E1; [| destruct H].
    apply ascii_eqb_true in E1. subst a.
    destruct s1 as [| b r']; [destruct H |].
    destruct (is_digit19 b) eqn:E2; [| destruct H].
    destruct H as [[= <- <-] | []].
    apply is_digit19_inv in E2. destruct E2 as [Eb Hb]. rewrite Eb.
    change "0"%char with (digit_char 0).
    rewrite py_int_two_digits by lia. split; [reflexivity |].
    split; [lia |]. left. symmetry. apply pad2_digits; lia.
  - destruct (is_digit19 a) eqn:Ea; [| destruct H].
    destruct H as [[= <- <-] | []]. apply is_digit19_inv in Ea.
    destruct Ea as [Ea Ha]. rewrite Ea.
    rewrite py_int_digit by lia. split; [reflexivity |]. split; [lia |].
    right. left. split; [lia |]. left. reflexivity.
  - destruct (a =? " ")%char eqn:E1; [| destruct H].
    apply ascii_eqb_true in E1. subst a.
    destruct s1 as [| b r']; [destruct H |].
    destruct (is_digit19 b) eqn:E2; [| destruct H].
    destruct H as [[= <- <-] | []].
    apply is_digit19_inv in E2. destruct E2 as [Eb Hb]. rewrite Eb.
    rewrite py_int_blank_digit by lia. split; [reflexivity |].
    split; [lia |]. right. left. split; [lia |]. right. reflexivity.
Qed.

(** What [strptime] accepts matches the description of the format. *)
Lemma strptime_sound s d : strptime s = Ok d -> matches_DATE_FORMAT s d.
Proof.
  unfold strptime.
  destruct (first_match (re_d s)) as [[[[dd b] y] rest] |] eqn:F;
    [| discriminate].
  destruct (rest =? "")%string eqn:R; [| discriminate].
  apply String.eqb_eq in R. subst rest. cbn [negb]. cbv zeta.
  destruct (list_index (lower b) a_month <? 0) eqn:I; [discriminate |].
  apply Z.ltb_ge in I. intros H.
  apply make_date_Ok in H. destruct H as [-> V].
  apply first_match_sound in F. destruct F as (r & Hin & T).
  apply re_tail_sound in T.
  destruct T as (Er & [(m & Hm & Hmt & Hi) | Hi] & (n & Hn & Hy)); [| lia].
  apply re_d_sound in Hin. destruct Hin as (Es & Hd & Hdt).
  split; [exact V |]. exists dd, b, y. cbn [year month day].
  rewrite Hi. split; [exact Hdt |]. split; [exact Hmt |].
  rewrite (py_int_year _ _ Hy). split; [exact Hy |].
  rewrite Es, Er, append_empty_r. reflexivity.
Qed.

Lemma first_match_day_text dt n r b y rest :
  1 <= n <= 31 -> day_text dt n ->
  re_tail (String "-" r) = Some (b, y, rest) ->
  first_match (re_d (dt ++ String "-" r)) = Some (dt, b, y, rest)
  /\ py_int dt = n.
Proof.
  intros Hn [-> | [[H9 [-> | ->]] | (a & u & v & Ha & Hu & -> & ->)]] T.
  - split; [apply first_match_pad2; assumption | apply py_int_pad2; lia].
  - split; [| apply py_int_digit; lia].
    digit_cases n; try lia;
      match goal with
      | |- context [digit_char ?k] =>
          let v := eval vm_compute in (digit_char k) in
          change (digit_char k) with v
      end;
      run_re_d; rewrite T; reflexivity.
  - split; [| apply py_int_blank_digit; lia].
    digit_cases n; try lia;
      match goal with
      | |- context [digit_char ?k] =>
          let v := eval vm_compute in (digit_char k) in
          change (digit_char k) with v
      end;
      run_re_d; rewrite T; reflexivity.
  - split; [| apply py_int_two; [lia | exact Hu]].
    pose proof (re_digit_app u v (String "-" r) Hu) as D.
    destruct Ha as [-> | ->].
    + change (digit_char 1) with "1"%char. cbn [append].
      unfold re_d. cbn [Ascii.eqb Bool.eqb orb andb]. rewrite D.
      cbn [app first_match]. rewrite T. reflexivity.
    + change (digit_char 2) with "2"%char. cbn [append].
      unfold re_d. cbn [Ascii.eqb Bool.eqb orb andb]. rewrite D.
      cbn [app first_match]. rewrite T. reflexivity.
Qed.

Lemma re_b_month_text mt m r :
  1 <= m <= 12 -> month_text mt m ->
  re_b (mt ++ r) = Some (mt, r) /\ list_index (lower mt) a_month = m.
Proof.
  unfold month_text. intros Hm H.
  assert (L3 : exists a b c, mt = String a (String b (String c ""))).
  { month_cases m;
      match type of H with
      | _ = ?rhs => let v := eval vm_compute in rhs in change rhs with v in H
      end;
      destruct mt as [| a [| b [| c [| e mt']]]]; try discriminate H;
      exists a, b, c; reflexivity. }
  destruct L3 as (a & b & c & ->). cbn [append re_b]. rewrite H.
  month_cases m; split; reflexivity.
Qed.

(** Every text that matches the description is accepted, with the date it
    denotes. *)
Lemma strptime_complete s d : matches_DATE_FORMAT s d -> strptime s = Ok d.
Proof.
  intros (V & dt & mt & yt & Hd & Hm & Hy & ->).
  pose proof (valid_inv d V) as (By & Bm & Bd).
  pose proof (days_in_month_pos (year d) (month d) Bm) as Hdim.
  destruct (re_b_month_text mt (month d) ("-" ++ yt) Bm Hm) as [Eb Ei].
  assert (T : re_tail (String "-" (mt ++ "-" ++ yt)) = Some (mt, yt, "")).
  { apply (re_tail_intro _ _ yt); [exact Eb |].
    rewrite <- (append_empty_r yt) at 1.
    apply (re_Y_year_text _ _ _ Hy). }
  destruct (first_match_day_text dt (day d) _ _ _ _ ltac:(lia) Hd T)
    as [F Ed].
  unfold strptime.
  change (dt ++ "-" ++ mt ++ "-" ++ yt)
    with (dt ++ String "-" (mt ++ "-" ++ yt)).
  rewrite F. cbn [String.eqb negb]. cbv zeta.
  rewrite Ei, Ed, (py_int_year _ _ Hy).
  destruct (month d <? 0) eqn:I; [apply Z.ltb_lt in I; lia |].
  apply make_date_valid. exact V.
Qed.

Lemma strptime_iff s d : strptime s = Ok d <-> matches_DATE_FORMAT s d.
Proof. split; [apply strptime_sound | apply strptime_complete]. Qed.

(** A day from 10 to 29 and a year may be written with digits of another
    script; a day may not begin with one, and a month written with a long s
    passes the pattern and is then found in no list of names. *)
Example strptime_other_digits :
  strptime ("1" ++ arabic_indic_three ++ "-Mar-2024") = Ok (mkdate 2024 3 13)
  /\ strptime ("01-Mar-202" ++ arabic_indic_three) = Ok (mkdate 2023 3 1)
  /\ strptime (arabic_indic_three ++ "-Mar-2024")
     = Raise (mkExn ValueError
                ("time data " ++ repr (arabic_indic_three ++ "-Mar-2024")
                 ++ " does not match format " ++ repr DATE_FORMAT))
  /\ strptime ("01-" ++ long_s ++ "EP-2024")
     = Raise (mkExn ValueError (repr (long_s ++ "ep") ++ " is not in list")).
Proof. repeat split; vm_compute; reflexivity. Qed.

(** From the year 1000 on, the text that [strftime] writes matches the
    format and denotes the date. *)
Lemma strftime_matches d :
  valid d = true -> 1000 <= year d -> matches_DATE_FORMAT (strftime d) d.
Proof.
  intros V Hy. pose proof (valid_inv d V) as (By & Bm & Bd).
  split; [exact V |]. destruct d as [y m dd]. cbn [year month day] in *.
  exists (pad2 dd), (nth (Z.to_nat m) month_abbr ""), (pad4 y).
  split; [left; reflexivity |].
  split; [unfold month_text; clear V Bd; month_cases m; reflexivity |].
  split; [apply year_text_pad4; lia |].
  unfold strftime. cbn [year month day]. rewrite str_of_Z_pad4 by lia.
  reflexivity.
Qed.

(** [strptime] reads back what [strftime] writes for a year of four
    digits. *)
Lemma strptime_strftime d :
  valid d = true -> 1000 <= year d -> strptime (strftime d) = Ok d.
Proof. intros V Hy. apply strptime_complete, strftime_matches; assumption. Qed.

Lemma strptime_class s ex : strptime s = Raise ex -> exn_class ex = ValueError.
Proof.
  unfold strptime.
  destruct (first_match (re_d s)) as [[[[dd b] y] rest] |];
    [| intros [= <-]; reflexivity].
  destruct (negb (rest =? "")%string); [intros [= <-]; reflexivity |].
  cbv zeta.
  destruct (list_index (lower b) a_month <? 0); [intros [= <-]; reflexivity |].
  unfold make_date.
  repeat match goal with
    | |- (if ?c then _ else _) = _ -> _ =>
        destruct c; [intros [= <-]; reflexivity |]
    end.
  discriminate.
Qed.

(** * Properties of the program *)

(** ** validate_date_range *)

Lemma validate_Ok_inv s e :
  validate_date_range s e = Ok tt ->
  exists ds de, strptime s = Ok ds /\ strptime e = Ok de /\ lt ds de = true.
Proof.
  unfold validate_date_range.
  destruct (strptime s) as [ds |]; [| discriminate].
  destruct (strptime e) as [de |]; [| discriminate].
  rewrite ge_negb_lt. destruct (lt ds de) eqn:E; [| discriminate].
  intros _. exists ds, de. split; [reflexivity |]. split; [reflexivity |].
  exact E.
Qed.

Lemma validate_Raise_class s e ex :
  validate_date_range s e = Raise ex -> exn_class ex = ValueError.
Proof.
  unfold validate_date_range.
  destruct (strptime s) as [ds |] eqn:Es;
    [| intros [= <-]; exact (strptime_class _ _ Es)].
  destruct (strptime e) as [de |] eqn:Ee;
    [| intros [= <-]; exact (strptime_class _ _ Ee)].
  destruct (ge ds de); [intros [= <-]; reflexivity | discriminate].
Qed.

Lemma strptime_not_range_error s : strptime s <> Raise range_error.
Proof.
  unfold strptime, range_error.
  destruct (first_match (re_d s)) as [[[[dd b] y] rest] |];
    [| discriminate].
  destruct (negb (rest =? "")%string); [discriminate |].
  unfold make_date.
  repeat match goal with
    | |- (if ?c then _ else _) <> _ => destruct c; [discriminate |]
    end.
  discriminate.
Qed.

(** C4. [validate_date_range] succeeds on two texts that match the format and
    denote dates of which the first is strictly earlier; on two matching
    texts of which the first is not earlier it raises the range error; and
    when a text does not match the format it raises the [ValueError] of
    [strptime] for that text, which is not the range error.  The texts that
    match are those of [matches_DATE_FORMAT], with the digits of any script
    that the format lets through. *)
Theorem validate_date_range_spec (s e : pystr) :
  (forall ds de,
      matches_DATE_FORMAT s ds -> matches_DATE_FORMAT e de ->
      toordinal ds < toordinal de ->
      validate_date_range s e = Ok tt)
  /\ (forall ds de,
      matches_DATE_FORMAT s ds -> matches_DATE_FORMAT e de ->
      toordinal de <= toordinal ds ->
      validate_date_range s e = Raise range_error)
  /\ ((forall d, ~ matches_DATE_FORMAT s d) ->
      exists ex, strptime s = Raise ex
                 /\ validate_date_range s e = Raise ex
                 /\ exn_class ex = ValueError /\ ex <> range_error)
  /\ (forall ds,
      matches_DATE_FORMAT s ds -> (forall d, ~ matches_DATE_FORMAT e d) ->
      exists ex, strptime e = Raise ex
                 /\ validate_date_range s e = Raise ex
                 /\ exn_class ex = ValueError /\ ex <> range_error).
Proof.
  unfold validate_date_range. repeat split.
  - intros ds de Hs He Hlt.
    pose proof (proj1 Hs) as Vs. pose proof (proj1 He) as Ve.
    rewrite (strptime_complete _ _ Hs), (strptime_complete _ _ He).
    destruct (ge ds de) eqn:G; [| reflexivity].
    apply ge_toordinal in G; [lia | assumption | assumption].
  - intros ds de Hs He Hge.
    pose proof (proj1 Hs) as Vs. pose proof (proj1 He) as Ve.
    rewrite (strptime_complete _ _ Hs), (strptime_complete _ _ He).
    destruct (ge ds de) eqn:G; [reflexivity |].
    assert (G' : ge ds de = true) by (apply ge_toordinal; assumption).
    congruence.
  - intros Hn. destruct (strptime s) as [ds | ex] eqn:Es.
    + exfalso. apply (Hn ds). apply strptime_sound. exact Es.
    + exists ex. repeat split.
      * exact (strptime_class _ _ Es).
      * intros ->. exact (strptime_not_range_error _ Es).
  - intros ds Hs Hn. rewrite (strptime_complete _ _ Hs).
    destruct (strptime e) as [de | ex] eqn:Ee.
    + exfalso. apply (Hn de). apply strptime_sound. exact Ee.
    + exists ex. repeat split.
      * exact (strptime_class _ _ Ee).
      * intros ->. exact (strptime_not_range_error _ Ee).
Qed.

Lemma validate_date_range_spec_witness :
  validate_date_range "01-Mar-2024" "04-Mar-2024" = Ok tt
  /\ validate_date_range "04-Mar-2024" ("1" ++ arabic_indic_three ++ "-Mar-2024")
     = Ok tt
  /\ validate_date_range "04-Mar-2024" "01-Mar-2024" = Raise range_error
  /\ validate_date_range "04-Mar-2024" "04-Mar-2024" = Raise range_error
  /\ (exists ex, validate_date_range "2024-03-01" "04-Mar-2024" = Raise ex
                 /\ exn_class ex = ValueError /\ ex <> range_error)
  /\ (exists ex, validate_date_range "01-Mar-2024" "31-Feb-2024" = Raise ex
                 /\ exn_class ex = ValueError /\ ex <> range_error).
Proof.
  assert (H1 : matches_DATE_FORMAT "01-Mar-2024" (mkdate 2024 3 1))
    by (apply strptime_sound; reflexivity).
  assert (H4 : matches_DATE_FORMAT "04-Mar-2024" (mkdate 2024 3 4))
    by (apply strptime_sound; reflexivity).
  assert (Hlt : toordinal (mkdate 2024 3 1) < toordinal (mkdate 2024 3 4))
    by (vm_compute; reflexivity).
  assert (Hle : toordinal (mkdate 2024 3 1) <= toordinal (mkdate 2024 3 4))
    by (vm_compute; discriminate).
  assert (Hrefl : toordinal (mkdate 2024 3 4) <= toordinal (mkdate 2024 3 4))
    by (vm_compute; discriminate).
  assert (Hbad : forall d, ~ matches_DATE_FORMAT "2024-03-01" d)
    by (intros d H; apply strptime_complete in H; discriminate H).
  assert (Hfeb : forall d, ~ matches_DATE_FORMAT "31-Feb-2024" d)
    by (intros d H; apply strptime_complete in H; discriminate H).
  assert (H13 : matches_DATE_FORMAT ("1" ++ arabic_indic_three ++ "-Mar-2024")
                  (mkdate 2024 3 13))
    by (apply strptime_sound; vm_compute; reflexivity).
  assert (Hlt' : toordinal (mkdate 2024 3 4) < toordinal (mkdate 2024 3 13))
    by (vm_compute; reflexivity).
  split.
  { exact (proj1 (validate_date_range_spec "01-Mar-2024" "04-Mar-2024")
             _ _ H1 H4 Hlt). }
  split.
  { exact (proj1 (validate_date_range_spec "04-Mar-2024"
                    ("1" ++ arabic_indic_three ++ "-Mar-2024"))
             _ _ H4 H13 Hlt'). }
  split.
  { exact (proj1 (proj2 (validate_date_range_spec "04-Mar-2024" "01-Mar-2024"))
             _ _ H4 H1 Hle). }
  split.
  { exact (proj1 (proj2 (validate_date_range_spec "04-Mar-2024" "04-Mar-2024"))
             _ _ H4 H4 Hrefl). }
  split.
  { destruct (proj1 (proj2 (proj2 (validate_date_range_spec
                                     "2024-03-01" "04-Mar-2024"))) Hbad)
      as (ex & _ & E & C & N).
    exists ex. split; [exact E |]. split; [exact C | exact N]. }
  destruct (proj2 (proj2 (proj2 (validate_date_range_spec
                                   "01-Mar-2024" "31-Feb-2024"))) _ H1 Hfeb)
    as (ex & _ & E & C & N).
  exists ex. split; [exact E |]. split; [exact C | exact N].
Defined.

(** ** search_emails *)

Ltac run_monad :=
  unfold bind, lift, ret, logging, imap; cbn [calls logs fst snd].

(** C9. When validation of the range fails, [search_emails] raises that
    error with the session untouched: no command has been sent and nothing
    logged.  When it succeeds, both texts denote dates with the start
    strictly earlier, and the first command on the session is the mailbox
    selection. *)
Theorem validation_precedes_network (L : PyLib) (sess : Session)
    (mailbox s e : pystr) (w : World) :
  match validate_date_range s e with
  | Raise ex =>
      search_emails L sess mailbox s e w = (Raise ex, w)
      /\ exn_class ex = ValueError
  | Ok _ =>
      exists ds de,
        strptime s = Ok ds /\ strptime e = Ok de /\ lt ds de = true
        /\ exists cs,
             calls (snd (search_emails L sess mailbox s e w))
             = (calls w ++ Select mailbox :: cs)%list
  end.
Proof.
  destruct (validate_date_range s e) as [[] | ex] eqn:V.
  - destruct (validate_Ok_inv _ _ V) as (ds & de & Es & Ee & Hlt).
    exists ds, de. repeat (split; [assumption |]).
    unfold search_emails. rewrite V, Es, Ee. run_monad.
    destruct (sess (calls w ++ [Select mailbox])%list) as [r |];
      [| exists []; reflexivity].
    destruct (add_days de 1) as [nx |]; [| exists []; reflexivity].
    cbn [calls logs fst snd].
    match goal with
    | |- context [Search None ?q] => set (query := q)
    end.
    destruct (sess ((calls w ++ [Select mailbox]) ++ [Search None query])%list)
      as [[typ data] |];
      [| exists [Search None query]; cbn; rewrite <- app_assoc; reflexivity].
    destruct (negb (typ =? "OK")%string);
      [exists [Search None query]; cbn; rewrite <- app_assoc; reflexivity |].
    destruct (getitem0 data) as [x |];
      [| exists [Search None query]; cbn; rewrite <- app_assoc; reflexivity].
    destruct (item_split x) as [toks |];
      [| exists [Search None query]; cbn; rewrite <- app_assoc; reflexivity].
    destruct (comprehension (utf8_strict L) toks);
      exists [Search None query]; cbn; rewrite <- app_assoc; reflexivity.
  - split; [| exact (validate_Raise_class _ _ _ V)].
    unfold search_emails. rewrite V. reflexivity.
Qed.

Lemma validate_Ok_lt s e ds de :
  strptime s = Ok ds -> strptime e = Ok de ->
  validate_date_range s e = Ok tt -> lt ds de = true.
Proof.
  intros Es Ee V. destruct (validate_Ok_inv _ _ V) as (ds' & de' & Es' & Ee' & H).
  congruence.
Qed.

(** The run of [search_emails] on a validated range whose end is not the last
    representable day, up to the answer to the search. *)
Lemma search_emails_run L sess mailbox s e w ds de r :
  strptime s = Ok ds -> strptime e = Ok de ->
  validate_date_range s e = Ok tt -> de <> max_date ->
  sess (calls w ++ [Select mailbox])%list = Ok r ->
  let q := search_criterion (strftime ds) (strftime (next_day de)) in
  let w2 := mkWorld (calls w ++ [Select mailbox; Search None q]) (logs w) in
  search_emails L sess mailbox s e w
  = match sess (calls w2) with
    | Raise ex => (Raise ex, w2)
    | Ok (typ, data) =>
        if negb (typ =? "OK")%string then
          (Ok [], mkWorld (calls w2) (logs w ++ [(ERROR, search_error_message)]))
        else
          (match getitem0 data with
           | Raise ex => Raise ex
           | Ok x => match item_split x with
                     | Raise ex => Raise ex
                     | Ok toks => comprehension (utf8_strict L) toks
                     end
           end, w2)
    end.
Proof.
  intros Es Ee V Hmax Hsel q w2.
  pose proof (strptime_valid _ _ Ee) as Ve.
  unfold search_emails. rewrite V, Es, Ee. run_monad.
  rewrite Hsel, (add_days_1 de Ve Hmax). cbn [calls logs].
  fold q. rewrite <- app_assoc. cbn [app]. subst w2. cbn [calls].
  destruct (sess (calls w ++ [Select mailbox; Search None q])%list)
    as [[typ data] | ex]; [| reflexivity].
  destruct (negb (typ =? "OK")%string); [reflexivity |].
  destruct (getitem0 data) as [x |]; [| reflexivity].
  destruct (item_split x) as [toks |]; [| reflexivity].
  destruct (comprehension (utf8_strict L) toks); reflexivity.
Qed.




(** C2. On a validated range, when the answer to the search has a status
    other than [OK], [search_emails] logs the error and returns the empty
    list, without raising; a session whose mailbox has no message in the
    range, which answers [OK] with no identifier, makes it return the same
    value. *)
Theorem search_failure_returns_empty (L : PyLib) (sess : Session)
    (mailbox s e : pystr) (w : World) (ds de : datetime) (r : Reply)
    (typ : pystr) (data : list Item) :
  strptime s = Ok ds -> strptime e = Ok de ->
  validate_date_range s e = Ok tt -> de <> max_date ->
  let q := search_criterion (strftime ds) (strftime (next_day de)) in
  let h := (calls w ++ [Select mailbox; Search None q])%list in
  sess (calls w ++ [Select mailbox])%list = Ok r ->
  sess h = Ok (typ, data) -> typ <> "OK" ->
  search_emails L sess mailbox s e w
  = (Ok [], mkWorld h (logs w ++ [(ERROR, search_error_message)]))
  /\ forall (sess' : Session) (r' : Reply),
       sess' (calls w ++ [Select mailbox])%list = Ok r' ->
       sess' h = Ok ("OK", [IBytes ""]) ->
       search_emails L sess' mailbox s e w = (Ok [], mkWorld h (logs w)).
Proof.
  intros Es Ee V Hmax q h Hsel Hsearch Htyp. split.
  - rewrite (search_emails_run L sess mailbox s e w ds de r Es Ee V Hmax Hsel).
    cbn [calls]. fold q. fold h. rewrite Hsearch.
    destruct (typ =? "OK")%string eqn:E.
    + apply String.eqb_eq in E. contradiction.
    + reflexivity.
  - intros sess' r' Hsel' Hsearch'.
    rewrite (search_emails_run L sess' mailbox s e w ds de r' Es Ee V Hmax
               Hsel').
    cbn [calls]. fold q. fold h. rewrite Hsearch'. reflexivity.
Qed.

Lemma search_failure_returns_empty_witness :
  search_emails example_lib refusing_session "INBOX"
    "01-Mar-2024" "04-Mar-2024" w0
  = (Ok [],
     mkWorld [Select "INBOX";
              Search None (search_criterion "01-Mar-2024" "05-Mar-2024")]
             [(ERROR, search_error_message)])
  /\ search_emails example_lib empty_session "INBOX"
       "01-Mar-2024" "04-Mar-2024" w0
     = (Ok [],
        mkWorld [Select "INBOX";
                 Search None (search_criterion "01-Mar-2024" "05-Mar-2024")]
                []).
Proof.
  assert (Hmax : mkdate 2024 3 4 <> max_date) by discriminate.
  assert (Htyp : "NO" <> "OK") by discriminate.
  pose proof (search_failure_returns_empty example_lib refusing_session
                "INBOX" "01-Mar-2024" "04-Mar-2024" w0
                (mkdate 2024 3 1) (mkdate 2024 3 4) ("OK", [IBytes ""])
                "NO" [IBytes "search failed"]
                eq_refl eq_refl eq_refl Hmax eq_refl eq_refl Htyp) as [H1 H2].
  split; [exact H1 |].
  exact (H2 empty_session ("OK", [IBytes ""]) eq_refl eq_refl).
Defined.

(** ** connect_to_imap_server and close_imap_session *)

Lemma connect_login_refused IMAP4_SSL server username password w sess typ data :
  IMAP4_SSL server = Ok sess ->
  sess (calls w ++ [Login username password])%list = Ok (typ, data) ->
  typ <> "OK" ->
  connect_to_imap_server IMAP4_SSL server username password w
  = (Ok None, mkWorld (calls w ++ [Login username password])
                      (logs w ++ [(ERROR, "Not able to sign in!")])).
Proof.
  intros Hc Hl Ht. unfold connect_to_imap_server, try_except. run_monad.
  rewrite Hc, Hl. destruct (typ =? "OK")%string eqn:E.
  - apply String.eqb_eq in E. contradiction.
  - reflexivity.
Qed.

Lemma connect_login_accepted IMAP4_SSL server username password w sess data :
  IMAP4_SSL server = Ok sess ->
  sess (calls w ++ [Login username password])%list = Ok ("OK", data) ->
  connect_to_imap_server IMAP4_SSL server username password w
  = (Ok (Some sess), mkWorld (calls w ++ [Login username password])
                             (logs w ++ [(INFO, "IMAP connection successful")])).
Proof.
  intros Hc Hl. unfold connect_to_imap_server, try_except. run_monad.
  rewrite Hc, Hl. reflexivity.
Qed.

Lemma connect_login_error_caught IMAP4_SSL server username password w sess ex :
  IMAP4_SSL server = Ok sess ->
  sess (calls w ++ [Login username password])%list = Raise ex ->
  is_IMAP4_error (exn_class ex) = true ->
  connect_to_imap_server IMAP4_SSL server username password w
  = (Ok None, mkWorld (calls w ++ [Login username password])
                      (logs w ++ [(ERROR, "IMAP login error: " ++ exn_msg ex)])).
Proof.
  intros Hc Hl Hex. unfold connect_to_imap_server, try_except. run_monad.
  rewrite Hc, Hl, Hex. reflexivity.
Qed.

Lemma connect_other_error_escapes IMAP4_SSL server username password w ex :
  IMAP4_SSL server = Raise ex ->
  is_IMAP4_error (exn_class ex) = false ->
  connect_to_imap_server IMAP4_SSL server username password w = (Raise ex, w).
Proof.
  intros Hc Hex. unfold connect_to_imap_server, try_except. run_monad.
  rewrite Hc, Hex. reflexivity.
Qed.

(** C6. A host name that does not resolve makes the constructor raise an
    [OSError]; [except imaplib.IMAP4.error] does not catch it, and
    [connect_to_imap_server] raises it to its caller instead of returning
    [None]. *)
Theorem connect_socket_error_escapes :
  connect_to_imap_server unresolved_host "imap.example.invalid" "user"
    "secret" w0
  = (Raise (mkExn OSError "[Errno -2] Name or service not known"), w0).
Proof. reflexivity. Qed.

(** C7, as the code has it.  Without a session [close_imap_session] does
    nothing.  With a session it sends one [LOGOUT]; the status of the answer
    is discarded, so an answer other than [OK] is not reported, but an
    exception raised by the logout reaches the caller. *)
Theorem close_imap_session_spec :
  (forall w, close_imap_session None w = (Ok tt, w))
  /\ (forall (sess : Session) (w : World),
        close_imap_session (Some sess) w
        = (match sess (calls w ++ [Logout])%list with
           | Ok _ => Ok tt
           | Raise ex => Raise ex
           end,
           mkWorld (calls w ++ [Logout]) (logs w))).
Proof.
  split; [reflexivity |]. intros sess w.
  unfold close_imap_session. run_monad.
  destruct (sess (calls w ++ [Logout])%list); reflexivity.
Qed.

(** C7, as stated, fails: on a dropped connection the failure of the logout
    is raised to the caller. *)
Lemma close_surfaces_logout_failure :
  ~ (forall (sess : Session) (w : World),
        exists w', close_imap_session (Some sess) w = (Ok tt, w')).
Proof.
  intros H. destruct (H dropped_session w0) as [w' E]. discriminate E.
Qed.

(** ** decode_text *)



(** ** Suffixes *)

Lemma substring_all (s : string) : substring 0 (String.length s) s = s.
Proof. induction s as [| c s IH]; cbn; [reflexivity | now rewrite IH]. Qed.

Lemma substring_skip (p s : string) :
  substring (String.length p) (String.length s) (p ++ s) = s.
Proof.
  induction p as [| c p IH]; cbn [String.length append substring].
  - apply substring_all.
  - exact IH.
Qed.

Lemma substring_split (s : string) : forall m,
  (m <= String.length s)%nat ->
  s = substring 0 m s ++ substring m (String.length s - m) s.
Proof.
  induction s as [| c s IH]; intros m Hm.
  - cbn in Hm. assert (m = 0%nat) by lia. subst m. reflexivity.
  - destruct m as [| m].
    + cbn [substring append String.length Nat.sub]. f_equal.
      symmetry. apply substring_all.
    + cbn [substring append String.length Nat.sub]. cbn in Hm.
      f_equal. apply IH. lia.
Qed.

(** [endswith] is the exact, character-by-character suffix relation. *)
Lemma endswith_spec (s suffix : pystr) :
  endswith s suffix = true <-> exists p, s = p ++ suffix.
Proof.
  unfold endswith. split.
  - intros H. apply andb_prop in H. destruct H as [Hk He].
    apply Nat.leb_le in Hk. apply String.eqb_eq in He.
    exists (substring 0 (String.length s - String.length suffix) s).
    rewrite <- He at 2.
    rewrite (substring_split s (String.length s - String.length suffix))
      at 1 by lia.
    f_equal. f_equal. lia.
  - intros [p ->]. rewrite length_append.
    apply andb_true_intro. split; [apply Nat.leb_le; lia |].
    replace (String.length p + String.length suffix - String.length suffix)%nat
      with (String.length p) by lia.
    rewrite substring_skip. apply String.eqb_refl.
Qed.

(** ** get_attachments_info *)

Section Attachments.

Context (L : PyLib).

(** On an optional [str], as the headers and file names of a parsed message
    are, [decode_text] returns the text, or the empty string with a warning. *)
Lemma decode_text_header (h : option pystr) (charset : pystr) (w : World) :
  decode_text L (of_header h) charset w
  = (Ok (header_text h), mkWorld (calls w) (logs w ++ header_lines h)).
Proof.
  destruct h as [s |]; cbn [header_lines].
  - rewrite app_nil_r. destruct w. reflexivity.
  - reflexivity.
Qed.

(** The inner loop adds to the accumulator the records of the matching
    parts, in order, and only logs. *)
Lemma scan_parts_run (subject from_ ext : pystr) (parts : list Message) :
  forall (acc : list Triple) (w : World),
    scan_parts L parts subject from_ ext acc w
    = (Ok (acc ++ map (part_record subject from_)
                      (filter (is_matching_attachment ext) parts))%list,
       mkWorld (calls w) (logs w ++ flat_map (part_lines ext) parts)).
Proof.
  induction parts as [| part rest IH]; intros acc w.
  - cbn. rewrite !app_nil_r. destruct w. reflexivity.
  - cbn [scan_parts filter flat_map].
    set (recs := filter (is_matching_attachment ext) rest) in *.
    set (lines := flat_map (part_lines ext) rest) in *.
    unfold part_lines, is_matching_attachment.
    destruct (get_content_maintype part =? "multipart")%string;
      [cbn [orb negb andb app]; apply IH |].
    destruct (get_content_disposition part) as [disp |];
      [| cbn [orb negb andb app]; apply IH].
    cbn [orb negb andb]. unfold bind.
    rewrite decode_text_header. unfold truthy.
    destruct (get_filename part) as [f |] eqn:Ef;
      cbn [header_text header_lines].
    + destruct (negb (f =? "")%string && endswith f ext) eqn:C.
      * unfold logging. cbn [calls logs map]. rewrite IH.
        cbn [calls logs].
        change (part_record subject from_ part)
          with (subject, from_, header_text (get_filename part)).
        rewrite Ef. cbn [header_text].
        rewrite <- !app_assoc. cbn [app]. reflexivity.
      * rewrite IH. cbn [calls logs app]. rewrite <- !app_assoc.
        reflexivity.
    + cbn [String.eqb negb andb]. rewrite IH. cbn [calls logs app].
      rewrite <- !app_assoc. reflexivity.
Qed.

(** One turn of the outer loop on an identifier whose fetch is refused. *)
Lemma fetch_loop_refused sess email_id rest ext acc w typ data :
  sess (calls w ++ [Fetch email_id "(RFC822)"])%list = Ok (typ, data) ->
  typ <> "OK" ->
  fetch_loop L sess (email_id :: rest) ext acc w
  = fetch_loop L sess rest ext acc
      (mkWorld (calls w ++ [Fetch email_id "(RFC822)"])
               (logs w ++ [processing_line email_id;
                           fetch_failed_line email_id])).
Proof.
  intros Hf Ht. cbn [fetch_loop]. run_monad. rewrite Hf.
  destruct (typ =? "OK")%string eqn:E.
  - apply String.eqb_eq in E. contradiction.
  - cbn [negb calls logs]. rewrite <- app_assoc. reflexivity.
Qed.

(** One turn of the outer loop on an identifier whose message arrives. *)
Lemma fetch_loop_fetched sess email_id rest ext acc w data m :
  sess (calls w ++ [Fetch email_id "(RFC822)"])%list = Ok ("OK", data) ->
  fetched_message L data = Ok m ->
  fetch_loop L sess (email_id :: rest) ext acc w
  = fetch_loop L sess rest ext (acc ++ message_records ext m)%list
      (mkWorld (calls w ++ [Fetch email_id "(RFC822)"])
               (logs w ++ processing_line email_id :: message_lines ext m)).
Proof.
  intros Hf Hm. cbn [fetch_loop]. run_monad. rewrite Hf.
  cbn [String.eqb Ascii.eqb Bool.eqb negb]. rewrite Hm.
  rewrite !decode_text_header. cbn [calls logs].
  rewrite scan_parts_run. cbn [calls logs].
  unfold message_records, message_lines, processing_line.
  rewrite <- !app_assoc. reflexivity.
Qed.

Lemma fetch_loop_app sess ext (xs ys : list pystr) :
  forall acc w,
    fetch_loop L sess (xs ++ ys) ext acc w
    = match fetch_loop L sess xs ext acc w with
      | (Ok acc', w') => fetch_loop L sess ys ext acc' w'
      | (Raise ex, w') => (Raise ex, w')
      end.
Proof.
  induction xs as [| x xs IH]; intros acc w; [reflexivity |].
  cbn [app fetch_loop]. run_monad.
  destruct (sess (calls w ++ [Fetch x "(RFC822)"])%list) as [[typ data] | ex];
    [| reflexivity].
  destruct (negb (typ =? "OK")%string); [apply IH |].
  destruct (fetched_message L data) as [m | ex]; [| reflexivity].
  destruct (decode_text L (of_header (get_subject m)) default_charset _)
    as [[sj | ex] w1]; [| reflexivity].
  destruct (decode_text L (of_header (get_from m)) default_charset w1)
    as [[fr | ex] w2]; [| reflexivity].
  destruct (scan_parts L (walk m) sj fr ext acc w2) as [[acc' | ex] w3];
    [apply IH | reflexivity].
Qed.

(** The records found do not depend on what was found before. *)
Lemma fetch_loop_acc sess ext (ids : list pystr) :
  forall acc w,
    fetch_loop L sess ids ext acc w
    = match fetch_loop L sess ids ext [] w with
      | (Ok l, w') => (Ok (acc ++ l)%list, w')
      | (Raise ex, w') => (Raise ex, w')
      end.
Proof.
  induction ids as [| x ids IH]; intros acc w.
  - cbn. rewrite app_nil_r. reflexivity.
  - cbn [fetch_loop]. run_monad.
    destruct (sess (calls w ++ [Fetch x "(RFC822)"])%list) as [[typ data] | ex];
      [| reflexivity].
    destruct (negb (typ =? "OK")%string); [apply IH |].
    destruct (fetched_message L data) as [m | ex]; [| reflexivity].
    rewrite !decode_text_header. cbn [calls logs].
    rewrite !scan_parts_run. cbn [calls logs app].
    rewrite IH. symmetry. rewrite IH.
    match goal with
    | |- context [fetch_loop L sess ids ext [] ?w1] =>
        destruct (fetch_loop L sess ids ext [] w1) as [[l | ex] w']
    end; [| reflexivity].
    rewrite app_assoc. reflexivity.
Qed.

Lemma matching_record_good ext sj fr part :
  is_matching_attachment ext part = true ->
  good_filename ext (part_record sj fr part).
Proof.
  unfold is_matching_attachment, good_filename, part_record, filename_of.
  cbn [snd]. intros H. apply andb_prop in H. destruct H as [_ H].
  destruct (get_filename part) as [f |]; [| discriminate].
  cbn [header_text]. apply andb_prop in H. destruct H as [Hn He].
  split.
  - intros ->. discriminate Hn.
  - split; [exact He | apply endswith_spec; exact He].
Qed.

Lemma message_records_good ext m :
  Forall (good_filename ext) (message_records ext m).
Proof.
  unfold message_records. apply Forall_forall. intros t Ht.
  apply in_map_iff in Ht. destruct Ht as (part & <- & Hin).
  apply filter_In in Hin. apply matching_record_good. tauto.
Qed.

Lemma fetch_loop_good sess ext (ids : list pystr) :
  forall acc w l w',
    Forall (good_filename ext) acc ->
    fetch_loop L sess ids ext acc w = (Ok l, w') ->
    Forall (good_filename ext) l.
Proof.
  induction ids as [| x ids IH]; intros acc w l w' Hacc.
  - cbn. intros [= <- _]. exact Hacc.
  - cbn [fetch_loop]. run_monad.
    destruct (sess (calls w ++ [Fetch x "(RFC822)"])%list) as [[typ data] | ex];
      [| discriminate].
    destruct (negb (typ =? "OK")%string); [apply IH; exact Hacc |].
    destruct (fetched_message L data) as [m | ex]; [| discriminate].
    rewrite !decode_text_header. cbn [calls logs].
    rewrite scan_parts_run. cbn [calls logs]. apply IH.
    apply Forall_app. split; [exact Hacc |].
    apply (message_records_good ext m).
Qed.

(** A refused fetch in the middle of a batch changes nothing but the log and
    the commands sent: the loop goes on from the accumulator it had. *)
Lemma refused_fetch_skipped (sess : Session) (ext : pystr)
    (before : list pystr) (bad : pystr) (after : list pystr)
    (w w1 : World) (acc1 : list Triple) (typ : pystr) (data : list Item) :
  fetch_loop L sess before ext [] w = (Ok acc1, w1) ->
  sess (calls w1 ++ [fetch_call bad])%list = Ok (typ, data) ->
  typ <> "OK" ->
  fetch_loop L sess (before ++ bad :: after) ext [] w
  = fetch_loop L sess after ext acc1
      (mkWorld (calls w1 ++ [fetch_call bad])
               (logs w1 ++ [processing_line bad; fetch_failed_line bad])).
Proof.
  intros Hb Hf Ht. rewrite fetch_loop_app, Hb.
  exact (fetch_loop_refused sess bad after ext acc1 w1 typ data Hf Ht).
Qed.

(** When every fetch of a batch is answered, the loop returns the records of
    the messages, identifier by identifier, after what it had. *)
Lemma batch_answers_run (sess : Session) (ext : pystr) h ids recs :
  batch_answers L sess ext h ids recs ->
  forall acc w, calls w = h ->
  exists l,
    fetch_loop L sess ids ext acc w
    = (Ok (acc ++ List.concat recs)%list,
       mkWorld (h ++ map fetch_call ids) (logs w ++ l)).
Proof.
  induction 1 as [h | h x ids typ data recs Hf Ht _ IH
                  | h x ids data m recs Hf Hm _ IH]; intros acc w Hw.
  - exists []. cbn. rewrite !app_nil_r. subst h. destruct w. reflexivity.
  - subst h. unfold fetch_call in *.
    rewrite (fetch_loop_refused sess x ids ext acc w typ data Hf Ht).
    destruct (IH acc (mkWorld (calls w ++ [Fetch x "(RFC822)"])
                        (logs w ++ [processing_line x; fetch_failed_line x]))
                eq_refl) as [l E].
    rewrite E. cbn [calls logs List.concat app map].
    eexists. rewrite <- !app_assoc. reflexivity.
  - subst h. unfold fetch_call in *.
    rewrite (fetch_loop_fetched sess x ids ext acc w data m Hf Hm).
    destruct (IH (acc ++ message_records ext m)%list
                (mkWorld (calls w ++ [Fetch x "(RFC822)"])
                   (logs w ++ processing_line x :: message_lines ext m))
                eq_refl) as [l E].
    rewrite E. cbn [calls logs List.concat app map].
    eexists. rewrite <- !app_assoc. reflexivity.
Qed.

(** C3. In a batch in which the fetch of one identifier is answered with a
    status other than [OK] and the fetches of the others are answered,
    [get_attachments_info] returns, without raising, the records of the
    identifiers before it followed by the records of the identifiers after
    it: the refused identifier adds no record, its failure is logged, and
    every identifier of the batch is fetched. *)
Theorem fetch_failure_is_isolated (sess : Session) (ext : pystr)
    (before : list pystr) (bad : pystr) (after : list pystr) (w : World)
    (recs1 recs2 : list (list Triple)) (typ : pystr) (data : list Item) :
  let h1 := (calls w ++ map fetch_call before)%list in
  batch_answers L sess ext (calls w) before recs1 ->
  sess (h1 ++ [fetch_call bad])%list = Ok (typ, data) ->
  typ <> "OK" ->
  batch_answers L sess ext (h1 ++ [fetch_call bad])%list after recs2 ->
  exists l1 l2,
    get_attachments_info L sess (before ++ bad :: after) ext w
    = (Ok (List.concat recs1 ++ List.concat recs2)%list,
       mkWorld (calls w ++ map fetch_call (before ++ bad :: after))
               (logs w ++ l1
                ++ [processing_line bad; fetch_failed_line bad] ++ l2
                ++ [completed_line
                      (List.length (List.concat recs1 ++ List.concat recs2))])).
Proof.
  intros h1 H1 Hf Ht H2.
  destruct (batch_answers_run sess ext _ _ _ H1 [] w eq_refl) as [l1 E1].
  cbn [app] in E1. fold h1 in E1.
  destruct (batch_answers_run sess ext _ _ _ H2 (List.concat recs1)
              (mkWorld (h1 ++ [fetch_call bad])
                 ((logs w ++ l1)
                  ++ [processing_line bad; fetch_failed_line bad]))
              eq_refl) as [l2 E2].
  exists l1, l2. unfold get_attachments_info, bind.
  rewrite (refused_fetch_skipped sess ext before bad after w
             (mkWorld h1 (logs w ++ l1)) (List.concat recs1) typ data
             E1 Hf Ht).
  cbn [calls logs]. rewrite E2. unfold logging. cbn [calls logs].
  unfold h1. rewrite map_app. cbn [map].
  rewrite <- !app_assoc. cbn [app]. reflexivity.
Qed.

(** C5. For a message that was fetched, [get_attachments_info] returns
    exactly the records of its matching parts: a triple is recorded if and
    only if some part that [walk] yields is not a multipart container, has
    a content disposition, and has a file name that is present, not empty,
    and is some text followed by the extension, character for character;
    the triple is the subject, the sender and that file name. *)
Theorem attachment_recorded_iff (sess : Session) (email_id ext : pystr)
    (w : World) (data : list Item) (m : Message) :
  sess (calls w ++ [Fetch email_id "(RFC822)"])%list = Ok ("OK", data) ->
  fetched_message L data = Ok m ->
  fst (get_attachments_info L sess [email_id] ext w)
  = Ok (message_records ext m)
  /\ forall t : Triple,
       In t (message_records ext m) <->
       exists part fn,
         In part (walk m)
         /\ get_content_maintype part <> "multipart"
         /\ get_content_disposition part <> None
         /\ get_filename part = Some fn
         /\ fn <> "" /\ (exists p, fn = p ++ ext)
         /\ t = (header_text (get_subject m), header_text (get_from m), fn).
Proof.
  intros Hf Hm. split.
  - unfold get_attachments_info, bind.
    rewrite (fetch_loop_fetched sess email_id [] ext [] w data m Hf Hm).
    reflexivity.
  - intros t. unfold message_records. rewrite in_map_iff. split.
    + intros (part & <- & Hin). apply filter_In in Hin.
      destruct Hin as [Hin Hp]. unfold is_matching_attachment in Hp.
      apply andb_prop in Hp. destruct Hp as [Hp H3].
      apply andb_prop in Hp. destruct Hp as [H1 H2].
      destruct (get_filename part) as [fn |] eqn:Ef; [| discriminate].
      apply andb_prop in H3. destruct H3 as [Hn He].
      exists part, fn. split; [exact Hin |]. split.
      { intros E. rewrite E in H1. discriminate H1. }
      split.
      { destruct (get_content_disposition part); [discriminate | discriminate]. }
      split; [exact Ef |]. split.
      { intros ->. discriminate Hn. }
      split; [apply endswith_spec; exact He |].
      unfold part_record. rewrite Ef. reflexivity.
    + intros (part & fn & Hin & H1 & H2 & Ef & Hn & Hs & ->).
      exists part. split.
      { unfold part_record. rewrite Ef. reflexivity. }
      apply filter_In. split; [exact Hin |].
      unfold is_matching_attachment. rewrite Ef.
      destruct (get_content_maintype part =? "multipart")%string eqn:E1.
      { apply String.eqb_eq in E1. contradiction. }
      destruct (get_content_disposition part); [| contradiction].
      destruct (fn =? "")%string eqn:E2.
      { apply String.eqb_eq in E2. contradiction. }
      apply endswith_spec in Hs. rewrite Hs. reflexivity.
Qed.

(** C10. Every triple that [get_attachments_info] returns has a file name
    that is not empty and ends with the extension; a part whose file name
    decodes to the empty string, or that has none, adds nothing. *)
Theorem recorded_filenames_end_with_extension (sess : Session)
    (ids : list pystr) (ext : pystr) (w w' : World) (l : list Triple) :
  get_attachments_info L sess ids ext w = (Ok l, w') ->
  Forall (good_filename ext) l
  /\ forall part sj fr acc w1,
       header_text (get_filename part) = "" ->
       fst (scan_parts L [part] sj fr ext acc w1) = Ok acc.
Proof.
  intros H. split.
  - unfold get_attachments_info, bind in H.
    destruct (fetch_loop L sess ids ext [] w) as [[l0 | ex] w0'] eqn:E;
      [| discriminate].
    cbn in H. injection H as <- _.
    exact (fetch_loop_good sess ext ids [] w l0 w0' (Forall_nil _) E).
  - intros part sj fr acc w1 He. rewrite scan_parts_run. cbn [fst filter].
    replace (is_matching_attachment ext part) with false.
    + cbn. rewrite app_nil_r. reflexivity.
    + unfold is_matching_attachment.
      destruct (get_filename part) as [f |];
        [| rewrite andb_false_r; reflexivity].
      cbn [header_text] in He. subst f. cbn [String.eqb negb andb].
      rewrite andb_false_r. reflexivity.
Qed.

End Attachments.

Lemma fetch_failure_is_isolated_witness :
  fst (get_attachments_info example_lib example_session ["1"; "2"; "3"]
         ".pdf" w0)
  = Ok [("Invoice for March", "billing@example.com", "invoice.pdf");
        ("Invoice for March", "billing@example.com", "invoice.pdf")]
  /\ In (fetch_failed_line "2")
        (logs (snd (get_attachments_info example_lib example_session
                      ["1"; "2"; "3"] ".pdf" w0))).
Proof.
  assert (Hno : "NO" <> "OK") by discriminate.
  assert (H1 : batch_answers example_lib example_session ".pdf" (calls w0)
                 ["1"] [message_records ".pdf" invoice_message]).
  { apply (answers_fetched _ _ _ _ "1" []
             [ITuple "1 (RFC822 {7}" "invoice"; IBytes ")"] invoice_message);
      [reflexivity | reflexivity | apply answers_nil]. }
  assert (H2 : batch_answers example_lib example_session ".pdf"
                 ((calls w0 ++ map fetch_call ["1"]) ++ [fetch_call "2"])
                 ["3"] [message_records ".pdf" invoice_message]).
  { apply (answers_fetched _ _ _ _ "3" []
             [ITuple "3 (RFC822 {7}" "invoice"; IBytes ")"] invoice_message);
      [reflexivity | reflexivity | apply answers_nil]. }
  destruct (fetch_failure_is_isolated example_lib example_session ".pdf"
              ["1"] "2" ["3"] w0 _ _ "NO" [IBytes "no such message"]
              H1 eq_refl Hno H2) as (l1 & l2 & H).
  change (["1"] ++ "2" :: ["3"])%list with ["1"; "2"; "3"] in H.
  rewrite H. split; [reflexivity |].
  cbn [snd logs]. apply in_or_app. right. apply in_or_app. right.
  right. left. reflexivity.
Defined.

Lemma attachment_recorded_iff_witness :
  fst (get_attachments_info example_lib example_session ["1"] ".pdf" w0)
  = Ok [("Invoice for March", "billing@example.com", "invoice.pdf")]
  /\ fst (get_attachments_info example_lib example_session ["1"] ".docx" w0)
     = Ok []
  /\ fst (get_attachments_info example_lib example_session ["1"] ".PDF" w0)
     = Ok [].
Proof.
  split; [| split].
  - exact (proj1 (attachment_recorded_iff example_lib example_session "1"
                    ".pdf" w0
                    [ITuple "1 (RFC822 {7}" "invoice"; IBytes ")"]
                    invoice_message eq_refl eq_refl)).
  - exact (proj1 (attachment_recorded_iff example_lib example_session "1"
                    ".docx" w0
                    [ITuple "1 (RFC822 {7}" "invoice"; IBytes ")"]
                    invoice_message eq_refl eq_refl)).
  - exact (proj1 (attachment_recorded_iff example_lib example_session "1"
                    ".PDF" w0
                    [ITuple "1 (RFC822 {7}" "invoice"; IBytes ")"]
                    invoice_message eq_refl eq_refl)).
Defined.

Lemma recorded_filenames_end_with_extension_witness :
  Forall (good_filename ".pdf")
    [("Invoice for March", "billing@example.com", "invoice.pdf");
     ("Invoice for March", "billing@example.com", "invoice.pdf")].
Proof.
  let v := eval vm_compute in
             (get_attachments_info example_lib example_session
                ["1"; "2"; "3"] ".pdf" w0) in
  assert (E : get_attachments_info example_lib example_session
                ["1"; "2"; "3"] ".pdf" w0 = v)
    by (vm_compute; reflexivity).
  exact (proj1 (recorded_filenames_end_with_extension example_lib
                  example_session ["1"; "2"; "3"] ".pdf" w0 _ _ E)).
Defined.

(** * Further properties *)

(** ** The order that validate_date_range checks *)

(** X1. A range that validates does not validate when its ends are
    exchanged: the exchanged call raises the range error. *)
Theorem validate_date_range_asymmetric (s e : pystr) :
  validate_date_range s e = Ok tt ->
  validate_date_range e s = Raise range_error.
Proof.
  intros V. destruct (validate_Ok_inv _ _ V) as (ds & de & Es & Ee & Hlt).
  unfold validate_date_range. rewrite Es, Ee.
  pose proof (strptime_valid _ _ Es) as Vs.
  pose proof (strptime_valid _ _ Ee) as Ve.
  apply (lt_toordinal ds de Vs Ve) in Hlt.
  replace (ge de ds) with true; [reflexivity |].
  symmetry. apply ge_toordinal; [assumption | assumption | lia].
Qed.

Lemma validate_date_range_asymmetric_witness :
  validate_date_range "04-Mar-2024" "01-Mar-2024" = Raise range_error.
Proof.
  exact (validate_date_range_asymmetric "01-Mar-2024" "04-Mar-2024" eq_refl).
Defined.

(** X2. Validated ranges chain: when [a]..[b] and [b]..[c] validate, so does
    [a]..[c]. *)
Theorem validate_date_range_transitive (a b c : pystr) :
  validate_date_range a b = Ok tt -> validate_date_range b c = Ok tt ->
  validate_date_range a c = Ok tt.
Proof.
  intros V1 V2.
  destruct (validate_Ok_inv _ _ V1) as (da & db & Ea & Eb & H1).
  destruct (validate_Ok_inv _ _ V2) as (db' & dc & Eb' & Ec & H2).
  assert (db' = db) by congruence. subst db'.
  pose proof (strptime_valid _ _ Ea) as Va.
  pose proof (strptime_valid _ _ Eb) as Vb.
  pose proof (strptime_valid _ _ Ec) as Vc.
  apply (lt_toordinal da db Va Vb) in H1.
  apply (lt_toordinal db dc Vb Vc) in H2.
  unfold validate_date_range. rewrite Ea, Ec.
  destruct (ge da dc) eqn:G; [| reflexivity].
  apply (ge_toordinal da dc Va Vc) in G. lia.
Qed.

Lemma validate_date_range_transitive_witness :
  validate_date_range "29-Feb-2024" "01-Jan-2025" = Ok tt.
Proof.
  exact (validate_date_range_transitive "29-Feb-2024" "1-mar-2024"
           "01-Jan-2025" eq_refl eq_refl).
Defined.

(** ** search_emails beyond the refused search *)

(** X3. A validated range that ends on 31-Dec-9999 cannot be searched: after
    the selection, adding the day overflows, [search_emails] raises
    [OverflowError] and no search is sent. *)
Theorem search_emails_overflow (L : PyLib) (sess : Session)
    (mailbox s e : pystr) (w : World) (r : Reply) :
  strptime e = Ok max_date -> validate_date_range s e = Ok tt ->
  sess (calls w ++ [Select mailbox])%list = Ok r ->
  search_emails L sess mailbox s e w
  = (Raise (mkExn OverflowError "date value out of range"),
     mkWorld (calls w ++ [Select mailbox]) (logs w)).
Proof.
  intros Ee V Hsel.
  destruct (validate_Ok_inv _ _ V) as (ds & de & Es & Ee' & _).
  unfold search_emails. rewrite V, Es, Ee. run_monad. rewrite Hsel.
  reflexivity.
Qed.

Lemma search_emails_overflow_witness :
  search_emails example_lib example_session "INBOX" "01-Mar-2024"
    "31-Dec-9999" w0
  = (Raise (mkExn OverflowError "date value out of range"),
     mkWorld [Select "INBOX"] []).
Proof.
  exact (search_emails_overflow example_lib example_session "INBOX"
           "01-Mar-2024" "31-Dec-9999" w0 ("OK", [IBytes "3"])
           eq_refl eq_refl eq_refl).
Defined.

Lemma split_from_tokens (s : pybytes) : forall tok,
  no_space tok = true ->
  Forall (fun t => t <> "" /\ no_space t = true) (split_from tok s).
Proof.
  induction s as [| c r IH]; intros tok Htok; cbn [split_from].
  - destruct (tok =? "")%string eqn:E; [constructor |].
    constructor; [| constructor]. split; [| exact Htok].
    intros ->. discriminate E.
  - destruct (is_space c) eqn:Ec.
    + destruct (tok =? "")%string eqn:E; [apply IH; reflexivity |].
      constructor; [| apply IH; reflexivity]. split; [| exact Htok].
      intros ->. discriminate E.
    + apply IH. clear IH. induction tok as [| a tok IHt]; cbn.
      * rewrite Ec. reflexivity.
      * cbn in Htok. apply andb_prop in Htok. destruct Htok as [Ha Ht].
        rewrite Ha. cbn. apply IHt. exact Ht.
Qed.

Lemma comprehension_length {A B} (f : A -> result B) (l : list A) :
  forall ys, comprehension f l = Ok ys -> List.length ys = List.length l.
Proof.
  induction l as [| x l IH]; intros ys; cbn [comprehension].
  - intros [= <-]. reflexivity.
  - destruct (f x) as [y |]; [| discriminate].
    destruct (comprehension f l) as [ys' |]; [| discriminate].
    intros [= <-]. cbn. f_equal. apply IH. reflexivity.
Qed.

(** X4. When the search is answered [OK] with a line of identifiers,
    [search_emails] logs nothing and returns the identifiers of that line
    alone: its whitespace-separated tokens, decoded, in order and one for
    one; none of the tokens is empty or contains whitespace, and the other
    items of the answer are not looked at. *)
Theorem search_emails_identifiers (L : PyLib) (sess : Session)
    (mailbox s e : pystr) (w : World) (ds de : datetime) (r : Reply)
    (b : pybytes) (others : list Item) :
  strptime s = Ok ds -> strptime e = Ok de ->
  validate_date_range s e = Ok tt -> de <> max_date ->
  let q := search_criterion (strftime ds) (strftime (next_day de)) in
  let h := (calls w ++ [Select mailbox; Search None q])%list in
  sess (calls w ++ [Select mailbox])%list = Ok r ->
  sess h = Ok ("OK", IBytes b :: others) ->
  search_emails L sess mailbox s e w
  = (comprehension (utf8_strict L) (split b), mkWorld h (logs w))
  /\ Forall (fun t => t <> "" /\ no_space t = true) (split b)
  /\ forall ids, comprehension (utf8_strict L) (split b) = Ok ids ->
                 List.length ids = List.length (split b).
Proof.
  intros Es Ee V Hmax q h Hsel Hsearch. split; [| split].
  - rewrite (search_emails_run L sess mailbox s e w ds de r Es Ee V Hmax Hsel).
    cbn [calls]. fold q. fold h. rewrite Hsearch. reflexivity.
  - apply split_from_tokens. reflexivity.
  - apply comprehension_length.
Qed.

Lemma search_emails_identifiers_witness :
  search_emails example_lib example_session "INBOX" "01-Mar-2024"
    "04-Mar-2024" w0
  = (Ok ["1"; "2"; "3"],
     mkWorld [Select "INBOX";
              Search None (search_criterion "01-Mar-2024" "05-Mar-2024")]
             []).
Proof.
  assert (Hmax : mkdate 2024 3 4 <> max_date) by discriminate.
  exact (proj1 (search_emails_identifiers example_lib example_session
                  "INBOX" "01-Mar-2024" "04-Mar-2024" w0
                  (mkdate 2024 3 1) (mkdate 2024 3 4) ("OK", [IBytes "3"])
                  "1 2 3" [] eq_refl eq_refl eq_refl Hmax eq_refl eq_refl)).
Defined.

(** X5. When the search is answered [OK] but its data carry no line of
    identifiers (no item at all, or [None], which [imaplib] gives when the
    server sent no [SEARCH] response), [search_emails] does not return the
    empty list: it raises [IndexError] or [AttributeError], after both
    commands were sent and without logging. *)
Theorem search_emails_without_line (L : PyLib) (sess : Session)
    (mailbox s e : pystr) (w : World) (ds de : datetime) (r : Reply)
    (data : list Item) :
  strptime s = Ok ds -> strptime e = Ok de ->
  validate_date_range s e = Ok tt -> de <> max_date ->
  let q := search_criterion (strftime ds) (strftime (next_day de)) in
  let h := (calls w ++ [Select mailbox; Search None q])%list in
  sess (calls w ++ [Select mailbox])%list = Ok r ->
  sess h = Ok ("OK", data) ->
  data = [] \/ (exists others, data = INone :: others) ->
  exists ex,
    search_emails L sess mailbox s e w = (Raise ex, mkWorld h (logs w))
    /\ exn_class ex = (match data with [] => IndexError | _ => AttributeError end).
Proof.
  intros Es Ee V Hmax q h Hsel Hsearch Hdata.
  rewrite (search_emails_run L sess mailbox s e w ds de r Es Ee V Hmax Hsel).
  cbn [calls]. fold q. fold h. rewrite Hsearch.
  destruct Hdata as [-> | [others ->]]; eexists; split; reflexivity.
Qed.

Lemma search_emails_without_line_witness :
  exists ex,
    search_emails example_lib (fun _ => Ok ("OK", [INone])) "INBOX"
      "01-Mar-2024" "04-Mar-2024" w0
    = (Raise ex,
       mkWorld [Select "INBOX";
                Search None (search_criterion "01-Mar-2024" "05-Mar-2024")]
               [])
    /\ exn_class ex = AttributeError.
Proof.
  assert (Hmax : mkdate 2024 3 4 <> max_date) by discriminate.
  exact (search_emails_without_line example_lib (fun _ => Ok ("OK", [INone]))
           "INBOX" "01-Mar-2024" "04-Mar-2024" w0
           (mkdate 2024 3 1) (mkdate 2024 3 4) ("OK", [INone]) [INone]
           eq_refl eq_refl eq_refl Hmax eq_refl eq_refl
           (or_intror (ex_intro _ [] eq_refl))).
Defined.

(** ** decode_text with a charset that is not known *)

(** X6. The fallback of [decode_text] is outside its [try]: when decoding the
    header of a [bytes] value raises and the charset names no codec, the
    [LookupError] of the fallback leaves [decode_text], after the error line
    was logged. *)
Theorem decode_text_unknown_charset (L : PyLib) (b : pybytes)
    (charset : pystr) (w : World) (ex : Exn) :
  header_to_str L b = Raise ex ->
  charset <> "utf-8" -> other_codecs L charset = None ->
  decode_text L (PyBytes b) charset w
  = (Raise (mkExn LookupError ("unknown encoding: " ++ charset)),
     mkWorld (calls w) (logs w ++ [(ERROR, decode_error ex charset)])).
Proof.
  intros Hh Hc Ho. unfold decode_text, try_except, any_Exception. run_monad.
  rewrite Hh. unfold decode_replace. rewrite Ho.
  destruct (charset =? "utf-8")%string eqn:E; [| reflexivity].
  apply String.eqb_eq in E. contradiction.
Qed.

Lemma decode_text_unknown_charset_witness :
  fst (decode_text example_lib (PyBytes "Invoice") "klingon" w0)
  = Raise (mkExn LookupError "unknown encoding: klingon").
Proof.
  assert (Hc : "klingon" <> "utf-8") by discriminate.
  rewrite (decode_text_unknown_charset example_lib "Invoice" "klingon" w0
             _ eq_refl Hc eq_refl).
  reflexivity.
Defined.

(** ** get_attachments_info on whole batches *)

(** X7. When every fetch of a batch is answered, with a message or with a
    refusal, [get_attachments_info] returns the records of the messages in
    the order of the identifiers, duplicates included; it sends one fetch
    per identifier, in order, and nothing else; and the count in the last
    log line is the length of the list it returns. *)
Theorem get_attachments_info_batch (L : PyLib) (sess : Session)
    (ext : pystr) (ids : list pystr) (w : World)
    (recs : list (list Triple)) :
  batch_answers L sess ext (calls w) ids recs ->
  exists l,
    get_attachments_info L sess ids ext w
    = (Ok (List.concat recs),
       mkWorld (calls w ++ map fetch_call ids)
               (logs w ++ l
                ++ [completed_line (List.length (List.concat recs))])).
Proof.
  intros H.
  destruct (batch_answers_run L sess ext _ _ _ H [] w eq_refl) as [l E].
  exists l. unfold get_attachments_info, bind. rewrite E.
  unfold logging. cbn [calls logs app]. rewrite <- app_assoc. reflexivity.
Qed.

Lemma get_attachments_info_batch_witness :
  exists l,
    get_attachments_info example_lib example_session ["3"; "2"; "2"; "1"]
      ".pdf" w0
    = (Ok [("Invoice for March", "billing@example.com", "invoice.pdf");
           ("Invoice for March", "billing@example.com", "invoice.pdf")],
       mkWorld [fetch_call "3"; fetch_call "2"; fetch_call "2";
                fetch_call "1"]
               (l ++ [completed_line 2])).
Proof.
  assert (Hno : "NO" <> "OK") by discriminate.
  assert (H : batch_answers example_lib example_session ".pdf" (calls w0)
                ["3"; "2"; "2"; "1"]
                [message_records ".pdf" invoice_message; []; [];
                 message_records ".pdf" invoice_message]).
  { apply (answers_fetched _ _ _ _ "3" _
             [ITuple "3 (RFC822 {7}" "invoice"; IBytes ")"] invoice_message);
      [reflexivity | reflexivity |].
    apply (answers_refused _ _ _ _ "2" _ "NO" [IBytes "no such message"]);
      [reflexivity | exact Hno |].
    apply (answers_refused _ _ _ _ "2" _ "NO" [IBytes "no such message"]);
      [reflexivity | exact Hno |].
    apply (answers_fetched _ _ _ _ "1" _
             [ITuple "1 (RFC822 {7}" "invoice"; IBytes ")"] invoice_message);
      [reflexivity | reflexivity | apply answers_nil]. }
  destruct (get_attachments_info_batch example_lib example_session ".pdf"
              ["3"; "2"; "2"; "1"] w0 _ H) as [l E].
  exists l. exact E.
Defined.

Lemma fetch_loop_raises L sess email_id rest ext acc w ex :
  sess (calls w ++ [fetch_call email_id])%list = Raise ex
  \/ (exists data,
        sess (calls w ++ [fetch_call email_id])%list = Ok ("OK", data)
        /\ fetched_message L data = Raise ex) ->
  fetch_loop L sess (email_id :: rest) ext acc w
  = (Raise ex, mkWorld (calls w ++ [fetch_call email_id])
                       (logs w ++ [processing_line email_id])).
Proof.
  unfold fetch_call. intros [H | (data & H & Hm)];
    cbn [fetch_loop]; run_monad; rewrite H.
  - reflexivity.
  - cbn [String.eqb Ascii.eqb Bool.eqb negb]. rewrite Hm. reflexivity.
Qed.

(** X8. A fetch that raises, or that is answered [OK] without a message
    (no item, [None], or no header and body pair), ends the whole batch:
    [get_attachments_info] raises that exception, the records collected
    from the identifiers before it are not returned, the identifiers after
    it are never fetched, and the closing line is not logged. *)
Theorem get_attachments_info_aborts (L : PyLib) (sess : Session)
    (ext : pystr) (before : list pystr) (bad : pystr) (after : list pystr)
    (w : World) (recs : list (list Triple)) (ex : Exn) :
  let h := (calls w ++ map fetch_call before ++ [fetch_call bad])%list in
  batch_answers L sess ext (calls w) before recs ->
  sess h = Raise ex
  \/ (exists data, sess h = Ok ("OK", data)
                   /\ fetched_message L data = Raise ex) ->
  exists l,
    get_attachments_info L sess (before ++ bad :: after) ext w
    = (Raise ex, mkWorld h (logs w ++ l ++ [processing_line bad])).
Proof.
  intros h Hb Hbad.
  destruct (batch_answers_run L sess ext _ _ _ Hb [] w eq_refl) as [l E].
  exists l. unfold get_attachments_info, bind.
  rewrite fetch_loop_app, E.
  rewrite (fetch_loop_raises L sess bad after ext _ _ ex).
  - cbn [calls logs]. unfold h. rewrite <- !app_assoc. reflexivity.
  - cbn [calls]. unfold h in Hbad. rewrite app_assoc in Hbad. exact Hbad.
Qed.

Lemma get_attachments_info_aborts_witness :
  exists l,
    get_attachments_info example_lib vanished_session ["1"; "2"; "3"]
      ".pdf" w0
    = (Raise (mkExn TypeError "'NoneType' object is not subscriptable"),
       mkWorld [fetch_call "1"; fetch_call "2"]
               (l ++ [processing_line "2"])).
Proof.
  assert (H : batch_answers example_lib vanished_session ".pdf" (calls w0)
                ["1"] [message_records ".pdf" invoice_message]).
  { apply (answers_fetched _ _ _ _ "1" _
             [ITuple "1 (RFC822 {7}" "invoice"; IBytes ")"] invoice_message);
      [reflexivity | reflexivity | apply answers_nil]. }
  destruct (get_attachments_info_aborts example_lib vanished_session ".pdf"
              ["1"] "2" ["3"] w0 _
              (mkExn TypeError "'NoneType' object is not subscriptable") H
              (or_intror (ex_intro _ [INone] (conj eq_refl eq_refl))))
    as [l E].
  exists l. exact E.
Defined.

(** The log is write-only: a run from a world with log [l] is the run from
    the same commands and an empty log, with [l] in front. *)
Lemma fetch_loop_frame L sess ext (ids : list pystr) :
  forall acc c l,
    fetch_loop L sess ids ext acc (mkWorld c l)
    = (fst (fetch_loop L sess ids ext acc (mkWorld c [])),
       mkWorld (calls (snd (fetch_loop L sess ids ext acc (mkWorld c []))))
               (l ++ logs (snd (fetch_loop L sess ids ext acc
                                  (mkWorld c []))))).
Proof.
  induction ids as [| x ids IH]; intros acc c l.
  - cbn. rewrite app_nil_r. reflexivity.
  - cbn [fetch_loop]. run_monad.
    destruct (sess (c ++ [Fetch x "(RFC822)"])%list) as [[typ data] | ex];
      [| reflexivity].
    destruct (negb (typ =? "OK")%string).
    + rewrite IH. symmetry. rewrite IH. cbn [fst snd calls logs].
      rewrite <- !app_assoc. reflexivity.
    + destruct (fetched_message L data) as [m | ex]; [| reflexivity].
      rewrite !decode_text_header. cbn [calls logs].
      rewrite !scan_parts_run. cbn [calls logs].
      rewrite IH. symmetry. rewrite IH. cbn [fst snd calls logs].
      rewrite <- !app_assoc. reflexivity.
Qed.

Lemma fetch_loop_same_commands L sess ext ids acc (w w' : World) :
  calls w = calls w' ->
  fst (fetch_loop L sess ids ext acc w) = fst (fetch_loop L sess ids ext acc w')
  /\ calls (snd (fetch_loop L sess ids ext acc w))
     = calls (snd (fetch_loop L sess ids ext acc w')).
Proof.
  destruct w as [c l], w' as [c' l']. cbn [calls]. intros <-.
  rewrite (fetch_loop_frame L sess ext ids acc c l).
  rewrite (fetch_loop_frame L sess ext ids acc c l').
  split; reflexivity.
Qed.

(** X9. A batch can be cut in two: when a first call returns [l1] and a
    second call on the same session, for further identifiers, returns [l2],
    one call for all the identifiers returns [l1 ++ l2] and leaves the
    session with the same commands sent. *)
Theorem get_attachments_info_app (L : PyLib) (sess : Session) (ext : pystr)
    (xs ys : list pystr) (w w1 w2 : World) (l1 l2 : list Triple) :
  get_attachments_info L sess xs ext w = (Ok l1, w1) ->
  get_attachments_info L sess ys ext w1 = (Ok l2, w2) ->
  fst (get_attachments_info L sess (xs ++ ys) ext w) = Ok (l1 ++ l2)%list
  /\ calls (snd (get_attachments_info L sess (xs ++ ys) ext w)) = calls w2.
Proof.
  unfold get_attachments_info, bind, logging. intros H1 H2.
  destruct (fetch_loop L sess xs ext [] w) as [[a1 | e1] v1] eqn:E1;
    [| discriminate].
  cbn in H1. injection H1 as <- <-.
  destruct (fetch_loop L sess ys ext [] _) as [[a2 | e2] v2] eqn:E2;
    [| discriminate].
  cbn in H2. injection H2 as <- <-.
  rewrite fetch_loop_app, E1, fetch_loop_acc.
  match type of E2 with
  | fetch_loop _ _ _ _ _ ?wa = _ =>
      destruct (fetch_loop_same_commands L sess ext ys [] v1 wa eq_refl)
        as [Hr Hc]
  end.
  rewrite E2 in Hr, Hc. cbn [fst snd] in Hr, Hc.
  destruct (fetch_loop L sess ys ext [] v1) as [[a2' | e2'] v2'];
    cbn [fst snd] in Hr, Hc; [| discriminate].
  injection Hr as ->. cbn. split; [reflexivity | exact Hc].
Qed.

Lemma get_attachments_info_app_witness :
  fst (get_attachments_info example_lib example_session (["1"] ++ ["2"; "3"])
         ".pdf" w0)
  = Ok [("Invoice for March", "billing@example.com", "invoice.pdf");
        ("Invoice for March", "billing@example.com", "invoice.pdf")].
Proof.
  let v := eval vm_compute in
             (get_attachments_info example_lib example_session ["1"] ".pdf"
                w0) in
  assert (E1 : get_attachments_info example_lib example_session ["1"] ".pdf"
                 w0 = v) by (vm_compute; reflexivity).
  match type of E1 with
  | _ = (_, ?w1) =>
      let v := eval vm_compute in
                 (get_attachments_info example_lib example_session
                    ["2"; "3"] ".pdf" w1) in
      assert (E2 : get_attachments_info example_lib example_session
                     ["2"; "3"] ".pdf" w1 = v) by (vm_compute; reflexivity)
  end.
  exact (proj1 (get_attachments_info_app example_lib example_session ".pdf"
                  ["1"] ["2"; "3"] w0 _ _ _ _ E1 E2)).
Defined.

(** ** The extension filter *)

Lemma endswith_longer (f p ext : pystr) :
  endswith f (p ++ ext) = true -> endswith f ext = true.
Proof.
  intros H. apply endswith_spec in H. destruct H as [q ->].
  apply endswith_spec. exists (q ++ p). symmetry. apply append_assoc_str.
Qed.

Lemma is_matching_longer (p ext : pystr) (part : Message) :
  is_matching_attachment (p ++ ext) part
  = is_matching_attachment ext part
    && ends_with (p ++ ext) (part_record "" "" part).
Proof.
  unfold is_matching_attachment, ends_with, part_record, filename_of.
  cbn [snd].
  destruct (negb (get_content_maintype part =? "multipart")%string);
    [| reflexivity].
  destruct (get_content_disposition part); [| reflexivity].
  cbn [andb]. destruct (get_filename part) as [f |]; [| reflexivity].
  cbn [header_text]. destruct (negb (f =? "")%string); [| reflexivity].
  cbn [andb]. destruct (endswith f (p ++ ext)) eqn:E.
  - rewrite (endswith_longer f p ext E). reflexivity.
  - rewrite andb_false_r. reflexivity.
Qed.

Lemma message_records_longer (p ext : pystr) (m : Message) :
  message_records (p ++ ext) m
  = filter (ends_with (p ++ ext)) (message_records ext m).
Proof.
  unfold message_records.
  generalize (header_text (get_subject m)) (header_text (get_from m)).
  intros sj fr. induction (walk m) as [| part parts IH]; [reflexivity |].
  cbn [filter]. rewrite is_matching_longer.
  destruct (is_matching_attachment ext part); cbn [andb map filter].
  - change (ends_with (p ++ ext) (part_record sj fr part))
      with (ends_with (p ++ ext) (part_record "" "" part)).
    destruct (ends_with (p ++ ext) (part_record "" "" part));
      cbn [map]; rewrite IH; reflexivity.
  - exact IH.
Qed.

Lemma fetch_loop_longer L sess (p ext : pystr) (ids : list pystr) :
  forall acc wa wb l2 w2,
    calls wa = calls wb ->
    fetch_loop L sess ids ext acc wb = (Ok l2, w2) ->
    exists w1,
      fetch_loop L sess ids (p ++ ext) (filter (ends_with (p ++ ext)) acc) wa
      = (Ok (filter (ends_with (p ++ ext)) l2), w1)
      /\ calls w1 = calls w2.
Proof.
  induction ids as [| x ids IH]; intros acc wa wb l2 w2 Hc.
  - cbn. intros [= <- <-]. eexists. split; [reflexivity | exact Hc].
  - cbn [fetch_loop]. run_monad. rewrite Hc.
    destruct (sess (calls wb ++ [Fetch x "(RFC822)"])%list)
      as [[typ data] | ex]; [| discriminate].
    destruct (negb (typ =? "OK")%string).
    + apply IH. reflexivity.
    + destruct (fetched_message L data) as [m | ex]; [| discriminate].
      rewrite !decode_text_header. cbn [calls logs].
      rewrite !scan_parts_run. cbn [calls logs]. intros H.
      fold (message_records (p ++ ext) m). rewrite message_records_longer.
      rewrite <- filter_app.
      fold (message_records ext m) in H.
      eapply IH; [| exact H]. reflexivity.
Qed.

(** X10. Asking for a longer extension returns a selection of what the
    shorter one returns: when a batch returns [l] for [ext], the same batch
    asked for [p ++ ext] returns the triples of [l] whose file names end
    with [p ++ ext], in the same order, having sent the same commands.  In
    particular the empty extension returns every attachment that has a file
    name. *)
Theorem get_attachments_info_longer_extension (L : PyLib) (sess : Session)
    (p ext : pystr) (ids : list pystr) (w w2 : World) (l : list Triple) :
  get_attachments_info L sess ids ext w = (Ok l, w2) ->
  fst (get_attachments_info L sess ids (p ++ ext) w)
  = Ok (filter (ends_with (p ++ ext)) l)
  /\ calls (snd (get_attachments_info L sess ids (p ++ ext) w)) = calls w2.
Proof.
  unfold get_attachments_info, bind, logging. intros H.
  destruct (fetch_loop L sess ids ext [] w) as [[a | e] v] eqn:E;
    [| discriminate].
  cbn in H. injection H as <- <-.
  destruct (fetch_loop_longer L sess p ext ids [] w w a v eq_refl E)
    as (w1 & E1 & Hc).
  cbn [filter] in E1. rewrite E1. cbn. split; [reflexivity | exact Hc].
Qed.

Lemma get_attachments_info_longer_extension_witness :
  fst (get_attachments_info example_lib example_session ["1"; "2"; "3"]
         ("voice.pdf" ++ "") w0)
  = Ok [("Invoice for March", "billing@example.com", "invoice.pdf");
        ("Invoice for March", "billing@example.com", "invoice.pdf")].
Proof.
  let v := eval vm_compute in
             (get_attachments_info example_lib example_session
                ["1"; "2"; "3"] "" w0) in
  assert (E : get_attachments_info example_lib example_session
                ["1"; "2"; "3"] "" w0 = v) by (vm_compute; reflexivity).
  exact (proj1 (get_attachments_info_longer_extension example_lib
                  example_session "voice.pdf" "" ["1"; "2"; "3"] w0 _ _ E)).
Defined.

(** ** Nested parts *)

Lemma part_of_walk (p m : Message) : part_of p m -> In p (walk m).
Proof.
  induction 1 as [m | p c m Hc _ IH].
  - destruct m. left. reflexivity.
  - destruct m as [t d f sj fr payload]. cbn [get_payload] in Hc.
    cbn [walk]. right. apply in_flat_map. exists c. split; assumption.
Qed.

(** X11. An attachment is found at any depth: when a part of a fetched
    message, however deep in nested containers, is not a multipart
    container, has a content disposition and a non-empty file name ending
    with the extension, its file name is returned, with the subject and the
    sender of the outermost message and not those of an enclosing nested
    message. *)
Theorem nested_attachment_recorded (L : PyLib) (sess : Session)
    (email_id ext : pystr) (w : World) (data : list Item) (m p : Message)
    (fn : pystr) :
  sess (calls w ++ [fetch_call email_id])%list = Ok ("OK", data) ->
  fetched_message L data = Ok m ->
  part_of p m ->
  get_content_maintype p <> "multipart" ->
  get_content_disposition p <> None ->
  get_filename p = Some fn -> fn <> "" -> endswith fn ext = true ->
  exists l,
    fst (get_attachments_info L sess [email_id] ext w) = Ok l
    /\ In (header_text (get_subject m), header_text (get_from m), fn) l.
Proof.
  intros Hf Hm Hp H1 H2 Ef Hn He.
  exists (message_records ext m). split.
  - unfold get_attachments_info, bind.
    rewrite (fetch_loop_fetched L sess email_id [] ext [] w data m Hf Hm).
    reflexivity.
  - unfold message_records. apply in_map_iff. exists p. split.
    + unfold part_record. rewrite Ef. reflexivity.
    + apply filter_In. split; [exact (part_of_walk p m Hp) |].
      unfold is_matching_attachment. rewrite Ef, He.
      destruct (get_content_maintype p =? "multipart")%string eqn:E1.
      { apply String.eqb_eq in E1. contradiction. }
      destruct (get_content_disposition p); [| contradiction].
      destruct (fn =? "")%string eqn:E2.
      { apply String.eqb_eq in E2. contradiction. }
      reflexivity.
Qed.

Lemma nested_attachment_recorded_witness :
  exists l,
    fst (get_attachments_info forwarded_lib example_session ["1"] ".pdf" w0)
    = Ok l
    /\ In ("Fwd: your invoice", "alice@example.com", "invoice.pdf") l.
Proof.
  assert (Hp : part_of invoice_part forwarded_message).
  { eapply part_nested; [right; left; reflexivity |].
    eapply part_nested; [right; left; reflexivity |]. apply part_self. }
  assert (H1 : get_content_maintype invoice_part <> "multipart")
    by discriminate.
  assert (H2 : get_content_disposition invoice_part <> None) by discriminate.
  assert (Hn : "invoice.pdf" <> "") by discriminate.
  exact (nested_attachment_recorded forwarded_lib example_session "1" ".pdf"
           w0 [ITuple "1 (RFC822 {7}" "invoice"; IBytes ")"]
           forwarded_message invoice_part "invoice.pdf"
           eq_refl eq_refl Hp H1 H2 eq_refl Hn eq_refl).
Defined.

(** ** connect_to_imap_server, all outcomes *)

(** X12. [connect_to_imap_server] returns a session only after a login that
    was answered [OK]: the session is the one the constructor gave, the
    credentials were sent once, as the only command, and the success line
    is the only line logged. *)
Theorem connect_returns_logged_in_session
    (IMAP4_SSL : pystr -> result Session) (server username password : pystr)
    (w w' : World) (sess : Session) :
  connect_to_imap_server IMAP4_SSL server username password w
  = (Ok (Some sess), w') ->
  IMAP4_SSL server = Ok sess
  /\ (exists data,
        sess (calls w ++ [Login username password])%list = Ok ("OK", data))
  /\ w' = mkWorld (calls w ++ [Login username password])
                  (logs w ++ [(INFO, "IMAP connection successful")]).
Proof.
  unfold connect_to_imap_server, try_except. run_monad.
  destruct (IMAP4_SSL server) as [s |ex].
  - destruct (s (calls w ++ [Login username password])%list)
      as [[typ data] | ex] eqn:El.
    + destruct (typ =? "OK")%string eqn:E; cbn [negb].
      * apply String.eqb_eq in E. subst typ. intros [= <- <-].
        split; [reflexivity |]. split; [exists data; exact El | reflexivity].
      * discriminate.
    + cbn [calls logs]. destruct (is_IMAP4_error (exn_class ex)); discriminate.
  - destruct (is_IMAP4_error (exn_class ex)); discriminate.
Qed.

Lemma connect_returns_logged_in_session_witness :
  example_host "imap.example.com" = Ok example_session
  /\ (exists data,
        example_session (calls w0 ++ [Login "user" "secret"])%list
        = Ok ("OK", data)).
Proof.
  let v := eval vm_compute in
             (snd (connect_to_imap_server example_host "imap.example.com"
                     "user" "secret" w0)) in
  destruct (connect_returns_logged_in_session example_host
              "imap.example.com" "user" "secret" w0 v example_session
              eq_refl) as (H1 & H2 & _).
  split; [exact H1 | exact H2].
Defined.

(** X13. Whenever [connect_to_imap_server] returns [None], it has logged an
    error line, and the session, if one was opened, was sent the login and
    nothing after it: it is not logged out. *)
Theorem connect_failure_is_logged
    (IMAP4_SSL : pystr -> result Session) (server username password : pystr)
    (w w' : World) :
  connect_to_imap_server IMAP4_SSL server username password w
  = (Ok None, w') ->
  (exists msg, logs w' = (logs w ++ [(ERROR, msg)])%list)
  /\ (calls w' = calls w
      \/ calls w' = (calls w ++ [Login username password])%list).
Proof.
  unfold connect_to_imap_server, try_except. run_monad.
  destruct (IMAP4_SSL server) as [s |ex].
  - destruct (s (calls w ++ [Login username password])%list)
      as [[typ data] | ex] eqn:El.
    + destruct (typ =? "OK")%string eqn:E; cbn [negb]; [discriminate |].
      intros [= <-]. cbn [calls logs].
      split; [eexists; reflexivity | right; reflexivity].
    + cbn [calls logs].
      destruct (is_IMAP4_error (exn_class ex)); [| discriminate].
      intros [= <-]. cbn [calls logs].
      split; [eexists; reflexivity | right; reflexivity].
  - destruct (is_IMAP4_error (exn_class ex)); [| discriminate].
    intros [= <-]. cbn [calls logs].
    split; [eexists; reflexivity | left; reflexivity].
Qed.

Lemma connect_failure_is_logged_witness :
  exists msg,
    logs (snd (connect_to_imap_server (fun _ => Ok dropped_session)
                 "imap.example.com" "user" "secret" w0))
    = [(ERROR, msg)].
Proof.
  let v := eval vm_compute in
             (snd (connect_to_imap_server (fun _ => Ok dropped_session)
                     "imap.example.com" "user" "secret" w0)) in
  destruct (connect_failure_is_logged (fun _ => Ok dropped_session)
              "imap.example.com" "user" "secret" w0 v eq_refl)
    as [[msg H] _].
  exists msg. exact H.
Defined.

(** ** list_mailboxes *)

Lemma split_sep_absent (sep : pystr) (s : pystr) : forall cur,
  contains sep s = false -> split_sep sep 0 cur s = [cur ++ s].
Proof.
  induction s as [| c r IH]; intros cur H.
  - cbn. rewrite append_empty_r. reflexivity.
  - cbn [contains] in H. apply orb_false_elim in H. destruct H as [Hp Hr].
    cbn [split_sep]. rewrite Hp. rewrite (IH _ Hr).
    rewrite append_assoc_str. reflexivity.
Qed.

Lemma prefix_separator_quote (c d : ascii) (r : pystr) :
  prefix list_separator (String c (String d r)) = true ->
  d = ascii_of_nat 34.
Proof.
  unfold list_separator, dquote. cbn [append prefix].
  destruct (ascii_dec " " c); [| discriminate].
  destruct (ascii_dec (ascii_of_nat 34) d) as [E |]; [| discriminate].
  intros _. symmetry. exact E.
Qed.

Lemma split_sep_cons (sep cur : pystr) (c : ascii) (r : pystr) :
  split_sep sep 0 cur (String c r)
  = if prefix sep (String c r)
    then cur :: split_sep sep (String.length sep - 1) "" r
    else split_sep sep 0 (cur ++ String c "") r.
Proof. reflexivity. Qed.

Lemma split_sep_skip (sep : pystr) (s : pystr) : forall cur t,
  split_sep sep (String.length s) cur (s ++ t) = split_sep sep 0 cur t
  \/ t = "".
Proof.
  induction s as [| c s IH]; intros cur t.
  - left. destruct t; reflexivity.
  - cbn [String.length append split_sep]. apply IH.
Qed.

Lemma prefix_append (s t : string) : prefix s (s ++ t) = true.
Proof.
  induction s as [| c s IH]; [destruct t; reflexivity |].
  cbn [append prefix].
  destruct (ascii_dec c c) as [_ | N]; [exact IH | now contradiction N].
Qed.

Lemma split_sep_attributes (name : pystr) (a : pystr) : forall cur,
  no_dquote a = true ->
  split_sep list_separator 0 cur (a ++ list_separator ++ name)
  = (cur ++ a) :: split_sep list_separator 0 "" name.
Proof.
  induction a as [| c a IH]; intros cur Ha.
  - rewrite append_empty_r. cbn [append].
    set (tail := dquote ++ "/" ++ dquote ++ " ").
    change (list_separator ++ name) with (String " " (tail ++ name)).
    rewrite split_sep_cons.
    change (String " " (tail ++ name)) with (list_separator ++ name).
    rewrite prefix_append.
    change (String.length list_separator - 1)%nat with (String.length tail).
    destruct name as [| x name'].
    + rewrite append_empty_r. reflexivity.
    + destruct (split_sep_skip list_separator tail "" (String x name'))
        as [E | E]; [rewrite E; reflexivity | discriminate E].
  - cbn [no_dquote] in Ha. apply andb_prop in Ha. destruct Ha as [Hc Ha].
    cbn [append]. rewrite split_sep_cons.
    destruct (prefix list_separator (String c (a ++ list_separator ++ name)))
      eqn:P.
    + exfalso. destruct a as [| d a'].
      * cbn [append] in P. unfold list_separator at 2 in P.
        cbn [append] in P. apply prefix_separator_quote in P. discriminate P.
      * cbn [append] in P. apply prefix_separator_quote in P. subst d.
        cbn [no_dquote] in Ha. rewrite Ascii.eqb_refl in Ha. discriminate Ha.
    + rewrite (IH _ Ha). rewrite append_assoc_str. reflexivity.
Qed.

Lemma listed_field (attributes name : pystr) :
  no_dquote attributes = true -> contains list_separator name = false ->
  getitem1 (str_split (attributes ++ list_separator ++ name) list_separator)
  = Ok name.
Proof.
  intros Ha Hn. unfold str_split.
  rewrite (split_sep_attributes name attributes "" Ha).
  rewrite (split_sep_absent _ _ "" Hn). reflexivity.
Qed.

Lemma log_mailboxes_listed L E items names :
  listed L E items names ->
  forall w,
    log_mailboxes L E items w
    = (Ok tt, mkWorld (calls w) (logs w ++ map mailbox_line names)).
Proof.
  induction 1 as [| b a name shown items names Hb Ha Hn Hs _ IH]; intros w.
  - cbn. rewrite app_nil_r. destruct w. reflexivity.
  - cbn [log_mailboxes item_decode]. run_monad.
    rewrite Hb, (listed_field a name Ha Hn), Hs, IH.
    cbn [calls logs map]. rewrite <- app_assoc. reflexivity.
Qed.



Lemma log_mailboxes_app L E (xs ys : list Item) : forall w,
  log_mailboxes L E (xs ++ ys) w
  = match log_mailboxes L E xs w with
    | (Ok _, w') => log_mailboxes L E ys w'
    | (Raise ex, w') => (Raise ex, w')
    end.
Proof.
  induction xs as [| x xs IH]; intros w; [reflexivity |].
  cbn [app log_mailboxes]. run_monad.
  destruct (item_decode L x) as [text |]; [| reflexivity].
  destruct (getitem1 (str_split text list_separator)) as [field |];
    [| reflexivity].
  destruct (header_of_str E field) as [shown |]; [| reflexivity].
  apply IH.
Qed.

(** X15. A line of the listing that is [None] (what [imaplib] gives for an
    account without mailboxes) or that does not contain [ "/" ] (a server
    whose hierarchy delimiter is not [/]) makes [list_mailboxes] raise, with
    [AttributeError] or [IndexError]: the lines before it are logged, the
    lines after it are not, and nothing is sent to the session. *)
Theorem list_mailboxes_bad_line (L : PyLib) (E : Lister) (w : World)
    (items : list Item) (names : list pystr) (bad : Item)
    (rest : list Item) :
  list_answer E (calls w) = Ok ("OK", items ++ bad :: rest)%list ->
  listed L E items names ->
  bad = INone
  \/ (exists b text, bad = IBytes b /\ utf8_strict L b = Ok text
                     /\ contains list_separator text = false) ->
  exists ex,
    list_mailboxes L E w
    = (Raise ex,
       mkWorld (calls w)
               (logs w ++ (INFO, "Mailboxes available:")
                          :: map mailbox_line names))
    /\ exn_class ex = (match bad with
                       | INone => AttributeError
                       | _ => IndexError
                       end).
Proof.
  intros Hl Hi Hbad. unfold list_mailboxes, imap_list. run_monad. rewrite Hl.
  cbn [String.eqb Ascii.eqb Bool.eqb].
  rewrite log_mailboxes_app, (log_mailboxes_listed L E items names Hi).
  cbn [log_mailboxes]. run_monad.
  destruct Hbad as [-> | (b & text & -> & Hb & Hc)].
  - cbn [item_decode]. eexists.
    split; [rewrite <- app_assoc; reflexivity | reflexivity].
  - cbn [item_decode]. rewrite Hb. unfold str_split.
    rewrite (split_sep_absent _ _ "" Hc). cbn [getitem1]. eexists.
    split; [rewrite <- app_assoc; reflexivity | reflexivity].
Qed.

Lemma list_mailboxes_bad_line_witness :
  exists ex,
    list_mailboxes example_lib dot_lister w0
    = (Raise ex, mkWorld [] [(INFO, "Mailboxes available:")])
    /\ exn_class ex = IndexError.
Proof.
  refine (list_mailboxes_bad_line example_lib dot_lister w0 [] []
            (IBytes ("(\HasNoChildren) " ++ quoted "." ++ " "
                     ++ quoted "INBOX")) [] eq_refl (listed_nil _ _) _).
  right. eexists _, _. split; [reflexivity |]. split; reflexivity.
Defined.

(** ** main *)

Lemma log_mailboxes_calls L E (items : list Item) : forall w,
  calls (snd (log_mailboxes L E items w)) = calls w.
Proof.
  induction items as [| x items IH]; intros w; [reflexivity |].
  cbn [log_mailboxes]. run_monad.
  destruct (item_decode L x) as [text |]; [| reflexivity].
  destruct (getitem1 (str_split text list_separator)) as [field |];
    [| reflexivity].
  destruct (header_of_str E field) as [shown |]; [| reflexivity].
  rewrite IH. reflexivity.
Qed.

Lemma list_mailboxes_calls L E (w : World) :
  calls (snd (list_mailboxes L E w)) = calls w.
Proof.
  unfold list_mailboxes, imap_list. run_monad.
  destruct (list_answer E (calls w)) as [[typ items] |]; [| reflexivity].
  destruct (typ =? "OK")%string; [| reflexivity].
  rewrite log_mailboxes_calls. reflexivity.
Qed.

Lemma search_emails_calls L sess mailbox s e (w : World) :
  exists cs,
    calls (snd (search_emails L sess mailbox s e w)) = (calls w ++ cs)%list
    /\ no_logout cs.
Proof.
  unfold search_emails. run_monad.
  destruct (validate_date_range s e) as [[] |];
    [| exists []; rewrite app_nil_r; split; reflexivity].
  destruct (sess (calls w ++ [Select mailbox])%list) as [r |];
    [| exists [Select mailbox]; split; reflexivity].
  destruct (strptime s) as [ds |];
    [| exists [Select mailbox]; split; reflexivity].
  destruct (strptime e) as [de |];
    [| exists [Select mailbox]; split; reflexivity].
  destruct (add_days de 1) as [nx |];
    [| exists [Select mailbox]; split; reflexivity].
  cbn [calls logs].
  match goal with
  | |- context [Search None ?q] =>
      exists [Select mailbox; Search None q]
  end.
  split; [| reflexivity]. rewrite <- app_assoc. cbn [app].
  destruct (sess _) as [[typ data] |]; [| reflexivity].
  destruct (negb (typ =? "OK")%string); [reflexivity |].
  destruct (getitem0 data) as [x |]; [| reflexivity].
  destruct (item_split x) as [toks |]; [| reflexivity].
  destruct (comprehension (utf8_strict L) toks); reflexivity.
Qed.

Lemma no_logout_app (xs ys : list Call) :
  no_logout xs -> no_logout ys -> no_logout (xs ++ ys).
Proof.
  unfold no_logout. intros Hx Hy. rewrite forallb_app, Hx, Hy. reflexivity.
Qed.

Lemma fetch_loop_calls L sess ext (ids : list pystr) : forall acc w,
  exists cs,
    calls (snd (fetch_loop L sess ids ext acc w)) = (calls w ++ cs)%list
    /\ no_logout cs.
Proof.
  induction ids as [| x ids IH]; intros acc w.
  - exists []. cbn. rewrite app_nil_r. split; reflexivity.
  - cbn [fetch_loop]. run_monad.
    destruct (sess (calls w ++ [Fetch x "(RFC822)"])%list)
      as [[typ data] |]; [| exists [Fetch x "(RFC822)"]; split; reflexivity].
    destruct (negb (typ =? "OK")%string).
    + match goal with
      | |- context [fetch_loop L sess ids ext acc ?w1] =>
          destruct (IH acc w1) as (cs & Hc & Hn)
      end.
      exists (Fetch x "(RFC822)" :: cs). rewrite Hc. cbn [calls].
      rewrite <- app_assoc. split; [reflexivity | exact Hn].
    + destruct (fetched_message L data) as [m |];
        [| exists [Fetch x "(RFC822)"]; split; reflexivity].
      rewrite !decode_text_header. cbn [calls logs].
      rewrite scan_parts_run. cbn [calls logs].
      match goal with
      | |- context [fetch_loop L sess ids ext ?a ?w1] =>
          destruct (IH a w1) as (cs & Hc & Hn)
      end.
      exists (Fetch x "(RFC822)" :: cs). rewrite Hc. cbn [calls].
      rewrite <- app_assoc. split; [reflexivity | exact Hn].
Qed.

Lemma get_attachments_info_calls L sess ids ext (w : World) :
  exists cs,
    calls (snd (get_attachments_info L sess ids ext w)) = (calls w ++ cs)%list
    /\ no_logout cs.
Proof.
  unfold get_attachments_info, bind, logging.
  destruct (fetch_loop_calls L sess ext ids [] w) as (cs & Hc & Hn).
  exists cs. split; [| exact Hn].
  destruct (fetch_loop L sess ids ext [] w) as [[l | ex] w1];
    cbn [snd calls] in *; exact Hc.
Qed.

Lemma log_attachments_run (l : list Triple) : forall w,
  log_attachments l w
  = (Ok tt, mkWorld (calls w) (logs w ++ map attachment_line l)).
Proof.
  induction l as [| t l IH]; intros w.
  - cbn. rewrite app_nil_r. destruct w. reflexivity.
  - cbn [log_attachments]. run_monad. rewrite IH. cbn [calls logs map].
    rewrite <- app_assoc. reflexivity.
Qed.

(** What [main] does with the outcome of the [try] block when a session was
    opened: a caught exception is logged, then the session is logged out. *)
Lemma main_with_session IMAP4_SSL server user pw L E w w1 sess :
  connect_to_imap_server IMAP4_SSL server user pw w = (Ok (Some sess), w1) ->
  main IMAP4_SSL server user pw L E w
  = match main_after_connect L E (Some sess) w1 with
    | (Ok _, w2) => (logout_outcome sess w2, logged_out w2)
    | (Raise ex, w2) =>
        let w3 := mkWorld (calls w2) (logs w2 ++ [caught_line ex]) in
        (logout_outcome sess w3, logged_out w3)
    end.
Proof.
  intros Hc. unfold main. rewrite Hc. unfold try_finally, try_excepts.
  destruct (main_after_connect L E (Some sess) w1) as [[[] | ex] w2].
  - unfold close_imap_session, logout_outcome, logged_out. run_monad.
    destruct (sess (calls w2 ++ [Logout])%list); reflexivity.
  - cbn [find fst snd]. unfold caught_line, any_Exception.
    destruct (is_IMAP4_error (exn_class ex));
      unfold close_imap_session, logout_outcome, logged_out; run_monad;
      destruct (sess (calls w2 ++ [Logout])%list); reflexivity.
Qed.

Ltac rewrite_run H :=
  match type of H with
  | ?f ?x = _ =>
      match goal with
      | |- context [f ?y] => change (f y) with (f x)
      end
  end;
  rewrite H.

Ltac rewrite_listing H :=
  match type of H with
  | ?lhs = _ =>
      match goal with
      | |- context [list_mailboxes ?L ?E ?x] =>
          change (list_mailboxes L E x) with lhs
      end
  end;
  rewrite H.

Lemma main_after_connect_calls L E sess (w : World) :
  exists cs,
    calls (snd (main_after_connect L E (Some sess) w)) = (calls w ++ cs)%list
    /\ no_logout cs.
Proof.
  unfold main_after_connect. run_monad.
  match goal with
  | |- context [list_mailboxes L E ?w1] =>
      pose proof (list_mailboxes_calls L E w1) as Hl;
      destruct (list_mailboxes L E w1) as [[[] | ex] w2]
  end; cbn [snd calls] in Hl;
    [| exists []; rewrite app_nil_r; split; [exact Hl | reflexivity]].
  destruct (search_emails_calls L sess MAILBOX START_DATE END_DATE w2)
    as (cs1 & H1 & N1).
  destruct (search_emails L sess MAILBOX START_DATE END_DATE w2)
    as [[ids | ex] w3]; cbn [snd] in H1;
    [| exists cs1; cbn [snd]; rewrite H1, Hl;
       split; [reflexivity | exact N1]].
  destruct ids as [| i ids];
    [exists cs1; cbv beta iota; cbn [snd calls]; rewrite H1, Hl;
     split; [reflexivity | exact N1] |].
  destruct (get_attachments_info_calls L sess (i :: ids) FILE_EXTENSION w3)
    as (cs2 & H2 & N2).
  destruct (get_attachments_info L sess (i :: ids) FILE_EXTENSION w3)
    as [[l | ex] w4]; cbn [snd] in H2;
    exists (cs1 ++ cs2)%list;
    (split; [| apply no_logout_app; assumption]).
  - destruct l as [| t l].
    + cbv beta iota. cbn [snd calls].
      rewrite H2, H1, Hl, app_assoc. reflexivity.
    + cbv beta iota. rewrite log_attachments_run. cbn [snd calls].
      rewrite H2, H1, Hl, app_assoc. reflexivity.
  - cbn [snd]. rewrite H2, H1, Hl, app_assoc. reflexivity.
Qed.

(** X16. When [connect_to_imap_server] gives no session, by returning
    [None] or by raising, [main] returns without raising: it logs one more
    error line and sends nothing, not even a logout. *)
Theorem main_without_session (IMAP4_SSL : pystr -> result Session)
    (server user pw : pystr) (L : PyLib) (E : Lister) (w w1 : World)
    (connected : result (option Session)) :
  connect_to_imap_server IMAP4_SSL server user pw w = (connected, w1) ->
  (forall sess, connected <> Ok (Some sess)) ->
  exists msg,
    main IMAP4_SSL server user pw L E w
    = (Ok tt, mkWorld (calls w1) (logs w1 ++ [(ERROR, msg)])).
Proof.
  intros Hc Hn. unfold main. rewrite Hc.
  unfold try_finally, try_excepts.
  destruct connected as [[sess |] | ex].
  - exfalso. exact (Hn sess eq_refl).
  - eexists. reflexivity.
  - cbn [lift find fst snd]. unfold any_Exception.
    destruct (is_IMAP4_error (exn_class ex)); eexists; reflexivity.
Qed.

Lemma main_without_session_witness :
  exists msg,
    main unresolved_host "imap.example.invalid" "user" "secret" example_lib
      slash_lister w0
    = (Ok tt, mkWorld [] [(ERROR, msg)]).
Proof.
  refine (main_without_session unresolved_host "imap.example.invalid" "user"
            "secret" example_lib slash_lister w0 w0 _ eq_refl _).
  intros sess H. discriminate H.
Defined.

(** X17. When [connect_to_imap_server] gives a session, [main] logs it out
    exactly once, as the last command, whatever the steps before it did:
    the commands between the login and the logout contain no logout, every
    exception of those steps is caught, and [main] raises exactly when the
    logout itself raises. *)
Theorem main_logs_out_once (IMAP4_SSL : pystr -> result Session)
    (server user pw : pystr) (L : PyLib) (E : Lister) (w w1 : World)
    (sess : Session) :
  connect_to_imap_server IMAP4_SSL server user pw w = (Ok (Some sess), w1) ->
  exists cs,
    calls (snd (main IMAP4_SSL server user pw L E w))
    = (calls w1 ++ cs ++ [Logout])%list
    /\ no_logout cs
    /\ fst (main IMAP4_SSL server user pw L E w)
       = match sess (calls w1 ++ cs ++ [Logout])%list with
         | Ok _ => Ok tt
         | Raise ex => Raise ex
         end.
Proof.
  intros Hc. rewrite (main_with_session _ _ _ _ L E w w1 sess Hc).
  destruct (main_after_connect_calls L E sess w1) as (cs & H & N).
  exists cs. unfold logout_outcome, logged_out.
  destruct (main_after_connect L E (Some sess) w1) as [[[] | ex] w2];
    cbn [snd fst calls logs] in *; rewrite H, <- app_assoc;
    (split; [reflexivity | split; [exact N | reflexivity]]).
Qed.

Lemma main_logs_out_once_witness :
  exists cs,
    calls (snd (main example_host "imap.example.com" "user" "secret"
                  example_lib dot_lister w0))
    = ([Login "user" "secret"] ++ cs ++ [Logout])%list
    /\ no_logout cs.
Proof.
  let v := eval vm_compute in
             (snd (connect_to_imap_server example_host "imap.example.com"
                     "user" "secret" w0)) in
  destruct (main_logs_out_once example_host "imap.example.com" "user"
              "secret" example_lib dot_lister w0 v example_session eq_refl)
    as (cs & H & N & _).
  exists cs. split; [exact H | exact N].
Defined.

(** X18. When the listing of the mailboxes raises, the run ends there: [main]
    logs the exception and logs out, and neither selects the mailbox nor
    searches nor fetches. *)
Theorem main_listing_failure (IMAP4_SSL : pystr -> result Session)
    (server user pw : pystr) (L : PyLib) (E : Lister) (w w1 w2 : World)
    (sess : Session) (ex : Exn) :
  connect_to_imap_server IMAP4_SSL server user pw w = (Ok (Some sess), w1) ->
  list_mailboxes L E
    (mkWorld (calls w1)
             (logs w1 ++ [(INFO, "Listing all available mailboxes:")]))
  = (Raise ex, w2) ->
  main IMAP4_SSL server user pw L E w
  = (logout_outcome sess w1,
     mkWorld (calls w1 ++ [Logout]) (logs w2 ++ [caught_line ex])).
Proof.
  intros Hc Hl. rewrite (main_with_session _ _ _ _ L E w w1 sess Hc).
  pose proof (list_mailboxes_calls L E
                (mkWorld (calls w1)
                   (logs w1 ++ [(INFO, "Listing all available mailboxes:")])))
    as Hcalls.
  rewrite Hl in Hcalls. cbn [snd calls] in Hcalls.
  unfold main_after_connect. run_monad. rewrite_listing Hl.
  unfold logout_outcome, logged_out. cbn [calls logs]. rewrite Hcalls.
  reflexivity.
Qed.

Lemma main_listing_failure_witness :
  snd (main example_host "imap.example.com" "user" "secret" example_lib
         dot_lister w0)
  = mkWorld [Login "user" "secret"; Logout]
      [(INFO, "IMAP connection successful");
       (INFO, "Listing all available mailboxes:");
       (INFO, "Mailboxes available:");
       (ERROR, "An unexpected error occurred: list index out of range")].
Proof.
  rewrite (main_listing_failure example_host "imap.example.com" "user"
             "secret" example_lib dot_lister w0
             (mkWorld [Login "user" "secret"]
                [(INFO, "IMAP connection successful")])
             (mkWorld [Login "user" "secret"]
                [(INFO, "IMAP connection successful");
                 (INFO, "Listing all available mailboxes:");
                 (INFO, "Mailboxes available:")])
             example_session
             (mkExn IndexError "list index out of range") eq_refl eq_refl).
  reflexivity.
Defined.

(** X19. When the search is refused, and likewise when it finds nothing,
    [main] fetches nothing: after the listing it sends the selection, the
    search for 01-Mar-2024 up to 05-Mar-2024 and the logout, and its last
    line is that no emails were found, which follows the error line of the
    refused search. *)
Theorem main_without_identifiers (IMAP4_SSL : pystr -> result Session)
    (server user pw : pystr) (L : PyLib) (E : Lister) (w w1 w2 : World)
    (sess : Session) (r : Reply) (typ : pystr) (data : list Item) :
  connect_to_imap_server IMAP4_SSL server user pw w = (Ok (Some sess), w1) ->
  list_mailboxes L E
    (mkWorld (calls w1)
             (logs w1 ++ [(INFO, "Listing all available mailboxes:")]))
  = (Ok tt, w2) ->
  sess (calls w1 ++ [Select "INBOX"])%list = Ok r ->
  sess (calls w1 ++ [Select "INBOX"; Search None main_query])%list
  = Ok (typ, data) ->
  typ <> "OK" \/ (exists others, typ = "OK" /\ data = IBytes "" :: others) ->
  let w3 :=
    mkWorld (calls w1 ++ [Select "INBOX"; Search None main_query])
            (logs w2
             ++ (if (typ =? "OK")%string then []
                 else [(ERROR, search_error_message)])
             ++ [(INFO, "No emails found in the specified date range.")]) in
  main IMAP4_SSL server user pw L E w = (logout_outcome sess w3, logged_out w3).
Proof.
  intros Hc Hl Hsel Hsearch Hcase w3.
  rewrite (main_with_session _ _ _ _ L E w w1 sess Hc).
  pose proof (list_mailboxes_calls L E
                (mkWorld (calls w1)
                   (logs w1 ++ [(INFO, "Listing all available mailboxes:")])))
    as Hcalls.
  rewrite Hl in Hcalls. cbn [snd calls] in Hcalls.
  assert (Hmax : mkdate 2024 3 4 <> max_date) by discriminate.
  rewrite <- Hcalls in Hsel, Hsearch.
  assert (Hrun :
    search_emails L sess MAILBOX START_DATE END_DATE w2
    = (if negb (typ =? "OK")%string then
         (Ok [],
          mkWorld (calls w2 ++ [Select "INBOX"; Search None main_query])
                  (logs w2 ++ [(ERROR, search_error_message)]))
       else
         (match getitem0 data with
          | Raise ex => Raise ex
          | Ok x => match item_split x with
                    | Raise ex => Raise ex
                    | Ok toks => comprehension (utf8_strict L) toks
                    end
          end,
          mkWorld (calls w2 ++ [Select "INBOX"; Search None main_query])
                  (logs w2)))).
  { rewrite (search_emails_run L sess MAILBOX START_DATE END_DATE w2
               (mkdate 2024 3 1) (mkdate 2024 3 4) r
               eq_refl eq_refl eq_refl Hmax Hsel).
    cbv zeta. cbn [calls].
    change (search_criterion (strftime (mkdate 2024 3 1))
              (strftime (next_day (mkdate 2024 3 4)))) with main_query.
    change MAILBOX with "INBOX". rewrite Hsearch. reflexivity. }
  unfold main_after_connect. unfold bind at 1 2. unfold logging at 1.
  cbn [calls logs]. rewrite_listing Hl. unfold bind at 1. rewrite Hrun.
  subst w3. rewrite Hcalls.
  destruct Hcase as [Hno | (others & -> & ->)].
  - destruct (typ =? "OK")%string eqn:Et.
    + apply String.eqb_eq in Et. contradiction.
    + cbn [negb]. unfold logging. cbn [calls logs app].
      rewrite <- app_assoc. reflexivity.
  - cbn [String.eqb Ascii.eqb Bool.eqb negb getitem0 item_split].
    change (comprehension (utf8_strict L) (split "")) with (@Ok (list pystr) []).
    unfold logging. cbn [calls logs app]. reflexivity.
Qed.

Lemma main_without_identifiers_witness :
  snd (main (fun _ => Ok refusing_session) "imap.example.com" "user" "secret"
         example_lib slash_lister w0)
  = mkWorld [Login "user" "secret"; Select "INBOX"; Search None main_query;
             Logout]
      [(INFO, "IMAP connection successful");
       (INFO, "Listing all available mailboxes:");
       (INFO, "Mailboxes available:");
       mailbox_line (quoted "INBOX");
       mailbox_line (quoted "[Gmail]/Sent Mail");
       (ERROR, search_error_message);
       (INFO, "No emails found in the specified date range.")].
Proof.
  assert (Hno : "NO" <> "OK") by discriminate.
  rewrite (main_without_identifiers (fun _ => Ok refusing_session)
             "imap.example.com" "user" "secret" example_lib slash_lister w0
             (mkWorld [Login "user" "secret"]
                [(INFO, "IMAP connection successful")])
             (mkWorld [Login "user" "secret"]
                [(INFO, "IMAP connection successful");
                 (INFO, "Listing all available mailboxes:");
                 (INFO, "Mailboxes available:");
                 mailbox_line (quoted "INBOX");
                 mailbox_line (quoted "[Gmail]/Sent Mail")])
             refusing_session ("OK", [IBytes ""]) "NO"
             [IBytes "search failed"]
             eq_refl eq_refl eq_refl eq_refl (or_introl Hno)).
  reflexivity.
Defined.

(** X20. The whole run.  When the search returns identifiers and every
    fetch is answered, [main] sends the selection, the search, one fetch per
    identifier and then the logout; after the count it logs one line per
    record, with file name, sender and subject, in the order of the
    records, or, when no record was found, the line that says so. *)
Theorem main_end_to_end (IMAP4_SSL : pystr -> result Session)
    (server user pw : pystr) (L : PyLib) (E : Lister) (w w1 w2 : World)
    (sess : Session) (r : Reply) (b : pybytes) (others : list Item)
    (ids : list pystr) (recs : list (list Triple)) :
  let h := (calls w1 ++ [Select "INBOX"; Search None main_query])%list in
  connect_to_imap_server IMAP4_SSL server user pw w = (Ok (Some sess), w1) ->
  list_mailboxes L E
    (mkWorld (calls w1)
             (logs w1 ++ [(INFO, "Listing all available mailboxes:")]))
  = (Ok tt, w2) ->
  sess (calls w1 ++ [Select "INBOX"])%list = Ok r ->
  sess h = Ok ("OK", IBytes b :: others) ->
  comprehension (utf8_strict L) (split b) = Ok ids -> ids <> [] ->
  batch_answers L sess FILE_EXTENSION h ids recs ->
  exists l,
    let w4 :=
      mkWorld (h ++ map fetch_call ids)
              (logs w2 ++ l
               ++ [completed_line (List.length (List.concat recs))]
               ++ match List.concat recs with
                  | [] =>
                      [(INFO,
                        "No attachments found matching the specified file extension.")]
                  | ts => map attachment_line ts
                  end) in
    main IMAP4_SSL server user pw L E w
    = (logout_outcome sess w4, logged_out w4).
Proof.
  intros h Hc Hl Hsel Hsearch Hids Hne Hb.
  rewrite (main_with_session _ _ _ _ L E w w1 sess Hc).
  pose proof (list_mailboxes_calls L E
                (mkWorld (calls w1)
                   (logs w1 ++ [(INFO, "Listing all available mailboxes:")])))
    as Hcalls.
  rewrite Hl in Hcalls. cbn [snd calls] in Hcalls.
  assert (Hmax : mkdate 2024 3 4 <> max_date) by discriminate.
  unfold h in *. rewrite <- Hcalls in Hsel, Hsearch, Hb |- *.
  assert (Hrun :
    search_emails L sess MAILBOX START_DATE END_DATE w2
    = (Ok ids,
       mkWorld (calls w2 ++ [Select "INBOX"; Search None main_query])
               (logs w2))).
  { rewrite (search_emails_run L sess MAILBOX START_DATE END_DATE w2
               (mkdate 2024 3 1) (mkdate 2024 3 4) r
               eq_refl eq_refl eq_refl Hmax Hsel).
    cbv zeta. cbn [calls].
    change (search_criterion (strftime (mkdate 2024 3 1))
              (strftime (next_day (mkdate 2024 3 4)))) with main_query.
    change MAILBOX with "INBOX". rewrite Hsearch.
    cbn [String.eqb Ascii.eqb Bool.eqb negb getitem0 item_split].
    rewrite Hids. reflexivity. }
  destruct (batch_answers_run L sess FILE_EXTENSION _ _ _ Hb []
              (mkWorld (calls w2 ++ [Select "INBOX"; Search None main_query])
                       (logs w2)) eq_refl) as [l Hloop].
  cbn [app calls logs] in Hloop.
  assert (Hget :
    get_attachments_info L sess ids FILE_EXTENSION
      (mkWorld (calls w2 ++ [Select "INBOX"; Search None main_query])
               (logs w2))
    = (Ok (List.concat recs),
       mkWorld ((calls w2 ++ [Select "INBOX"; Search None main_query])
                ++ map fetch_call ids)
               ((logs w2 ++ l)
                ++ [completed_line (List.length (List.concat recs))]))).
  { unfold get_attachments_info, bind. rewrite Hloop. reflexivity. }
  exists l. cbv zeta.
  unfold main_after_connect, bind. unfold logging at 1.
  cbn [calls logs]. rewrite_listing Hl. rewrite_run Hrun.
  destruct ids as [| i ids]; [contradiction |].
  rewrite_run Hget.
  destruct (List.concat recs) as [| t ts].
  - unfold logging. cbn [calls logs List.length].
    unfold logout_outcome, logged_out. cbn [calls logs].
    rewrite <- !app_assoc. reflexivity.
  - rewrite log_attachments_run. cbn [calls logs].
    unfold logout_outcome, logged_out. cbn [calls logs].
    rewrite <- !app_assoc. reflexivity.
Qed.

Lemma main_end_to_end_witness :
  exists l,
    snd (main example_host "imap.example.com" "user" "secret" example_lib
           slash_lister w0)
    = mkWorld [Login "user" "secret"; Select "INBOX";
               Search None main_query; fetch_call "1"; fetch_call "2";
               fetch_call "3"; Logout]
        (l ++ [completed_line 2;
               attachment_line ("Invoice for March", "billing@example.com",
                                "invoice.pdf");
               attachment_line ("Invoice for March", "billing@example.com",
                                "invoice.pdf")]).
Proof.
  assert (Hno : "NO" <> "OK") by discriminate.
  assert (Hne : ["1"; "2"; "3"] <> @nil pystr) by discriminate.
  assert (Hb : batch_answers example_lib example_session FILE_EXTENSION
                 ([Login "user" "secret"]
                  ++ [Select "INBOX"; Search None main_query])
                 ["1"; "2"; "3"]
                 [message_records ".pdf" invoice_message; [];
                  message_records ".pdf" invoice_message]).
  { apply (answers_fetched _ _ _ _ "1" _
             [ITuple "1 (RFC822 {7}" "invoice"; IBytes ")"] invoice_message);
      [reflexivity | reflexivity |].
    apply (answers_refused _ _ _ _ "2" _ "NO" [IBytes "no such message"]);
      [reflexivity | exact Hno |].
    apply (answers_fetched _ _ _ _ "3" _
             [ITuple "3 (RFC822 {7}" "invoice"; IBytes ")"] invoice_message);
      [reflexivity | reflexivity | apply answers_nil]. }
  destruct (main_end_to_end example_host "imap.example.com" "user" "secret"
              example_lib slash_lister w0
              (mkWorld [Login "user" "secret"]
                 [(INFO, "IMAP connection successful")])
              (mkWorld [Login "user" "secret"]
                 [(INFO, "IMAP connection successful");
                  (INFO, "Listing all available mailboxes:");
                  (INFO, "Mailboxes available:");
                  mailbox_line (quoted "INBOX");
                  mailbox_line (quoted "[Gmail]/Sent Mail")])
              example_session ("OK", [IBytes "3"]) "1 2 3" []
              ["1"; "2"; "3"] _ eq_refl eq_refl eq_refl eq_refl eq_refl
              Hne Hb) as [l H].
  cbv zeta in H.
  exists ([(INFO, "IMAP connection successful");
           (INFO, "Listing all available mailboxes:");
           (INFO, "Mailboxes available:");
           mailbox_line (quoted "INBOX");
           mailbox_line (quoted "[Gmail]/Sent Mail")] ++ l)%list.
  rewrite H. unfold logged_out. cbn [snd calls logs].
  rewrite <- app_assoc. reflexivity.
Defined.

(** ** The spelling of the dates *)

(** X21. The spelling of a date does not matter: for two start texts and two
    end texts that match the format and denote the same dates, whatever the
    letter case of the month or the padding of the day, [search_emails]
    does the same, command for command and line for line. *)
Theorem search_emails_spelling (L : PyLib) (sess : Session)
    (mailbox s s' e e' : pystr) (w : World) (ds de : datetime) :
  matches_DATE_FORMAT s ds -> matches_DATE_FORMAT s' ds ->
  matches_DATE_FORMAT e de -> matches_DATE_FORMAT e' de ->
  search_emails L sess mailbox s e w = search_emails L sess mailbox s' e' w.
Proof.
  intros Hs Hs' He He'.
  apply strptime_complete in Hs, Hs', He, He'.
  unfold search_emails, validate_date_range.
  rewrite Hs, Hs', He, He'. reflexivity.
Qed.

Lemma search_emails_spelling_witness :
  search_emails example_lib example_session "INBOX" "1-mar-2024"
    " 4-MAR-2024" w0
  = search_emails example_lib example_session "INBOX" "01-Mar-2024"
      "04-Mar-2024" w0.
Proof.
  apply (search_emails_spelling example_lib example_session "INBOX"
           "1-mar-2024" "01-Mar-2024" " 4-MAR-2024" "04-Mar-2024" w0
           (mkdate 2024 3 1) (mkdate 2024 3 4));
    apply strptime_sound; reflexivity.
Defined.
